(** * Governance engine of the compliance dashboard (main.py)

    A shallow embedding of [GovernanceManager]: the control registry, the
    incident ledger, the alert sink, the audit log and the operations that
    mutate them.  Python floats are IEEE binary64 values ([PrimFloat.float]),
    Python ints are [Z], [datetime] values are microsecond counts, and the
    wall clock and the random source are streams owned by the runtime.
    Operations run one at a time, to completion; writes to the log sink
    ([logging], [print]) and the report export are left out. *)

From Stdlib Require Import ZArith List String Ascii Bool Floats Lia.
From Stdlib Require Import DecimalString DecimalZ DecimalPos.
Import ListNotations.
Open Scope string_scope.
Open Scope list_scope.
Open Scope Z_scope.
Set Warnings "-inexact-float".

Infix "+++" := String.append (right associativity, at level 60).

(** ** Enumerations *)

Inductive ComplianceStatus := COMPLIANT | NON_COMPLIANT | IN_PROGRESS | NOT_ASSESSED.

Inductive RiskLevel := LOW | MEDIUM | HIGH | CRITICAL.

Definition ComplianceStatus_value (s : ComplianceStatus) : string :=
  match s with
  | COMPLIANT => "compliant"
  | NON_COMPLIANT => "non_compliant"
  | IN_PROGRESS => "in_progress"
  | NOT_ASSESSED => "not_assessed"
  end.

Definition RiskLevel_value (r : RiskLevel) : string :=
  match r with
  | LOW => "low"
  | MEDIUM => "medium"
  | HIGH => "high"
  | CRITICAL => "critical"
  end.

Definition status_eqb (a b : ComplianceStatus) : bool :=
  match a, b with
  | COMPLIANT, COMPLIANT | NON_COMPLIANT, NON_COMPLIANT
  | IN_PROGRESS, IN_PROGRESS | NOT_ASSESSED, NOT_ASSESSED => true
  | _, _ => false
  end.

Definition risk_eqb (a b : RiskLevel) : bool :=
  match a, b with
  | LOW, LOW | MEDIUM, MEDIUM | HIGH, HIGH | CRITICAL, CRITICAL => true
  | _, _ => false
  end.

(** ** Data classes *)

(** A naive [datetime.datetime], as microseconds on the local time line. *)
Definition datetime := Z.

Definition microseconds_per_day : Z := 86400000000.

(** [datetime.timedelta(days=n)] subtracted from a datetime. *)
Definition minus_days (t : datetime) (n : Z) : datetime := t - n * microseconds_per_day.

(** [(a - b).days]: a timedelta is normalised with a floored day count. *)
Definition timedelta_days (a b : datetime) : Z := (a - b) / microseconds_per_day.

Record ControlRequirement := mkControl {
  control_id : string;
  title : string;
  description : string;
  standard : string;
  status : ComplianceStatus;
  risk_level : RiskLevel;
  implementation_date : string;
  next_review_date : string;
  responsible_team : string;
  evidence_documents : list string;
  notes : string;
  last_assessment_date : option datetime;
  compliance_drift_factor : float;
  incident_count : Z;
  automation_level : float;
  dependency_controls : list string
}.

Record ComplianceIncident := mkIncident {
  incident_id : string;
  inc_title : string;
  inc_description : string;
  affected_controls : list string;
  severity : RiskLevel;
  occurrence_time : datetime;
  resolution_time : option datetime;
  impact_duration_hours : Z
}.

(** The alert dictionaries of [_create_alert]; every value but the flag is a
    string in the source ([severity] holds [severity.value]). *)
Record Alert := mkAlert {
  alert_id : string;
  alert_title : string;
  alert_message : string;
  alert_severity : string;
  alert_timestamp : string;
  acknowledged : bool
}.

(** The two shapes of audit dictionary, tagged by their ["action"] entry. *)
Inductive AuditEntry :=
| status_update (timestamp cid old_status new_status anotes : string)
| solution_implemented (timestamp cid solution_type adescription : string).

Record GovernanceManager := mkManager {
  iso27001_controls : list ControlRequirement;
  pci_dss_controls : list ControlRequirement;
  audit_log : list AuditEntry;
  incidents : list ComplianceIncident;
  alerts : list Alert;
  monitoring_active : bool
}.

(** ** Field updates (attribute assignment on a dataclass instance) *)

Definition set_status (s : ComplianceStatus) (c : ControlRequirement) :=
  mkControl c.(control_id) c.(title) c.(description) c.(standard) s
    c.(risk_level) c.(implementation_date) c.(next_review_date)
    c.(responsible_team) c.(evidence_documents) c.(notes)
    c.(last_assessment_date) c.(compliance_drift_factor) c.(incident_count)
    c.(automation_level) c.(dependency_controls).

Definition set_notes (n : string) (c : ControlRequirement) :=
  mkControl c.(control_id) c.(title) c.(description) c.(standard) c.(status)
    c.(risk_level) c.(implementation_date) c.(next_review_date)
    c.(responsible_team) c.(evidence_documents) n
    c.(last_assessment_date) c.(compliance_drift_factor) c.(incident_count)
    c.(automation_level) c.(dependency_controls).

Definition set_last_assessment_date (t : option datetime) (c : ControlRequirement) :=
  mkControl c.(control_id) c.(title) c.(description) c.(standard) c.(status)
    c.(risk_level) c.(implementation_date) c.(next_review_date)
    c.(responsible_team) c.(evidence_documents) c.(notes)
    t c.(compliance_drift_factor) c.(incident_count)
    c.(automation_level) c.(dependency_controls).

Definition set_compliance_drift_factor (f : float) (c : ControlRequirement) :=
  mkControl c.(control_id) c.(title) c.(description) c.(standard) c.(status)
    c.(risk_level) c.(implementation_date) c.(next_review_date)
    c.(responsible_team) c.(evidence_documents) c.(notes)
    c.(last_assessment_date) f c.(incident_count)
    c.(automation_level) c.(dependency_controls).

Definition set_incident_count (n : Z) (c : ControlRequirement) :=
  mkControl c.(control_id) c.(title) c.(description) c.(standard) c.(status)
    c.(risk_level) c.(implementation_date) c.(next_review_date)
    c.(responsible_team) c.(evidence_documents) c.(notes)
    c.(last_assessment_date) c.(compliance_drift_factor) n
    c.(automation_level) c.(dependency_controls).

Definition set_automation_level (f : float) (c : ControlRequirement) :=
  mkControl c.(control_id) c.(title) c.(description) c.(standard) c.(status)
    c.(risk_level) c.(implementation_date) c.(next_review_date)
    c.(responsible_team) c.(evidence_documents) c.(notes)
    c.(last_assessment_date) c.(compliance_drift_factor) c.(incident_count)
    f c.(dependency_controls).

Definition set_resolution_time (t : option datetime) (i : ComplianceIncident) :=
  mkIncident i.(incident_id) i.(inc_title) i.(inc_description)
    i.(affected_controls) i.(severity) i.(occurrence_time) t
    i.(impact_duration_hours).

Definition set_acknowledged (b : bool) (a : Alert) :=
  mkAlert a.(alert_id) a.(alert_title) a.(alert_message) a.(alert_severity)
    a.(alert_timestamp) b.

Definition set_iso27001_controls (l : list ControlRequirement) (g : GovernanceManager) :=
  mkManager l g.(pci_dss_controls) g.(audit_log) g.(incidents) g.(alerts)
    g.(monitoring_active).

Definition set_pci_dss_controls (l : list ControlRequirement) (g : GovernanceManager) :=
  mkManager g.(iso27001_controls) l g.(audit_log) g.(incidents) g.(alerts)
    g.(monitoring_active).

Definition set_audit_log (l : list AuditEntry) (g : GovernanceManager) :=
  mkManager g.(iso27001_controls) g.(pci_dss_controls) l g.(incidents) g.(alerts)
    g.(monitoring_active).

Definition set_incidents (l : list ComplianceIncident) (g : GovernanceManager) :=
  mkManager g.(iso27001_controls) g.(pci_dss_controls) g.(audit_log) l g.(alerts)
    g.(monitoring_active).

Definition set_alerts (l : list Alert) (g : GovernanceManager) :=
  mkManager g.(iso27001_controls) g.(pci_dss_controls) g.(audit_log) g.(incidents) l
    g.(monitoring_active).

(** [self.iso27001_controls + self.pci_dss_controls] *)
Definition all_controls (g : GovernanceManager) : list ControlRequirement :=
  g.(iso27001_controls) ++ g.(pci_dss_controls).

(** ** Python numbers *)

(** [str(n)] for an int. *)
Definition str (n : Z) : string := NilZero.string_of_int (Z.to_int n).

(** True division [a / b] of two ints with [b > 0]: the quotient of the
    exact integers, rounded once to binary64 (ties to even). *)
Definition int_truediv (a : Z) (b : positive) : float :=
  match a with
  | Z0 => 0%float
  | Zpos p => SF2Prim (SFdiv prec emax (S754_finite false p 0) (S754_finite false b 0))
  | Zneg p => SF2Prim (SFdiv prec emax (S754_finite true p 0) (S754_finite false b 0))
  end.

(** [min(1.0, x)]: the first argument is kept unless the second is smaller. *)
Definition min_1 (x : float) : float :=
  if PrimFloat.ltb x 1%float then x else 1%float.

(** Nearest integer to [n / d] for [d > 0], ties to the even one. *)
Definition round_half_even (n d : Z) : Z :=
  let q := n / d in
  let r := n mod d in
  match (2 * r ?= d) with
  | Lt => q
  | Gt => q + 1
  | Eq => if Z.even q then q else q + 1
  end.

(** [round(x, 2)] on a float: the exact binary value is rounded to two
    decimals, ties to even, and the decimal result is converted back to the
    nearest float.  Integral, infinite and NaN arguments come back as they
    are. *)
Definition round2 (x : float) : float :=
  match Prim2SF x with
  | S754_finite s m e =>
      if 0 <=? e then x
      else
        match round_half_even (Zpos m * 100) (2 ^ (- e)) with
        | Zpos n => SF2Prim (SFdiv prec emax (S754_finite s n 0) (S754_finite false 100 0))
        | _ => SF2Prim (S754_zero s)
        end
  | _ => x
  end.

(** A Python number: [round] keeps an int an int. *)
Inductive pynum := PyInt (z : Z) | PyFloat (f : float).

(** [==] on Python numbers. *)
Definition pynum_eqb (a b : pynum) : bool :=
  match a, b with
  | PyInt x, PyInt y => x =? y
  | PyFloat x, PyFloat y => PrimFloat.eqb x y
  | PyInt x, PyFloat y => PrimFloat.eqb (int_truediv x 1) y
  | PyFloat x, PyInt y => PrimFloat.eqb x (int_truediv y 1)
  end.

(** ** The runtime: clock, random source and date formatting *)

(** What the engine consumes from its environment.  Each stream gives the
    result of the k-th call since the process started. *)
Record Runtime := mkRuntime {
  datetime_now : nat -> datetime;        (* datetime.datetime.now() *)
  time_time : nat -> Z;                  (* int(time.time()) *)
  random_random : nat -> float;          (* random.random() *)
  random_below : nat -> nat -> nat;      (* index drawn by random.choice on n items *)
  isoformat : datetime -> string;        (* datetime.isoformat() *)
  strptime : string -> option datetime   (* strptime(s, "%Y-%m-%d"); None is ValueError *)
}.

(** How many values of each stream have been consumed. *)
Record Calls := mkCalls {
  n_now : nat;
  n_time : nat;
  n_random : nat;
  n_choice : nat
}.

Record World := mkWorld {
  self : GovernanceManager;
  calls : Calls
}.

(** ** A state monad over the world *)

Definition M (A : Type) : Type := World -> A * World.

Definition ret {A} (a : A) : M A := fun w => (a, w).

Definition bind {A B} (m : M A) (k : A -> M B) : M B :=
  fun w => let (a, w') := m w in k a w'.

Notation "x <- m ;; k" := (bind m (fun x => k))
  (at level 61, m at next level, right associativity).
Notation "m ;;; k" := (bind m (fun _ => k))
  (at level 61, right associativity).

Definition gets {A} (f : GovernanceManager -> A) : M A :=
  fun w => (f w.(self), w).

Definition modify (f : GovernanceManager -> GovernanceManager) : M unit :=
  fun w => (tt, mkWorld (f w.(self)) w.(calls)).

Definition exec {A} (m : M A) (w : World) : World := snd (m w).

Definition result {A} (m : M A) (w : World) : A := fst (m w).

(** The loop [for control in controls: ...] where the body may assign to the
    control's attributes: every control is replaced by what the body leaves. *)
Fixpoint for_each (body : ControlRequirement -> M ControlRequirement)
    (cs : list ControlRequirement) : M (list ControlRequirement) :=
  match cs with
  | [] => ret []
  | c :: rest =>
      c' <- body c ;;
      rest' <- for_each body rest ;;
      ret (c' :: rest')
  end.

(** [all_controls = self.iso27001_controls + self.pci_dss_controls] followed by
    [for control in all_controls: ...]: the concatenation is built before the
    loop and holds the objects of the first list, then those of the second. *)
Definition for_all_controls (body : ControlRequirement -> M ControlRequirement) : M unit :=
  iso <- gets iso27001_controls ;;
  pci <- gets pci_dss_controls ;;
  iso' <- for_each body iso ;;
  pci' <- for_each body pci ;;
  modify (fun g => set_pci_dss_controls pci' (set_iso27001_controls iso' g)).

(** First element satisfying [p], with what precedes and follows it. *)
Fixpoint find_split {A} (p : A -> bool) (l : list A) : option (list A * A * list A) :=
  match l with
  | [] => None
  | x :: rest =>
      if p x then Some ([], x, rest)
      else match find_split p rest with
           | Some (pre, y, post) => Some (x :: pre, y, post)
           | None => None
           end
  end.

(** [x in l] for a list of strings. *)
Definition str_in (x : string) (l : list string) : bool :=
  existsb (String.eqb x) l.

Section Engine.

Variable rt : Runtime.

Definition now : M datetime :=
  fun w => (rt.(datetime_now) w.(calls).(n_now),
            mkWorld w.(self)
              (mkCalls (S w.(calls).(n_now)) w.(calls).(n_time)
                 w.(calls).(n_random) w.(calls).(n_choice))).

Definition unix_time : M Z :=
  fun w => (rt.(time_time) w.(calls).(n_time),
            mkWorld w.(self)
              (mkCalls w.(calls).(n_now) (S w.(calls).(n_time))
                 w.(calls).(n_random) w.(calls).(n_choice))).

Definition random : M float :=
  fun w => (rt.(random_random) w.(calls).(n_random),
            mkWorld w.(self)
              (mkCalls w.(calls).(n_now) w.(calls).(n_time)
                 (S w.(calls).(n_random)) w.(calls).(n_choice))).

(** [random.choice(seq)] on a non-empty sequence [x :: xs]. *)
Definition choice {A} (x : A) (xs : list A) : M A :=
  fun w =>
    let n := S (List.length xs) in
    (nth (Nat.modulo (rt.(random_below) w.(calls).(n_choice) n) n) (x :: xs) x,
     mkWorld w.(self)
       (mkCalls w.(calls).(n_now) w.(calls).(n_time)
          w.(calls).(n_random) (S w.(calls).(n_choice)))).

(** ** Alerts *)

Definition _create_alert (title message : string) (sev : RiskLevel) : M unit :=
  t <- unix_time ;;
  als <- gets alerts ;;
  ts <- now ;;
  let alert :=
    mkAlert ("ALT-" +++ str t +++ "-" +++ str (Z.of_nat (List.length als)))
      title message (RiskLevel_value sev) (rt.(isoformat) ts) false in
  modify (fun g => set_alerts (g.(alerts) ++ [alert]) g).

Definition get_active_alerts : M (list Alert) :=
  als <- gets alerts ;;
  ret (filter (fun a => negb a.(acknowledged)) als).

Definition acknowledge_alert (aid : string) : M bool :=
  als <- gets alerts ;;
  match find_split (fun a => String.eqb a.(alert_id) aid) als with
  | Some (pre, a, post) =>
      modify (set_alerts (pre ++ set_acknowledged true a :: post)) ;;;
      ret true
  | None => ret false
  end.

(** ** Loops over the registry that return at the first hit *)

(** [for control in all_controls: if p(control): body; return True] followed
    by [return False]. *)
Definition first_control (p : ControlRequirement -> bool)
    (body : ControlRequirement -> M ControlRequirement) : M bool :=
  iso <- gets iso27001_controls ;;
  pci <- gets pci_dss_controls ;;
  match find_split p iso with
  | Some (pre, c, post) =>
      c' <- body c ;;
      modify (set_iso27001_controls (pre ++ c' :: post)) ;;;
      ret true
  | None =>
      match find_split p pci with
      | Some (pre, c, post) =>
          c' <- body c ;;
          modify (set_pci_dss_controls (pre ++ c' :: post)) ;;;
          ret true
      | None => ret false
      end
  end.

(** ** Status update and summaries *)

Definition update_control_status (cid : string) (st : ComplianceStatus)
    (nts : string) : M bool :=
  first_control (fun c => String.eqb c.(control_id) cid)
    (fun c =>
       let old_status := c.(status) in
       let c' := set_notes nts (set_status st c) in
       ts <- now ;;
       modify (fun g => set_audit_log
         (g.(audit_log) ++
            [status_update (rt.(isoformat) ts) cid
               (ComplianceStatus_value old_status)
               (ComplianceStatus_value st) nts]) g) ;;;
       ret c').

Record StandardSummary := mkSummary {
  sum_standard : string;
  total_controls : nat;
  compliant : nat;
  non_compliant : nat;
  in_progress : nat;
  not_assessed : nat;
  compliance_percentage : pynum
}.

(** [len([c for c in controls if c.status == st])] *)
Definition count_status (st : ComplianceStatus) (controls : list ControlRequirement) : nat :=
  List.length (filter (fun c => status_eqb c.(status) st) controls).

(** [round(v, 2)] on a Python number. *)
Definition py_round2 (v : pynum) : pynum :=
  match v with
  | PyInt z => PyInt z
  | PyFloat f => PyFloat (round2 f)
  end.

Definition _get_standard_summary (controls : list ControlRequirement)
    (std : string) : StandardSummary :=
  let total := List.length controls in
  let n_compliant := count_status COMPLIANT controls in
  let n_non_compliant := count_status NON_COMPLIANT controls in
  let n_in_progress := count_status IN_PROGRESS controls in
  let n_not_assessed := count_status NOT_ASSESSED controls in
  let percentage :=
    match total with
    | S k => PyFloat (int_truediv (Z.of_nat n_compliant) (Pos.of_succ_nat k) * 100)%float
    | O => PyInt 0
    end in
  mkSummary std total n_compliant n_non_compliant n_in_progress n_not_assessed
    (py_round2 percentage).

(** The dictionaries of [_get_high_risk_issues], as tuples
    (control_id, title, risk_level, responsible_team). *)
Definition _get_high_risk_issues (g : GovernanceManager)
    : list (string * string * string * string) :=
  map (fun c => (c.(control_id), c.(title), RiskLevel_value c.(risk_level),
                 c.(responsible_team)))
    (filter (fun c => status_eqb c.(status) NON_COMPLIANT &&
                      (risk_eqb c.(risk_level) HIGH || risk_eqb c.(risk_level) CRITICAL))
       (all_controls g)).

(** The dictionary of [get_compliance_summary]. *)
Record ComplianceReport := mkReport {
  report_date : string;
  report_total_controls : nat;
  iso27001 : StandardSummary;
  pci_dss : StandardSummary;
  high_risk_non_compliant : list (string * string * string * string)
}.

Definition get_compliance_summary : M ComplianceReport :=
  iso <- gets iso27001_controls ;;
  pci <- gets pci_dss_controls ;;
  let iso_summary := _get_standard_summary iso "ISO27001" in
  let pci_summary := _get_standard_summary pci "PCI_DSS" in
  t <- now ;;
  issues <- gets _get_high_risk_issues ;;
  ret (mkReport (rt.(isoformat) t) (List.length (iso ++ pci)) iso_summary
         pci_summary issues).

(** ** Drift simulator *)

(** [drift_factor * (days / 30) * (1 - automation_level)] *)
Definition drift_probability (c : ControlRequirement) (days_since_assessment : Z) : float :=
  (c.(compliance_drift_factor) * int_truediv days_since_assessment 30
   * (1 - c.(automation_level)))%float.

Definition drift_body (c : ControlRequirement) : M ControlRequirement :=
  match status_eqb c.(status) COMPLIANT, c.(last_assessment_date) with
  | true, Some last =>
      t <- now ;;
      let days_since_assessment := timedelta_days t last in
      let p := drift_probability c days_since_assessment in
      r <- random ;;
      if PrimFloat.ltb r (p * 0.3)%float then
        let c' := set_status IN_PROGRESS c in
        _create_alert
          ("Compliance drift detected for " +++ c'.(control_id))
          ("Control " +++ c'.(control_id) +++
             " has drifted from compliant status due to time decay")
          c'.(risk_level) ;;;
        ret c'
      else ret c
  | _, _ => ret c
  end.

Definition _check_compliance_drift : M unit := for_all_controls drift_body.

(** ** Incidents *)

Definition impact_body (incident : ComplianceIncident) (c : ControlRequirement)
    : M ControlRequirement :=
  if str_in c.(control_id) incident.(affected_controls) then
    let c1 := set_incident_count (c.(incident_count) + 1) c in
    if status_eqb c1.(status) COMPLIANT then
      let c2 := set_status NON_COMPLIANT c1 in
      _create_alert
        ("Incident impact: " +++ c2.(control_id))
        ("Control affected by incident: " +++ incident.(inc_title))
        incident.(severity) ;;;
      ret c2
    else ret c1
  else ret c.

Definition _apply_incident_impact (incident : ComplianceIncident) : M unit :=
  for_all_controls (impact_body incident).

(** An incident template: (code, title, affected control ids, severity). *)
Definition template := (string * string * list string * RiskLevel)%type.

Definition sec_001 : template := ("SEC-001", "Failed Password Audit", ["PCI.2.1"], HIGH).
Definition sec_002 : template := ("SEC-002", "Firewall Misconfiguration", ["PCI.1.1"], CRITICAL).
Definition sec_003 : template := ("SEC-003", "Asset Discovery Gap", ["A.8.1.1"], MEDIUM).
Definition sec_004 : template := ("SEC-004", "Policy Violation", ["A.5.1.1"], HIGH).
Definition sec_005 : template := ("SEC-005", "Unauthorized Access Detected", ["A.6.1.1"], CRITICAL).
Definition sec_006 : template := ("SEC-006", "Encryption Key Exposure", ["PCI.3.4"], CRITICAL).

(** Builds the incident of a template, appends it to the ledger and applies
    its impact; [prefix] is the start of the description. *)
Definition raise_incident (prefix : string) (tpl : template) : M ComplianceIncident :=
  let '(code, ttl, affected, sev) := tpl in
  t <- unix_time ;;
  occurred <- now ;;
  let incident :=
    mkIncident (code +++ "-" +++ str t) ttl (prefix +++ ttl) affected sev
      occurred None 24 in
  modify (fun g => set_incidents (g.(incidents) ++ [incident]) g) ;;;
  _apply_incident_impact incident ;;;
  ret incident.

Definition _simulate_incidents : M unit :=
  r <- random ;;
  if PrimFloat.ltb r 0.15%float then
    tpl <- choice sec_001 [sec_002; sec_003; sec_004] ;;
    raise_incident "Automated incident simulation: " tpl ;;;
    ret tt
  else ret tt.

Definition force_incident : M ComplianceIncident :=
  tpl <- choice sec_001 [sec_002; sec_003; sec_004; sec_005; sec_006] ;;
  raise_incident "Manually triggered incident: " tpl.

(** ** Review auditor *)

Definition overdue_body (c : ControlRequirement) : M ControlRequirement :=
  if String.eqb c.(next_review_date) "" then ret c
  else
    match rt.(strptime) c.(next_review_date) with
    | Some review_date =>
        t <- now ;;
        if review_date <? t then
          _create_alert
            ("Overdue review: " +++ c.(control_id))
            ("Control " +++ c.(control_id) +++ " is past its review date")
            MEDIUM ;;;
          ret c
        else ret c
    | None => ret c
    end.

Definition _check_overdue_reviews : M unit := for_all_controls overdue_body.

(** One pass of the monitoring loop, without its sleep. *)
Definition monitor_tick : M unit :=
  _check_compliance_drift ;;;
  _simulate_incidents ;;;
  _check_overdue_reviews.

(** ** Incident resolution *)

Definition restore_body (incident : ComplianceIncident) (c : ControlRequirement)
    : M ControlRequirement :=
  if str_in c.(control_id) incident.(affected_controls) then
    if status_eqb c.(status) NON_COMPLIANT then
      let c1 := set_status COMPLIANT c in
      t <- now ;;
      let c2 := set_last_assessment_date (Some t) c1 in
      _create_alert
        ("Control restored: " +++ c2.(control_id))
        ("Control " +++ c2.(control_id) +++
           " restored to compliance after incident resolution")
        LOW ;;;
      ret c2
    else ret c
  else ret c.

(** [incident.incident_id == incident_id and not incident.resolution_time];
    a datetime is always truthy. *)
Definition is_open_with_id (iid : string) (i : ComplianceIncident) : bool :=
  String.eqb i.(incident_id) iid &&
  match i.(resolution_time) with None => true | Some _ => false end.

Definition resolve_incident (iid : string) : M bool :=
  incs <- gets incidents ;;
  match find_split (is_open_with_id iid) incs with
  | Some (pre, incident, post) =>
      t <- now ;;
      let incident' := set_resolution_time (Some t) incident in
      modify (set_incidents (pre ++ incident' :: post)) ;;;
      for_all_controls (restore_body incident') ;;;
      ret true
  | None => ret false
  end.

(** ** Remediation engine *)

Definition solutions : list (string * string) :=
  [ ("automation", "Automated monitoring and enforcement implemented");
    ("training", "Staff training and awareness program completed");
    ("policy_update", "Updated policies and procedures implemented");
    ("technology", "New security technology deployed");
    ("process", "Improved security processes implemented") ].

(** [d.get(key, default)] *)
Fixpoint dict_get (d : list (string * string)) (key default : string) : string :=
  match d with
  | [] => default
  | (k, v) :: rest => if String.eqb k key then v else dict_get rest key default
  end.

(** The parameter adjustment of a solution type. *)
Definition improve (solution_type : string) (c : ControlRequirement) : ControlRequirement :=
  if String.eqb solution_type "automation" then
    let c1 := set_automation_level (min_1 (c.(automation_level) + 0.3)%float) c in
    set_compliance_drift_factor (c1.(compliance_drift_factor) * 0.7)%float c1
  else if String.eqb solution_type "training" then
    set_compliance_drift_factor (c.(compliance_drift_factor) * 0.8)%float c
  else if String.eqb solution_type "technology" then
    let c1 := set_automation_level (min_1 (c.(automation_level) + 0.4)%float) c in
    set_compliance_drift_factor (c1.(compliance_drift_factor) * 0.6)%float c1
  else c.

(** [control.control_id == control_id] and
    [control.status in [NON_COMPLIANT, IN_PROGRESS]] *)
Definition needs_solution (cid : string) (c : ControlRequirement) : bool :=
  String.eqb c.(control_id) cid &&
  (status_eqb c.(status) NON_COMPLIANT || status_eqb c.(status) IN_PROGRESS).

Definition solution_body (cid solution_type : string) (c : ControlRequirement)
    : M ControlRequirement :=
  let c1 := set_status COMPLIANT c in
  t <- now ;;
  let c2 := set_last_assessment_date (Some t) c1 in
  let c3 := improve solution_type c2 in
  let solution_desc := dict_get solutions solution_type "Generic solution implemented" in
  let c4 := set_notes ("Solution: " +++ solution_desc) c3 in
  ts <- now ;;
  modify (fun g => set_audit_log
    (g.(audit_log) ++
       [solution_implemented (rt.(isoformat) ts) cid solution_type solution_desc]) g) ;;;
  _create_alert
    ("Solution implemented: " +++ c4.(control_id))
    ("Control " +++ c4.(control_id) +++ " restored via " +++ solution_type +++
       ": " +++ solution_desc)
    LOW ;;;
  ret c4.

Definition implement_solution (cid solution_type : string) : M bool :=
  first_control (needs_solution cid) (solution_body cid solution_type).

(** ** The seed catalog and construction *)

Definition seed (cid ttl descr std : string) (st : ComplianceStatus) (risk : RiskLevel)
    (impl review team : string) (evidence : list string) (drift automation : float)
    (age_days count : Z) : M ControlRequirement :=
  t <- now ;;
  ret (mkControl cid ttl descr std st risk impl review team evidence ""
         (Some (minus_days t age_days)) drift count automation []).

Definition _load_iso27001_controls : M (list ControlRequirement) :=
  c1 <- seed "A.5.1.1" "Information Security Policy"
          "Information security policy shall be defined and approved by management"
          "ISO27001" COMPLIANT HIGH "2024-01-15" "2025-01-15" "Security Team"
          ["policy_doc_v2.1.pdf"] 0.1 0.3 30 0 ;;
  c2 <- seed "A.6.1.1" "Information Security Roles and Responsibilities"
          "Information security roles and responsibilities shall be defined and allocated"
          "ISO27001" IN_PROGRESS HIGH "2024-02-01" "2025-02-01" "HR & Security"
          ["roles_matrix_draft.xlsx"] 0.15 0.2 15 0 ;;
  c3 <- seed "A.8.1.1" "Asset Management Policy"
          "Assets associated with information and information processing facilities shall be identified"
          "ISO27001" COMPLIANT MEDIUM "2024-01-10" "2024-07-10" "IT Operations"
          ["asset_inventory.csv"; "asset_policy_v1.2.pdf"] 0.2 0.8 5 0 ;;
  ret [c1; c2; c3].

Definition _load_pci_dss_controls : M (list ControlRequirement) :=
  c1 <- seed "PCI.1.1" "Firewall Configuration Standards"
          "Establish and implement firewall and router configuration standards"
          "PCI_DSS" COMPLIANT CRITICAL "2024-01-05" "2024-04-05" "Network Security"
          ["firewall_config_v3.2.txt"; "penetration_test_report.pdf"] 0.3 0.7 20 0 ;;
  c2 <- seed "PCI.2.1" "Change Default Passwords"
          "Change vendor-supplied defaults for system passwords and security parameters"
          "PCI_DSS" NON_COMPLIANT HIGH "2024-02-15" "2024-05-15" "System Administration"
          [] 0.05 0.9 3 2 ;;
  c3 <- seed "PCI.3.4" "Cryptographic Key Management"
          "Protect cryptographic keys against disclosure and misuse"
          "PCI_DSS" IN_PROGRESS CRITICAL "2024-03-01" "2024-06-01" "Cryptography Team"
          ["key_mgmt_plan.pdf"] 0.25 0.4 10 0 ;;
  ret [c1; c2; c3].

(** [GovernanceManager.__init__], up to the start of the monitoring thread. *)
Definition __init__ : M unit :=
  iso <- _load_iso27001_controls ;;
  pci <- _load_pci_dss_controls ;;
  modify (fun _ => mkManager iso pci [] [] [] true).

End Engine.

(** The world before the manager is constructed. *)
Definition boot : World := mkWorld (mkManager [] [] [] [] [] true) (mkCalls 0 0 0 0).

(** A freshly constructed manager. *)
Definition startup (rt : Runtime) : World := exec (__init__ rt) boot.

Arguments ret {A} a w /.
Arguments bind {A B} m k w /.
Arguments gets {A} f w /.
Arguments modify f w /.
Arguments exec {A} m w /.
Arguments result {A} m w /.

(** ** The endpoints of the dashboard (dashboard.py) *)

(** [ComplianceStatus(value)], the lookup of a member by its value; [None]
    is the ValueError raised for any other value. *)
Definition ComplianceStatus_of_value (v : string) : option ComplianceStatus :=
  if String.eqb v "compliant" then Some COMPLIANT
  else if String.eqb v "non_compliant" then Some NON_COMPLIANT
  else if String.eqb v "in_progress" then Some IN_PROGRESS
  else if String.eqb v "not_assessed" then Some NOT_ASSESSED
  else None.

(** [l[-n:]] for a positive [n]: the last [n] items, or all of them. *)
Definition last_n {A} (n : nat) (l : list A) : list A :=
  skipn (List.length l - n) l.

(** [d[k] += 1] on a dictionary of counters; [None] is the KeyError of a
    missing key. *)
Fixpoint dict_incr (d : list (string * nat)) (k : string)
    : option (list (string * nat)) :=
  match d with
  | [] => None
  | (k', v) :: rest =>
      if String.eqb k' k then Some ((k', S v) :: rest)
      else match dict_incr rest k with
           | Some rest' => Some ((k', v) :: rest')
           | None => None
           end
  end.

(** [d[k]] on a dictionary of counters. *)
Fixpoint dict_lookup (d : list (string * nat)) (k : string) : option nat :=
  match d with
  | [] => None
  | (k', v) :: rest => if String.eqb k' k then Some v else dict_lookup rest k
  end.

Module Dashboard.

(** The counters [{'critical': 0, 'high': 0, 'medium': 0, 'low': 0}]. *)
Definition zero_by_risk : list (string * nat) :=
  [("critical", 0%nat); ("high", 0%nat); ("medium", 0%nat); ("low", 0%nat)].

(** The loop of [get_risk_assessment] over the controls, on the two
    dictionaries of counters. *)
Fixpoint count_by_risk (controls : list ControlRequirement)
    (risk_data non_compliant_by_risk : list (string * nat))
    : option (list (string * nat) * list (string * nat)) :=
  match controls with
  | [] => Some (risk_data, non_compliant_by_risk)
  | control :: rest =>
      let risk_level := RiskLevel_value control.(risk_level) in
      match dict_incr risk_data risk_level with
      | None => None
      | Some risk_data' =>
          if status_eqb control.(status) NON_COMPLIANT then
            match dict_incr non_compliant_by_risk risk_level with
            | None => None
            | Some non_compliant' => count_by_risk rest risk_data' non_compliant'
            end
          else count_by_risk rest risk_data' non_compliant_by_risk
      end
  end.

(** The pair (total_by_risk, non_compliant_by_risk). *)
Definition get_risk_assessment (g : GovernanceManager)
    : option (list (string * nat) * list (string * nat)) :=
  count_by_risk (all_controls g) zero_by_risk zero_by_risk.

(** The dictionaries of [get_non_compliant_controls], as tuples (control_id,
    title, status, risk_level, automation_level, incident_count). *)
Definition get_non_compliant_controls (g : GovernanceManager)
    : list (string * string * string * string * float * Z) :=
  map (fun c => (c.(control_id), c.(title), ComplianceStatus_value c.(status),
                 RiskLevel_value c.(risk_level), c.(automation_level),
                 c.(incident_count)))
    (filter (fun c => status_eqb c.(status) NON_COMPLIANT ||
                      status_eqb c.(status) IN_PROGRESS)
       (all_controls g)).

Section Endpoints.

Variable rt : Runtime.

(** [update_control] on the payload's ["control_id"], ["status"] and
    ["notes"] entries ([None] for a missing entry); the result [None] is the
    ValueError of the status lookup. *)
Definition update_control (control_id status notes : option string)
    : M (option bool) :=
  match match status with
        | Some v => ComplianceStatus_of_value v
        | None => None
        end with
  | None => ret None
  | Some st =>
      let nts := match notes with Some n => n | None => "" end in
      match control_id with
      | Some cid =>
          success <- update_control_status rt cid st nts ;;
          ret (Some success)
      | None => ret (Some false)
      end
  end.

(** The dictionaries of [get_recent_incidents], as tuples (incident_id,
    title, description, severity, occurrence_time, affected_controls,
    resolved). *)
Definition get_recent_incidents (g : GovernanceManager)
    : list (string * string * string * string * string * list string * bool) :=
  map (fun inc =>
         (inc.(incident_id), inc.(inc_title), inc.(inc_description),
          RiskLevel_value inc.(severity), rt.(isoformat) inc.(occurrence_time),
          inc.(affected_controls),
          match inc.(resolution_time) with Some _ => true | None => false end))
    (last_n 20 g.(incidents)).

(** [trigger_simulation]: the pair (active_alerts, total_incidents) of its
    answer. *)
Definition trigger_simulation : M (nat * nat) :=
  _check_compliance_drift rt ;;;
  _simulate_incidents rt ;;;
  _check_overdue_reviews rt ;;;
  active <- get_active_alerts ;;
  incs <- gets incidents ;;
  ret (List.length active, List.length incs).

(** [force_incident]: the incident of its answer and the number of active
    alerts. *)
Definition force_incident : M (ComplianceIncident * nat) :=
  incident <- force_incident rt ;;
  active <- get_active_alerts ;;
  ret (incident, List.length active).

End Endpoints.

End Dashboard.

(** ** The manager among threads *)

(** The manager is shared by the monitoring thread of
    [_start_monitoring_thread] and by the request handlers, and the source
    takes no lock anywhere.  A thread switch can fall between any two
    statements of a method, so a method among threads is its statements with,
    at each statement boundary, whatever the other threads do to the manager
    there: [others j] is what they do at boundary [j], boundary 0 lying
    before the first statement. *)

Section Threads.

Variable rt : Runtime.






End Threads.


(** A runtime for the concrete runs below: the clock advances by one
    microsecond per reading inside one wall-clock second, every random draw
    is 0.5 and [random.choice] always picks the second item. *)
Definition demo_runtime : Runtime :=
  mkRuntime (fun k => 1700000000000000 + Z.of_nat k) (fun _ => 1700000000)
    (fun _ => 0.5%float) (fun _ _ => 1%nat) str (fun _ => None).

(** The same clock with every random draw at 0.01, so that the incident
    simulator fires on every tick. *)
Definition stormy_runtime : Runtime :=
  mkRuntime (fun k => 1700000000000000 + Z.of_nat k) (fun _ => 1700000000)
    (fun _ => 0.01%float) (fun _ _ => 1%nat) str (fun _ => None).

(** A registry of one non-compliant control with automation level 0.5. *)
Definition lone_control : ControlRequirement :=
  mkControl "X.1" "Lone control" "" "ISO27001" NON_COMPLIANT HIGH
    "2024-01-01" "2025-01-01" "Team" [] "" (Some 1696544000000000)
    0.3 0 0.5 [].

Definition lone_world : World :=
  mkWorld (mkManager [lone_control] [] [] [] [] true) (mkCalls 0 0 0 0).

(** * Vocabulary of the statements *)

(** [w'] differs from [w] in the manager only by alerts appended to the sink. *)
Definition extends_alerts (w w' : World) : Prop :=
  iso27001_controls w'.(self) = iso27001_controls w.(self) /\
  pci_dss_controls w'.(self) = pci_dss_controls w.(self) /\
  audit_log w'.(self) = audit_log w.(self) /\
  incidents w'.(self) = incidents w.(self) /\
  monitoring_active w'.(self) = monitoring_active w.(self) /\
  exists new, alerts w'.(self) = alerts w.(self) ++ new.

(** What the sink holds of an alert, apart from its id and timestamp. *)
Definition alert_view (a : Alert) : string * string * string * bool :=
  (a.(alert_title), a.(alert_message), a.(alert_severity), a.(acknowledged)).

(** The control an impact leaves behind. *)
Definition impact_control (incident : ComplianceIncident) (c : ControlRequirement)
    : ControlRequirement :=
  if str_in c.(control_id) incident.(affected_controls) then
    let c1 := set_incident_count (c.(incident_count) + 1) c in
    if status_eqb c.(status) COMPLIANT then set_status NON_COMPLIANT c1 else c1
  else c.

(** The controls an impact moves out of compliance. *)
Definition impact_hit (incident : ComplianceIncident) (c : ControlRequirement) : bool :=
  str_in c.(control_id) incident.(affected_controls) && status_eqb c.(status) COMPLIANT.

(** The world in which the loop over [cs] reaches position [i]. *)
Definition reached (body : ControlRequirement -> M ControlRequirement)
    (cs : list ControlRequirement) (i : nat) (w : World) : World :=
  snd (for_each body (firstn i cs) w).

(** The world in which the whole-registry loop ends, before the registry is
    written back. *)
Definition loop_end (body : ControlRequirement -> M ControlRequirement)
    (w : World) : World :=
  snd (for_each body (all_controls w.(self)) w).

(** The world after one clock reading and one random draw. *)
Definition after_reading (w : World) : World :=
  mkWorld w.(self)
    (mkCalls (S w.(calls).(n_now)) w.(calls).(n_time)
       (S w.(calls).(n_random)) w.(calls).(n_choice)).

(** The world after one clock reading. *)
Definition after_clock (w : World) : World :=
  mkWorld w.(self)
    (mkCalls (S w.(calls).(n_now)) w.(calls).(n_time)
       w.(calls).(n_random) w.(calls).(n_choice)).

(** The positions at which two registries of equal length differ in status. *)
Definition status_changes (before after : list ControlRequirement)
    : list (ControlRequirement * ControlRequirement) :=
  filter (fun p => negb (status_eqb (status (fst p)) (status (snd p))))
    (combine before after).

(** The body of an early-return loop leaves the two control lists of the
    manager alone. *)
Definition keeps_registry (body : ControlRequirement -> M ControlRequirement) : Prop :=
  forall c w,
    iso27001_controls (self (snd (body c w))) = iso27001_controls w.(self) /\
    pci_dss_controls (self (snd (body c w))) = pci_dss_controls w.(self).

(** The control a solution leaves behind. *)
Definition solved (solution_type : string) (t : datetime) (c : ControlRequirement)
    : ControlRequirement :=
  set_notes
    ("Solution: " +++ dict_get solutions solution_type "Generic solution implemented")
    (improve solution_type
       (set_last_assessment_date (Some t) (set_status COMPLIANT c))).

(** The controls a resolution restores. *)
Definition restore_hit (incident : ComplianceIncident) (c : ControlRequirement) : bool :=
  str_in c.(control_id) incident.(affected_controls) &&
  status_eqb c.(status) NON_COMPLIANT.

(** [c'] is the control [c] at a later time, with no incident forgotten. *)
Definition count_kept (c c' : ControlRequirement) : Prop :=
  c'.(control_id) = c.(control_id) /\ c.(incident_count) <= c'.(incident_count).

(** Position by position, the registry of [w'] holds the controls of [w]
    with incident counts at least as large. *)
Definition no_count_drop (w w' : World) : Prop :=
  Forall2 count_kept (all_controls w.(self)) (all_controls w'.(self)).

(** The alert at position [i] of the sink has an id that ends in [i]. *)
Definition indexed_ids (als : list Alert) : Prop :=
  forall i a, nth_error als i = Some a ->
    exists t, a.(alert_id) = "ALT-" +++ str t +++ "-" +++ str (Z.of_nat i).

(** [w'] has position-indexed alert ids if [w] has. *)
Definition keeps_alert_ids (w w' : World) : Prop :=
  indexed_ids (alerts w.(self)) -> indexed_ids (alerts w'.(self)).

(** No character of the string is a dash. *)
Fixpoint no_dash (s : string) : bool :=
  match s with
  | EmptyString => true
  | String c rest => negb (Ascii.eqb c "-") && no_dash rest
  end.

(** The operations of the engine, as the periodic task and the callers
    issue them. *)
Inductive operation :=
| op_check_drift
| op_simulate_incidents
| op_apply_impact (incident : ComplianceIncident)
| op_check_overdue
| op_update_status (cid : string) (st : ComplianceStatus) (nts : string)
| op_resolve (iid : string)
| op_implement (cid solution_type : string)
| op_acknowledge (aid : string)
| op_force_incident
| op_monitor_tick.

Section Vocabulary.

Variable rt : Runtime.

(** What [_create_alert] appends. *)
Definition new_alert (w : World) (ttl message : string) (sev : RiskLevel) : Alert :=
  mkAlert ("ALT-" +++ str (rt.(time_time) w.(calls).(n_time)) +++ "-" +++
             str (Z.of_nat (List.length (alerts w.(self)))))
    ttl message (RiskLevel_value sev)
    (rt.(isoformat) (rt.(datetime_now) w.(calls).(n_now))) false.

(** The world after the audit entry of a solution has been written: two
    clock readings, one entry. *)
Definition after_solution_audit (cid solution_type : string) (w : World) : World :=
  mkWorld
    (set_audit_log
       (audit_log w.(self) ++
          [solution_implemented
             (rt.(isoformat) (rt.(datetime_now) (S w.(calls).(n_now))))
             cid solution_type
             (dict_get solutions solution_type "Generic solution implemented")])
       w.(self))
    (mkCalls (S (S w.(calls).(n_now))) w.(calls).(n_time)
       w.(calls).(n_random) w.(calls).(n_choice)).

(** The world in which the restoring loop of a resolution starts: the
    incident found is stamped with the clock reading. *)
Definition stamped (pre : list ComplianceIncident) (incident : ComplianceIncident)
    (post : list ComplianceIncident) (w : World) : World :=
  mkWorld
    (set_incidents
       (pre ++ set_resolution_time (Some (rt.(datetime_now) w.(calls).(n_now)))
                 incident :: post)
       w.(self))
    (calls (after_clock w)).

(** The world an operation leaves. *)
Definition perform (o : operation) (w : World) : World :=
  match o with
  | op_check_drift => exec (_check_compliance_drift rt) w
  | op_simulate_incidents => exec (_simulate_incidents rt) w
  | op_apply_impact incident => exec (_apply_incident_impact rt incident) w
  | op_check_overdue => exec (_check_overdue_reviews rt) w
  | op_update_status cid st nts => exec (update_control_status rt cid st nts) w
  | op_resolve iid => exec (resolve_incident rt iid) w
  | op_implement cid solution_type => exec (implement_solution rt cid solution_type) w
  | op_acknowledge aid => exec (acknowledge_alert aid) w
  | op_force_incident => exec (force_incident rt) w
  | op_monitor_tick => exec (monitor_tick rt) w
  end.

(** A history of operations, oldest first. *)
Fixpoint perform_all (os : list operation) (w : World) : World :=
  match os with
  | [] => w
  | o :: rest => perform_all rest (perform o w)
  end.

End Vocabulary.

(** ** What the logs and the registry keep *)

(** [a'] is the alert [a] later on: same content, and still acknowledged if
    it was. *)
Definition alert_kept (a a' : Alert) : Prop :=
  a'.(alert_id) = a.(alert_id) /\
  a'.(alert_title) = a.(alert_title) /\
  a'.(alert_message) = a.(alert_message) /\
  a'.(alert_severity) = a.(alert_severity) /\
  a'.(alert_timestamp) = a.(alert_timestamp) /\
  (a.(acknowledged) = true -> a'.(acknowledged) = true).

(** [i'] is the incident [i] later on: same content, and the same
    resolution timestamp if it had one. *)
Definition incident_kept (i i' : ComplianceIncident) : Prop :=
  i'.(incident_id) = i.(incident_id) /\
  i'.(inc_title) = i.(inc_title) /\
  i'.(inc_description) = i.(inc_description) /\
  i'.(affected_controls) = i.(affected_controls) /\
  i'.(severity) = i.(severity) /\
  i'.(occurrence_time) = i.(occurrence_time) /\
  i'.(impact_duration_hours) = i.(impact_duration_hours) /\
  (forall t, i.(resolution_time) = Some t -> i'.(resolution_time) = Some t).

(** [c'] is the control [c] later on: the attributes no operation assigns
    are the same. *)
Definition control_static (c c' : ControlRequirement) : Prop :=
  c'.(control_id) = c.(control_id) /\
  c'.(title) = c.(title) /\
  c'.(description) = c.(description) /\
  c'.(standard) = c.(standard) /\
  c'.(risk_level) = c.(risk_level) /\
  c'.(implementation_date) = c.(implementation_date) /\
  c'.(next_review_date) = c.(next_review_date) /\
  c'.(responsible_team) = c.(responsible_team) /\
  c'.(evidence_documents) = c.(evidence_documents) /\
  c'.(dependency_controls) = c.(dependency_controls).

(** The sink of [w'] starts with the alerts of [w], in order. *)
Definition sink_kept (w w' : World) : Prop :=
  exists kept new,
    alerts w'.(self) = kept ++ new /\ Forall2 alert_kept (alerts w.(self)) kept.

(** The ledger of [w'] starts with the incidents of [w], in order. *)
Definition ledger_kept (w w' : World) : Prop :=
  exists kept new,
    incidents w'.(self) = kept ++ new /\
    Forall2 incident_kept (incidents w.(self)) kept.

(** The audit log of [w'] starts with the audit log of [w]. *)
Definition audit_kept (w w' : World) : Prop :=
  exists new, audit_log w'.(self) = audit_log w.(self) ++ new.

(** Each standard's list of [w'] holds the controls of [w], in order. *)
Definition registry_kept (w w' : World) : Prop :=
  Forall2 control_static (iso27001_controls w.(self)) (iso27001_controls w'.(self)) /\
  Forall2 control_static (pci_dss_controls w.(self)) (pci_dss_controls w'.(self)).

(** Nothing the manager holds is lost between [w] and [w']. *)
Definition nothing_lost (w w' : World) : Prop :=
  sink_kept w w' /\ ledger_kept w w' /\ audit_kept w w' /\ registry_kept w w'.

(** [w'] differs from [w] in the manager only by unacknowledged alerts
    appended to the sink. *)
Definition emits_alerts (w w' : World) : Prop :=
  exists new,
    w'.(self) = set_alerts (alerts w.(self) ++ new) w.(self) /\
    Forall (fun a => a.(acknowledged) = false) new.

(** The attributes of a control that no operation assigns. *)
Definition static_attributes (c : ControlRequirement) :=
  (c.(control_id), c.(title), c.(description), c.(standard), c.(risk_level),
   c.(implementation_date), c.(next_review_date), c.(responsible_team),
   c.(evidence_documents), c.(dependency_controls)).

(** The operations that write to the audit log. *)
Definition writes_audit (o : operation) : bool :=
  match o with
  | op_update_status _ _ _ | op_implement _ _ => true
  | _ => false
  end.

(** The incident built from a template with identifier suffix [t], creation
    time [occurred] and description prefix [prefix]. *)
Definition incident_of (prefix : string) (tpl : template) (t : Z)
    (occurred : datetime) : ComplianceIncident :=
  let '(code, ttl, affected, sev) := tpl in
  mkIncident (code +++ "-" +++ str t) ttl (prefix +++ ttl) affected sev
    occurred None 24.

(** The templates of the simulator and of [force_incident]. *)
Definition simulated_templates : list template := [sec_001; sec_002; sec_003; sec_004].

Definition forced_templates : list template :=
  [sec_001; sec_002; sec_003; sec_004; sec_005; sec_006].

(** The review date the auditor reads from a control: none for an empty or
    unparseable date. *)
Definition review_date (rt : Runtime) (c : ControlRequirement) : option datetime :=
  if String.eqb c.(next_review_date) "" then None
  else rt.(strptime) c.(next_review_date).

(** [w'] differs from [w] in the manager only by alerts appended to the
    sink, all of them satisfying [P]. *)
Definition emits_only (P : Alert -> Prop) (w w' : World) : Prop :=
  exists new,
    w'.(self) = set_alerts (alerts w.(self) ++ new) w.(self) /\ Forall P new.

(** A float that is a zero or not a number. *)
Definition zero_or_nan (x : float) : Prop :=
  match Prim2SF x with
  | S754_zero _ | S754_nan => True
  | _ => False
  end.

(** The operations other than a solution implementation. *)
Definition tunes (o : operation) : bool :=
  match o with
  | op_implement _ _ => true
  | _ => false
  end.

(** The two parameters of a control that a solution adjusts. *)
Definition tuning (c : ControlRequirement) : float * float :=
  (c.(automation_level), c.(compliance_drift_factor)).

(** The number of controls of both standards a report counts in a status. *)
Definition report_count (st : ComplianceStatus) (r : ComplianceReport) : nat :=
  match st with
  | COMPLIANT => r.(iso27001).(compliant) + r.(pci_dss).(compliant)
  | NON_COMPLIANT => r.(iso27001).(non_compliant) + r.(pci_dss).(non_compliant)
  | IN_PROGRESS => r.(iso27001).(in_progress) + r.(pci_dss).(in_progress)
  | NOT_ASSESSED => r.(iso27001).(not_assessed) + r.(pci_dss).(not_assessed)
  end.

(** The entry of the high-risk list for a control. *)
Definition issue_of (c : ControlRequirement) : string * string * string * string :=
  (c.(control_id), c.(title), RiskLevel_value c.(risk_level), c.(responsible_team)).

(** The controls of a risk level, and the non-compliant ones among them. *)
Definition risk_count (r : RiskLevel) (controls : list ControlRequirement) : nat :=
  List.length (filter (fun c => risk_eqb c.(risk_level) r) controls).

Definition risk_count_non_compliant (r : RiskLevel)
    (controls : list ControlRequirement) : nat :=
  List.length
    (filter (fun c => risk_eqb c.(risk_level) r &&
                      status_eqb c.(status) NON_COMPLIANT) controls).

(** The entry of the incident list for an incident. *)
Definition incident_entry (rt : Runtime) (inc : ComplianceIncident)
    : string * string * string * string * string * list string * bool :=
  (inc.(incident_id), inc.(inc_title), inc.(inc_description),
   RiskLevel_value inc.(severity), rt.(isoformat) inc.(occurrence_time),
   inc.(affected_controls),
   match inc.(resolution_time) with Some _ => true | None => false end).

(** ** Reports among threads *)




(** ** Concrete inputs *)

(** An incident on the firewall control of the seed catalog. *)
Definition firewall_incident : ComplianceIncident :=
  mkIncident "SEC-002-1700000000" "Firewall Misconfiguration"
    "Manually triggered incident: Firewall Misconfiguration" ["PCI.1.1"]
    CRITICAL 1700000000000006 None 24.

(** The firewall control as the seed catalog creates it under the demo
    clock. *)
Definition firewall_control : ControlRequirement :=
  mkControl "PCI.1.1" "Firewall Configuration Standards"
    "Establish and implement firewall and router configuration standards"
    "PCI_DSS" COMPLIANT CRITICAL "2024-01-05" "2024-04-05" "Network Security"
    ["firewall_config_v3.2.txt"; "penetration_test_report.pdf"] ""
    (Some 1698272000000003) 0.3 0 0.7 [].

(** The policy control of the seed catalog under the demo clock. *)
Definition policy_control : ControlRequirement :=
  mkControl "A.5.1.1" "Information Security Policy"
    "Information security policy shall be defined and approved by management"
    "ISO27001" COMPLIANT HIGH "2024-01-15" "2025-01-15" "Security Team"
    ["policy_doc_v2.1.pdf"] "" (Some 1697408000000000) 0.1 0 0.3 [].

(** The world after an incident was forced and resolved and its twin forced
    within the same second. *)
Definition twin_world : World :=
  exec (force_incident demo_runtime)
    (exec (resolve_incident demo_runtime "SEC-002-1700000000")
       (exec (force_incident demo_runtime) (startup demo_runtime))).

(** The world after one forced incident whose alert was acknowledged. *)
Definition acknowledged_world : World :=
  exec (acknowledge_alert "ALT-1700000000-0")
    (exec (force_incident demo_runtime) (startup demo_runtime)).

(** The clock of the demo runtime three years on, with a calendar that
    knows the review date of the policy control. *)
Definition late_runtime : Runtime :=
  mkRuntime (fun k => 1800000000000000 + Z.of_nat k) (fun _ => 1800000000)
    (fun _ => 0.5%float) (fun _ _ => 1%nat) str
    (fun d => if String.eqb d "2025-01-15" then Some 1736899200000000 else None).

(** The lone control just after a training solution. *)
Definition solved_world : World :=
  exec (implement_solution demo_runtime "X.1" "training") lone_world.

(** The world after one forced incident. *)
Definition forced_world : World :=
  exec (force_incident demo_runtime) (startup demo_runtime).




(** * Properties *)

Lemma status_eqb_eq (a b : ComplianceStatus) : status_eqb a b = true <-> a = b.
Proof. destruct a, b; simpl; split; congruence. Qed.

Lemma status_eqb_refl (a : ComplianceStatus) : status_eqb a a = true.
Proof. now destruct a. Qed.

(** ** Loops over controls *)

Section Loops.

Variable body : ControlRequirement -> M ControlRequirement.

Lemma for_each_app (cs1 cs2 : list ControlRequirement) (w : World) :
  for_each body (cs1 ++ cs2) w =
  (fst (for_each body cs1 w) ++
     fst (for_each body cs2 (snd (for_each body cs1 w))),
   snd (for_each body cs2 (snd (for_each body cs1 w)))).
Proof.
  revert w; induction cs1 as [|c cs1 IH]; intro w; simpl.
  - destruct (for_each body cs2 w); reflexivity.
  - destruct (body c w) as [c' w1]. rewrite IH.
    destruct (for_each body cs1 w1) as [a w2]; simpl.
    reflexivity.
Qed.

Lemma for_each_length (cs : list ControlRequirement) (w : World) :
  List.length (fst (for_each body cs w)) = List.length cs.
Proof.
  revert w; induction cs as [|c cs IH]; intro w; simpl; [reflexivity|].
  destruct (body c w) as [c' w1]. specialize (IH w1).
  destruct (for_each body cs w1); simpl in *. now rewrite IH.
Qed.

(** The control at position [i] after the loop is what the body made of the
    control at position [i], run in the world left by the earlier
    iterations. *)
Lemma for_each_nth (cs : list ControlRequirement) (w : World) (i : nat)
    (c : ControlRequirement) :
  nth_error cs i = Some c ->
  nth_error (fst (for_each body cs w)) i =
  Some (fst (body c (snd (for_each body (firstn i cs) w)))).
Proof.
  revert w i; induction cs as [|x cs IH]; intros w i H.
  - destruct i; discriminate.
  - destruct i as [|i]; simpl in *.
    + injection H as ->. destruct (body c w) as [c' w1].
      destruct (for_each body cs w1); reflexivity.
    + destruct (body x w) as [x' w1]. specialize (IH w1 i H).
      destruct (for_each body cs w1) as [r w2]; simpl in *.
      destruct (for_each body (firstn i cs) w1); simpl in *. exact IH.
Qed.

Lemma for_each_map (f : ControlRequirement -> ControlRequirement) :
  (forall c w, fst (body c w) = f c) ->
  forall cs w, fst (for_each body cs w) = map f cs.
Proof.
  intros Hf cs; induction cs as [|c cs IH]; intro w; simpl; [reflexivity|].
  specialize (Hf c w). destruct (body c w) as [c' w1]. specialize (IH w1).
  destruct (for_each body cs w1); simpl in *. congruence.
Qed.

(** A property of worlds kept by every iteration is kept by the loop. *)
Lemma for_each_preserves (R : World -> World -> Prop) :
  (forall w, R w w) ->
  (forall a b c, R a b -> R b c -> R a c) ->
  (forall c w, R w (snd (body c w))) ->
  forall cs w, R w (snd (for_each body cs w)).
Proof.
  intros Hrefl Htrans Hbody cs; induction cs as [|c cs IH]; intro w; simpl.
  - apply Hrefl.
  - specialize (Hbody c w). destruct (body c w) as [c' w1]. specialize (IH w1).
    destruct (for_each body cs w1); simpl in *. eauto.
Qed.

Lemma for_all_controls_registry (w : World) :
  all_controls (self (exec (for_all_controls body) w)) =
  fst (for_each body (all_controls w.(self)) w).
Proof.
  unfold all_controls, for_all_controls. rewrite for_each_app. simpl.
  destruct (for_each body (iso27001_controls (self w)) w) as [a w1]; simpl.
  destruct (for_each body (pci_dss_controls (self w)) w1) as [b w2]; simpl.
  reflexivity.
Qed.

Lemma for_all_controls_rest (w : World) :
  let w' := exec (for_all_controls body) w in
  audit_log w'.(self) = audit_log (loop_end body w).(self) /\
  incidents w'.(self) = incidents (loop_end body w).(self) /\
  alerts w'.(self) = alerts (loop_end body w).(self) /\
  monitoring_active w'.(self) = monitoring_active (loop_end body w).(self) /\
  calls w' = calls (loop_end body w).
Proof.
  unfold loop_end, all_controls, for_all_controls. rewrite for_each_app. simpl.
  destruct (for_each body (iso27001_controls (self w)) w) as [a w1]; simpl.
  destruct (for_each body (pci_dss_controls (self w)) w1) as [b w2]; simpl.
  repeat split.
Qed.

End Loops.

(** ** Alert emission *)

Lemma extends_alerts_refl (w : World) : extends_alerts w w.
Proof.
  unfold extends_alerts; repeat split. exists []. now rewrite app_nil_r.
Qed.

Lemma extends_alerts_trans (a b c : World) :
  extends_alerts a b -> extends_alerts b c -> extends_alerts a c.
Proof.
  unfold extends_alerts.
  intros (H1 & H2 & H3 & H4 & H5 & n1 & H6) (K1 & K2 & K3 & K4 & K5 & n2 & K6).
  repeat split; try congruence.
  exists (n1 ++ n2). rewrite K6, H6. now rewrite app_assoc.
Qed.

Section Facts.

Variable rt : Runtime.

Lemma create_alert_run (ttl message : string) (sev : RiskLevel) (w : World) :
  _create_alert rt ttl message sev w =
  (tt, mkWorld (set_alerts (alerts w.(self) ++ [new_alert rt w ttl message sev]) w.(self))
         (mkCalls (S w.(calls).(n_now)) (S w.(calls).(n_time))
            w.(calls).(n_random) w.(calls).(n_choice))).
Proof. reflexivity. Qed.

Lemma create_alert_extends (ttl message : string) (sev : RiskLevel) (w : World) :
  extends_alerts w (snd (_create_alert rt ttl message sev w)).
Proof.
  rewrite create_alert_run. unfold extends_alerts; simpl. repeat split.
  eexists; reflexivity.
Qed.

Opaque _create_alert.

(** ** Incident impact *)

Lemma impact_body_run (incident : ComplianceIncident) (c : ControlRequirement)
    (w : World) :
  impact_body rt incident c w =
  (impact_control incident c,
   if impact_hit incident c
   then snd (_create_alert rt ("Incident impact: " +++ c.(control_id))
               ("Control affected by incident: " +++ incident.(inc_title))
               incident.(severity) w)
   else w).
Proof.
  unfold impact_body, impact_control, impact_hit.
  destruct (str_in _ _); [|reflexivity]. simpl.
  destruct (status_eqb _ _); [|reflexivity]. simpl.
  destruct (_create_alert _ _ _ _ w) as [[] w']. reflexivity.
Qed.

Lemma impact_loop_alerts (incident : ComplianceIncident)
    (cs : list ControlRequirement) (w : World) :
  exists new,
    alerts (self (snd (for_each (impact_body rt incident) cs w))) =
      alerts w.(self) ++ new /\
    map alert_view new =
      map (fun c => ("Incident impact: " +++ c.(control_id),
                     "Control affected by incident: " +++ incident.(inc_title),
                     RiskLevel_value incident.(severity), false))
        (filter (impact_hit incident) cs).
Proof.
  revert w; induction cs as [|c cs IH]; intro w; simpl.
  - exists []. now rewrite app_nil_r.
  - rewrite impact_body_run.
    destruct (impact_hit incident c) eqn:Hit.
    + rewrite create_alert_run; simpl.
      match goal with |- context [for_each _ cs ?w1] =>
        destruct (IH w1) as (new & Ha & Hv);
        destruct (for_each (impact_body rt incident) cs w1) as [r w2] end.
      simpl in *. eexists (_ :: new). split.
      * rewrite Ha. now rewrite <- app_assoc.
      * simpl. now rewrite Hv.
    + destruct (IH w) as (new & Ha & Hv).
      destruct (for_each (impact_body rt incident) cs w) as [r w2].
      simpl in *. exists new. now split.
Qed.

Lemma impact_registry (incident : ComplianceIncident) (w : World) :
  all_controls (self (exec (_apply_incident_impact rt incident) w)) =
  map (impact_control incident) (all_controls w.(self)).
Proof.
  unfold _apply_incident_impact. rewrite for_all_controls_registry.
  apply for_each_map. intros c w'. now rewrite impact_body_run.
Qed.

(** C5: one application of an incident's impact adds exactly 1 to the
    incident count of every affected control, moves the affected controls
    that are compliant (and only those) to non_compliant, leaves every other
    control as it is and appends, in order, one unacknowledged alert with the
    incident's severity for each control it moved; a second application of
    the same incident brings the count of an affected, initially compliant
    control to exactly 2 more and leaves it non_compliant. *)
Theorem apply_incident_impact_twice (incident : ComplianceIncident) (w : World) :
  let w1 := exec (_apply_incident_impact rt incident) w in
  let w2 := exec (_apply_incident_impact rt incident) w1 in
  (forall i c, nth_error (all_controls w.(self)) i = Some c ->
     exists c1, nth_error (all_controls w1.(self)) i = Some c1 /\
       if str_in c.(control_id) incident.(affected_controls)
       then c1 = set_status (if status_eqb c.(status) COMPLIANT
                             then NON_COMPLIANT else c.(status))
                   (set_incident_count (c.(incident_count) + 1) c)
       else c1 = c) /\
  (exists new,
     alerts w1.(self) = alerts w.(self) ++ new /\
     map alert_view new =
       map (fun c => ("Incident impact: " +++ c.(control_id),
                      "Control affected by incident: " +++ incident.(inc_title),
                      RiskLevel_value incident.(severity), false))
         (filter (fun c => str_in c.(control_id) incident.(affected_controls) &&
                           status_eqb c.(status) COMPLIANT)
            (all_controls w.(self)))) /\
  (forall i c, nth_error (all_controls w.(self)) i = Some c ->
     str_in c.(control_id) incident.(affected_controls) = true ->
     c.(status) = COMPLIANT ->
     exists c2, nth_error (all_controls w2.(self)) i = Some c2 /\
       c2.(incident_count) = c.(incident_count) + 2 /\
       c2.(status) = NON_COMPLIANT).
Proof.
  intros w1 w2. split; [|split].
  - intros i c Hc. subst w1. rewrite impact_registry.
    rewrite nth_error_map, Hc; simpl. eexists; split; [reflexivity|].
    unfold impact_control. destruct (str_in _ _); [|reflexivity].
    destruct c as [? ? ? ? st ? ? ? ? ? ? ? ? ? ? ?]; simpl.
    destruct st; reflexivity.
  - subst w1. unfold _apply_incident_impact.
    destruct (for_all_controls_rest (impact_body rt incident) w)
      as (_ & _ & Ha & _). rewrite Ha. unfold loop_end.
    apply impact_loop_alerts.
  - intros i c Hc Haff Hst. subst w2 w1. rewrite !impact_registry.
    rewrite !nth_error_map, Hc; simpl. eexists; split; [reflexivity|].
    unfold impact_control. rewrite Haff, Hst. simpl. rewrite Haff. simpl.
    split; [lia|reflexivity].
Qed.

(** ** Drift check *)

Lemma reached_next (body : ControlRequirement -> M ControlRequirement)
    (cs : list ControlRequirement) (i : nat) (c : ControlRequirement) (w : World) :
  nth_error cs i = Some c ->
  reached body cs (S i) w = snd (body c (reached body cs i w)).
Proof.
  unfold reached. revert w i; induction cs as [|x cs IH]; intros w i H.
  - destruct i; discriminate.
  - destruct i as [|i]; simpl in *.
    + injection H as ->. destruct (body c w); reflexivity.
    + destruct (body x w) as [x' w1]. specialize (IH w1 i H).
      destruct (for_each body (firstn i cs) w1) as [a wa] eqn:Ea.
      destruct cs as [|y cs]; [destruct i; discriminate|].
      simpl in *. destruct (body y w1) as [y' w2].
      destruct (for_each body (firstn i cs) w2); simpl in *. exact IH.
Qed.

Lemma drift_body_run (c : ControlRequirement) (w : World) :
  drift_body rt c w =
  match status_eqb c.(status) COMPLIANT, c.(last_assessment_date) with
  | true, Some last =>
      let days := timedelta_days (rt.(datetime_now) w.(calls).(n_now)) last in
      if PrimFloat.ltb (rt.(random_random) w.(calls).(n_random))
           (drift_probability c days * 0.3)%float
      then (set_status IN_PROGRESS c,
            snd (_create_alert rt
                   ("Compliance drift detected for " +++ c.(control_id))
                   ("Control " +++ c.(control_id) +++
                      " has drifted from compliant status due to time decay")
                   c.(risk_level) (after_reading w)))
      else (c, after_reading w)
  | _, _ => (c, w)
  end.
Proof.
  unfold drift_body.
  destruct (status_eqb _ _); [|reflexivity].
  destruct (last_assessment_date c) as [last|]; [|reflexivity].
  cbv [bind now random ret after_reading]; cbv beta iota zeta.
  destruct (PrimFloat.ltb _ _); [|reflexivity].
  rewrite !create_alert_run. reflexivity.
Qed.

Lemma drift_loop_alerts (cs : list ControlRequirement) (w : World) :
  exists new,
    alerts (self (snd (for_each (drift_body rt) cs w))) = alerts w.(self) ++ new /\
    List.length new =
      List.length (status_changes cs (fst (for_each (drift_body rt) cs w))).
Proof.
  revert w; induction cs as [|c cs IH]; intro w; simpl.
  - exists []. now rewrite app_nil_r.
  - rewrite drift_body_run. unfold status_changes.
    destruct (status_eqb (status c) COMPLIANT) eqn:Hs;
      [destruct (last_assessment_date c) as [last|];
       [cbv zeta; destruct (PrimFloat.ltb _ _)|]|].
    + apply status_eqb_eq in Hs. rewrite create_alert_run.
      match goal with |- context [for_each _ cs ?w1] =>
        destruct (IH w1) as (new & Ha & Hl);
        destruct (for_each (drift_body rt) cs w1) as [r w2] end.
      simpl in *. rewrite Hs. simpl. eexists (_ :: new). split.
      * rewrite Ha. now rewrite <- app_assoc.
      * simpl. f_equal. exact Hl.
    + destruct (IH (after_reading w)) as (new & Ha & Hl).
      destruct (for_each (drift_body rt) cs (after_reading w)) as [r w2].
      simpl in *. rewrite status_eqb_refl. simpl. exists new. now split.
    + destruct (IH w) as (new & Ha & Hl).
      destruct (for_each (drift_body rt) cs w) as [r w2].
      simpl in *. rewrite status_eqb_refl. simpl. exists new. now split.
    + destruct (IH w) as (new & Ha & Hl).
      destruct (for_each (drift_body rt) cs w) as [r w2].
      simpl in *. rewrite status_eqb_refl. simpl. exists new. now split.
Qed.

Lemma reached_then_rest (body : ControlRequirement -> M ControlRequirement)
    (cs : list ControlRequirement) (i : nat) (w : World) :
  snd (for_each body cs w) =
  snd (for_each body (skipn i cs) (reached body cs i w)).
Proof.
  unfold reached. rewrite <- (firstn_skipn i cs) at 1.
  now rewrite for_each_app.
Qed.

Lemma extends_alerts_same_self (w w' : World) :
  w'.(self) = w.(self) -> extends_alerts w w'.
Proof.
  intro H. unfold extends_alerts. rewrite H. repeat split.
  exists []. now rewrite app_nil_r.
Qed.

Lemma drift_body_extends (c : ControlRequirement) (w : World) :
  extends_alerts w (snd (drift_body rt c w)).
Proof.
  rewrite drift_body_run.
  destruct (status_eqb _ _); [|apply extends_alerts_refl].
  destruct (last_assessment_date c); [|apply extends_alerts_refl].
  cbv zeta. destruct (PrimFloat.ltb _ _).
  - apply (extends_alerts_trans w (after_reading w)).
    + now apply extends_alerts_same_self.
    + apply create_alert_extends.
  - now apply extends_alerts_same_self.
Qed.

(** C7: a drift-check tick handles a control that is compliant and has a
    last-assessment timestamp by reading the clock, taking the whole days
    since that timestamp, computing
    drift_factor * (days / 30) * (1 - automation_level) and drawing one
    random value; exactly when the draw is below that probability times 0.3
    the control becomes in_progress and one unacknowledged alert with the
    control's risk level as severity and the control id in its title is
    appended; otherwise the control is unchanged and nothing is appended.  A
    control that is not compliant or has no last-assessment timestamp is not
    touched: its iteration leaves the whole world as it was.  Over the whole
    tick the sink grows by one alert per control whose status changed. *)
Theorem compliance_drift_check (w : World) :
  let cs := all_controls w.(self) in
  let w' := exec (_check_compliance_drift rt) w in
  (forall i c, nth_error cs i = Some c ->
     let wi := reached (drift_body rt) cs i w in
     let wi' := reached (drift_body rt) cs (S i) w in
     (exists later, alerts w'.(self) = alerts wi'.(self) ++ later) /\
     match c.(status), c.(last_assessment_date) with
     | COMPLIANT, Some last =>
         let days_since :=
           (rt.(datetime_now) wi.(calls).(n_now) - last) / 86400000000 in
         let drift_prob :=
           (c.(compliance_drift_factor) * int_truediv days_since 30
            * (1 - c.(automation_level)))%float in
         if PrimFloat.ltb (rt.(random_random) wi.(calls).(n_random))
              (drift_prob * 0.3)%float
         then nth_error (all_controls w'.(self)) i = Some (set_status IN_PROGRESS c) /\
              exists a, alerts wi'.(self) = alerts wi.(self) ++ [a] /\
                a.(alert_severity) = RiskLevel_value c.(risk_level) /\
                a.(alert_title) = "Compliance drift detected for " +++ c.(control_id) /\
                a.(acknowledged) = false
         else nth_error (all_controls w'.(self)) i = Some c /\
              alerts wi'.(self) = alerts wi.(self)
     | _, _ => nth_error (all_controls w'.(self)) i = Some c /\ wi' = wi
     end) /\
  (exists new,
     alerts w'.(self) = alerts w.(self) ++ new /\
     List.length new = List.length (status_changes cs (all_controls w'.(self)))).
Proof.
  intros cs w'. split.
  - intros i c Hc wi wi'.
    assert (Hreg : nth_error (all_controls (self w')) i =
                   Some (fst (drift_body rt c wi))).
    { subst w' wi. unfold _check_compliance_drift.
      rewrite for_all_controls_registry. now apply for_each_nth. }
    assert (Hnext : wi' = snd (drift_body rt c wi))
      by (subst wi wi'; now apply reached_next).
    split.
    + subst w'. unfold _check_compliance_drift.
      destruct (for_all_controls_rest (drift_body rt) w) as (_ & _ & Ha & _).
      rewrite Ha. unfold loop_end. fold cs.
      rewrite (reached_then_rest (drift_body rt) cs (S i) w). fold wi'.
      destruct (for_each_preserves (drift_body rt) extends_alerts
                  extends_alerts_refl extends_alerts_trans drift_body_extends
                  (skipn (S i) cs) wi') as (_ & _ & _ & _ & _ & later & Hl).
      now exists later.
    + rewrite Hreg, Hnext. rewrite drift_body_run.
      unfold drift_probability, timedelta_days, microseconds_per_day.
      destruct (status c); simpl; try (split; reflexivity).
      destruct (last_assessment_date c) as [last|]; [|split; reflexivity].
      cbv zeta. destruct (PrimFloat.ltb _ _); simpl.
      * split; [reflexivity|]. rewrite create_alert_run. simpl.
        eexists; split; [reflexivity|]. simpl. repeat split.
      * split; reflexivity.
  - subst w' cs. unfold _check_compliance_drift.
    destruct (for_all_controls_rest (drift_body rt) w) as (_ & _ & Ha & _).
    rewrite Ha, for_all_controls_registry. unfold loop_end.
    apply drift_loop_alerts.
Qed.

(** ** Early-return searches *)

Lemma find_split_none {A} (p : A -> bool) (l : list A) :
  find_split p l = None <-> (forall x, In x l -> p x = false).
Proof.
  induction l as [|x l IH]; simpl.
  - split; [intros _ x []|reflexivity].
  - destruct (p x) eqn:Hx.
    + split; [discriminate|]. intro H. rewrite (H x) in Hx by now left.
      discriminate.
    + destruct (find_split p l) as [[[pre y] post]|].
      * split; [discriminate|]. intro H.
        assert (K : Some (pre, y, post) = None)
          by (apply IH; intros z Hz; apply H; now right).
        discriminate.
      * split; [|reflexivity]. intros _ z [<-|Hz]; [assumption|].
        now apply IH.
Qed.

Lemma find_split_some {A} (p : A -> bool) (l pre post : list A) (x : A) :
  find_split p l = Some (pre, x, post) <->
  l = pre ++ x :: post /\ p x = true /\ (forall y, In y pre -> p y = false).
Proof.
  revert pre; induction l as [|a l IH]; intro pre; simpl.
  - split; [discriminate|]. intros (H & _). destruct pre; discriminate.
  - destruct (p a) eqn:Ha.
    + split.
      * intro H; injection H as <- <- <-. repeat split; [assumption|intros y []].
      * intros (H & Hx & Hpre). destruct pre as [|b pre]; simpl in H.
        -- now injection H as -> ->.
        -- injection H as -> ->. rewrite (Hpre b) in Ha by now left.
           discriminate.
    + destruct (find_split p l) as [[[pre' y] post']|] eqn:E.
      * split.
        -- intro H; injection H as <- <- <-.
           destruct (proj1 (IH pre') eq_refl) as (-> & Hy & Hpre).
           repeat split; [assumption|]. intros z [<-|Hz]; auto.
        -- intros (H & Hx & Hpre). destruct pre as [|b pre]; simpl in H.
           ++ injection H as -> ->. congruence.
           ++ injection H as -> ->.
              assert (K : Some (pre', y, post') = Some (pre, x, post)).
              { apply IH. repeat split; [assumption|].
                intros z Hz. apply Hpre. now right. }
              now injection K as -> -> ->.
      * split; [discriminate|]. intros (H & Hx & Hpre).
        destruct pre as [|b pre]; simpl in H.
        -- injection H as -> ->. congruence.
        -- injection H as -> ->.
           assert (K : @None (list A * A * list A) = Some (pre, x, post)).
           { apply IH. repeat split; [assumption|].
             intros z Hz. apply Hpre. now right. }
           discriminate.
Qed.

(** Searching the concatenation is searching the first list, then the
    second. *)
Lemma find_split_app {A} (p : A -> bool) (l1 l2 : list A) :
  find_split p (l1 ++ l2) =
  match find_split p l1 with
  | Some (pre, x, post) => Some (pre, x, post ++ l2)
  | None =>
      match find_split p l2 with
      | Some (pre, x, post) => Some (l1 ++ pre, x, post)
      | None => None
      end
  end.
Proof.
  induction l1 as [|a l1 IH]; simpl.
  - destruct (find_split p l2) as [[[pre x] post]|]; reflexivity.
  - destruct (p a); [reflexivity|]. rewrite IH.
    destruct (find_split p l1) as [[[pre x] post]|]; [reflexivity|].
    destruct (find_split p l2) as [[[pre x] post]|]; reflexivity.
Qed.

Lemma first_control_run (p : ControlRequirement -> bool)
    (body : ControlRequirement -> M ControlRequirement) (w : World) :
  keeps_registry body ->
  match find_split p (all_controls w.(self)) with
  | Some (pre, c, post) =>
      let w1 := snd (body c w) in
      let w' := exec (first_control p body) w in
      result (first_control p body) w = true /\
      all_controls w'.(self) = pre ++ fst (body c w) :: post /\
      audit_log w'.(self) = audit_log w1.(self) /\
      incidents w'.(self) = incidents w1.(self) /\
      alerts w'.(self) = alerts w1.(self) /\
      calls w' = calls w1
  | None => first_control p body w = (false, w)
  end.
Proof.
  intro Hk. unfold all_controls. rewrite find_split_app.
  unfold first_control; simpl.
  destruct (find_split p (iso27001_controls (self w))) as [[[pre c] post]|].
  - destruct (Hk c w) as (Hi & Hp). simpl.
    destruct (body c w) as [c' w1]; simpl in *.
    rewrite Hp, <- app_assoc. repeat split.
  - destruct (find_split p (pci_dss_controls (self w))) as [[[pre c] post]|] eqn:E.
    + destruct (Hk c w) as (Hi & Hp). simpl.
      destruct (body c w) as [c' w1]; simpl in *.
      rewrite Hi, <- app_assoc. repeat split.
    + reflexivity.
Qed.

(** ** Solution implementation *)

Lemma solution_body_run (cid solution_type : string) (c : ControlRequirement)
    (w : World) :
  solution_body rt cid solution_type c w =
  (solved solution_type (rt.(datetime_now) w.(calls).(n_now)) c,
   snd (_create_alert rt
          ("Solution implemented: " +++ c.(control_id))
          ("Control " +++ c.(control_id) +++ " restored via " +++ solution_type +++
             ": " +++ dict_get solutions solution_type "Generic solution implemented")
          LOW (after_solution_audit rt cid solution_type w))).
Proof.
  unfold solution_body, solved, after_solution_audit.
  cbv [bind now ret modify]; cbv beta iota zeta.
  rewrite !create_alert_run. cbv beta iota zeta.
  unfold improve.
  destruct (String.eqb solution_type "automation");
    [reflexivity|].
  destruct (String.eqb solution_type "training"); [reflexivity|].
  destruct (String.eqb solution_type "technology"); reflexivity.
Qed.

Lemma solution_body_keeps (cid solution_type : string) :
  keeps_registry (solution_body rt cid solution_type).
Proof.
  intros c w. rewrite solution_body_run, create_alert_run. now split.
Qed.

Lemma needs_solution_false (cid : string) (c : ControlRequirement) :
  needs_solution cid c = false <->
  (c.(control_id) = cid ->
   c.(status) <> NON_COMPLIANT /\ c.(status) <> IN_PROGRESS).
Proof.
  unfold needs_solution. destruct (String.eqb_spec (control_id c) cid) as [E|E].
  - destruct (status c); simpl; split; try congruence; intro H;
      try (split; congruence); destruct (H E) as (H1 & H2); congruence.
  - simpl. split; [intros _ H; contradiction|reflexivity].
Qed.

Lemma needs_solution_true (cid : string) (c : ControlRequirement) :
  needs_solution cid c = true <->
  c.(control_id) = cid /\
  (c.(status) = NON_COMPLIANT \/ c.(status) = IN_PROGRESS).
Proof.
  unfold needs_solution. destruct (String.eqb_spec (control_id c) cid) as [E|E].
  - destruct (status c); simpl; split; try congruence; intro H; auto;
      destruct H as (_ & [H|H]); congruence.
  - simpl. split; [discriminate|]. intros (H & _); contradiction.
Qed.

(** C4: [implement_solution] fails and changes nothing when no control with
    the given id has status non_compliant or in_progress (in particular when
    the id is unknown); otherwise it succeeds on the first such control, sets
    its status to compliant and its last-assessment timestamp to the clock
    reading, keeps every other control, and with solution type "automation"
    sets automation_level to min(1.0, automation_level + 0.3), which is 0.8
    for a level of 0.5, and multiplies the drift factor by 0.7. *)
Theorem implement_solution_outcome (cid solution_type : string) (w : World) :
  ((forall c, In c (all_controls w.(self)) -> c.(control_id) = cid ->
      c.(status) <> NON_COMPLIANT /\ c.(status) <> IN_PROGRESS) ->
   implement_solution rt cid solution_type w = (false, w)) /\
  (forall pre c post,
     all_controls w.(self) = pre ++ c :: post ->
     (forall y, In y pre -> y.(control_id) = cid ->
        y.(status) <> NON_COMPLIANT /\ y.(status) <> IN_PROGRESS) ->
     c.(control_id) = cid ->
     c.(status) = NON_COMPLIANT \/ c.(status) = IN_PROGRESS ->
     let w' := exec (implement_solution rt cid solution_type) w in
     result (implement_solution rt cid solution_type) w = true /\
     exists c',
       all_controls w'.(self) = pre ++ c' :: post /\
       c'.(control_id) = cid /\
       c'.(status) = COMPLIANT /\
       c'.(last_assessment_date) = Some (rt.(datetime_now) w.(calls).(n_now)) /\
       c'.(incident_count) = c.(incident_count) /\
       (solution_type = "automation" ->
          c'.(automation_level) = min_1 (c.(automation_level) + 0.3)%float /\
          c'.(compliance_drift_factor) = (c.(compliance_drift_factor) * 0.7)%float /\
          (c.(automation_level) = 0.5%float -> c'.(automation_level) = 0.8%float))).
Proof.
  split.
  - intro H. unfold implement_solution.
    pose proof (first_control_run (needs_solution cid)
                  (solution_body rt cid solution_type) w
                  (solution_body_keeps cid solution_type)) as R.
    replace (find_split (needs_solution cid) (all_controls (self w)))
      with (@None (list ControlRequirement * ControlRequirement *
                   list ControlRequirement)) in R; [exact R|].
    symmetry. apply find_split_none. intros x Hx.
    apply needs_solution_false. now apply H.
  - intros pre c post Hall Hpre Hid Hst w'. subst w'.
    unfold implement_solution.
    pose proof (first_control_run (needs_solution cid)
                  (solution_body rt cid solution_type) w
                  (solution_body_keeps cid solution_type)) as R.
    replace (find_split (needs_solution cid) (all_controls (self w)))
      with (Some (pre, c, post)) in R.
    2:{ symmetry. apply find_split_some. repeat split; [assumption| |].
        - now apply needs_solution_true.
        - intros y Hy. apply needs_solution_false. now apply Hpre. }
    cbv zeta in R. destruct R as (Hres & Hreg & _).
    split; [exact Hres|].
    eexists; split; [exact Hreg|].
    rewrite solution_body_run. unfold solved, improve.
    destruct (String.eqb_spec solution_type "automation") as [E|E].
    + simpl. repeat split; try assumption.
      intros ->. reflexivity.
    + destruct (String.eqb solution_type "training");
        [|destruct (String.eqb solution_type "technology")];
        simpl; repeat split; try assumption; try contradiction.
Qed.

(** ** Incident resolution *)

Lemma restore_body_run (incident : ComplianceIncident) (c : ControlRequirement)
    (w : World) :
  restore_body rt incident c w =
  if restore_hit incident c
  then (set_last_assessment_date (Some (rt.(datetime_now) w.(calls).(n_now)))
          (set_status COMPLIANT c),
        snd (_create_alert rt
               ("Control restored: " +++ c.(control_id))
               ("Control " +++ c.(control_id) +++
                  " restored to compliance after incident resolution")
               LOW (after_clock w)))
  else (c, w).
Proof.
  unfold restore_body, restore_hit.
  destruct (str_in _ _); [|reflexivity].
  destruct (status_eqb _ _); [|reflexivity].
  cbv [bind now ret after_clock andb]; cbv beta iota zeta.
  rewrite !create_alert_run. reflexivity.
Qed.

Lemma restore_body_extends (incident : ComplianceIncident)
    (c : ControlRequirement) (w : World) :
  extends_alerts w (snd (restore_body rt incident c w)).
Proof.
  rewrite restore_body_run. destruct (restore_hit incident c).
  - apply (extends_alerts_trans w (after_clock w)).
    + now apply extends_alerts_same_self.
    + apply create_alert_extends.
  - apply extends_alerts_refl.
Qed.

Lemma resolve_incident_run (iid : string) (w : World) :
  resolve_incident rt iid w =
  match find_split (is_open_with_id iid) (incidents w.(self)) with
  | Some (pre, incident, post) =>
      (true,
       exec (for_all_controls
               (restore_body rt
                  (set_resolution_time
                     (Some (rt.(datetime_now) w.(calls).(n_now))) incident)))
         (stamped rt pre incident post w))
  | None => (false, w)
  end.
Proof.
  unfold resolve_incident. cbv [bind gets]; cbv beta iota zeta.
  destruct (find_split _ _) as [[[pre incident] post]|]; [|reflexivity].
  cbv [bind now modify ret stamped after_clock exec]; cbv beta iota zeta.
  cbn [self calls n_now n_time n_random n_choice].
  match goal with |- context [for_all_controls ?b ?w1] =>
    destruct (for_all_controls b w1) as [[] w2] end.
  reflexivity.
Qed.

(** Resolving an id under which the ledger holds no open incident fails and
    changes nothing. *)
Lemma resolve_incident_none_open (iid : string) (w : World) :
  (forall x, In x (incidents w.(self)) -> x.(incident_id) = iid ->
     x.(resolution_time) <> None) ->
  resolve_incident rt iid w = (false, w).
Proof.
  intro H. rewrite resolve_incident_run.
  replace (find_split (is_open_with_id iid) (incidents (self w)))
    with (@None (list ComplianceIncident * ComplianceIncident *
                 list ComplianceIncident)); [reflexivity|].
  symmetry. apply find_split_none. intros x Hx. unfold is_open_with_id.
  destruct (String.eqb_spec (incident_id x) iid) as [E|E]; [|reflexivity].
  specialize (H x Hx E). destruct (resolution_time x); [reflexivity|congruence].
Qed.

(** Resolving an id stamps the first open incident carrying it and restores
    the non-compliant controls that incident affects. *)
Lemma resolve_incident_first_open (iid : string) (w : World)
    (pre post : list ComplianceIncident) (incident : ComplianceIncident) :
  incidents w.(self) = pre ++ incident :: post ->
  (forall y, In y pre -> y.(incident_id) = iid -> y.(resolution_time) <> None) ->
  incident.(incident_id) = iid ->
  incident.(resolution_time) = None ->
  let w' := exec (resolve_incident rt iid) w in
  let t := rt.(datetime_now) w.(calls).(n_now) in
  let body := restore_body rt (set_resolution_time (Some t) incident) in
  let cs := all_controls w.(self) in
  result (resolve_incident rt iid) w = true /\
  incidents w'.(self) = pre ++ set_resolution_time (Some t) incident :: post /\
  audit_log w'.(self) = audit_log w.(self) /\
  (forall i c, nth_error cs i = Some c ->
     let wi := reached body cs i (stamped rt pre incident post w) in
     let wi' := reached body cs (S i) (stamped rt pre incident post w) in
     if str_in c.(control_id) incident.(affected_controls) &&
        status_eqb c.(status) NON_COMPLIANT
     then nth_error (all_controls w'.(self)) i =
            Some (set_last_assessment_date
                    (Some (rt.(datetime_now) wi.(calls).(n_now)))
                    (set_status COMPLIANT c)) /\
          exists a, alerts wi'.(self) = alerts wi.(self) ++ [a] /\
            a.(alert_severity) = "low" /\
            a.(alert_title) = "Control restored: " +++ c.(control_id) /\
            a.(acknowledged) = false
     else nth_error (all_controls w'.(self)) i = Some c /\ wi' = wi).
Proof.
  intros Hinc Hpre Hid Hopen w' t body cs.
  assert (Hfind : find_split (is_open_with_id iid) (incidents (self w)) =
                  Some (pre, incident, post)).
  { apply find_split_some. repeat split; [assumption| |].
    - unfold is_open_with_id. rewrite Hid, String.eqb_refl, Hopen. reflexivity.
    - intros y Hy. unfold is_open_with_id.
      destruct (String.eqb_spec (incident_id y) iid) as [E|E]; [|reflexivity].
      specialize (Hpre y Hy E).
      destruct (resolution_time y); [reflexivity|congruence]. }
  pose proof (resolve_incident_run iid w) as R. rewrite Hfind in R.
  fold t in R. fold body in R.
  assert (Hw' : w' = exec (for_all_controls body) (stamped rt pre incident post w))
    by (subst w'; unfold exec at 1; now rewrite R).
  destruct (for_all_controls_rest body (stamped rt pre incident post w))
    as (Haud & Hincs & Hal & _ & _).
  pose proof (for_each_preserves body extends_alerts extends_alerts_refl
                extends_alerts_trans (restore_body_extends _)
                (all_controls (self (stamped rt pre incident post w)))
                (stamped rt pre incident post w))
    as (_ & _ & Ka & Ki & _ & _).
  fold (loop_end body (stamped rt pre incident post w)) in Ka, Ki.
  repeat split.
  - unfold result. now rewrite R.
  - rewrite Hw', Hincs, Ki. reflexivity.
  - rewrite Hw', Haud, Ka. reflexivity.
  - intros i c Hc wi wi'.
    assert (Hreg : nth_error (all_controls (self w')) i = Some (fst (body c wi))).
    { rewrite Hw', for_all_controls_registry. now apply for_each_nth. }
    assert (Hnext : wi' = snd (body c wi))
      by (subst wi wi'; now apply reached_next).
    rewrite Hreg, Hnext. unfold body. rewrite restore_body_run.
    unfold restore_hit. simpl affected_controls.
    destruct (str_in _ _ && status_eqb _ _); simpl.
    + split; [reflexivity|]. rewrite create_alert_run. simpl.
      eexists; split; [reflexivity|]. repeat split.
    + split; reflexivity.
Qed.

(** ** Alert acknowledgment *)

Lemma find_split_find {A} (p : A -> bool) (l : list A) :
  find p l =
  match find_split p l with
  | Some (_, x, _) => Some x
  | None => None
  end.
Proof.
  induction l as [|a l IH]; simpl; [reflexivity|].
  destruct (p a); [reflexivity|]. rewrite IH.
  destruct (find_split p l) as [[[pre x] post]|]; reflexivity.
Qed.

Lemma set_acknowledged_same (a : Alert) :
  a.(acknowledged) = true -> set_acknowledged true a = a.
Proof. destruct a; simpl; intros ->; reflexivity. Qed.

Lemma set_alerts_same (g : GovernanceManager) : set_alerts (alerts g) g = g.
Proof. now destruct g. Qed.

Lemma acknowledge_alert_run (aid : string) (w : World) :
  acknowledge_alert aid w =
  match find_split (fun a => String.eqb a.(alert_id) aid) (alerts w.(self)) with
  | Some (pre, a, post) =>
      (true, mkWorld (set_alerts (pre ++ set_acknowledged true a :: post) w.(self))
               w.(calls))
  | None => (false, w)
  end.
Proof.
  unfold acknowledge_alert. cbv [bind gets]; cbv beta iota zeta.
  destruct (find_split _ _) as [[[pre a] post]|]; reflexivity.
Qed.

(** ** Incident counts never decrease *)

Lemma count_kept_refl (c : ControlRequirement) : count_kept c c.
Proof. split; [reflexivity|lia]. Qed.

Lemma count_kept_all_refl (cs : list ControlRequirement) : Forall2 count_kept cs cs.
Proof. induction cs; constructor; auto using count_kept_refl. Qed.

Lemma no_count_drop_refl (w : World) : no_count_drop w w.
Proof. apply count_kept_all_refl. Qed.

Lemma no_count_drop_same (w w' : World) :
  all_controls w'.(self) = all_controls w.(self) -> no_count_drop w w'.
Proof. unfold no_count_drop. intros ->. apply count_kept_all_refl. Qed.

Lemma count_kept_all_trans (a b c : list ControlRequirement) :
  Forall2 count_kept a b -> Forall2 count_kept b c -> Forall2 count_kept a c.
Proof.
  intro H; revert c; induction H as [|x y a b (Hi & Hc) _ IH]; intros c K;
    inversion K as [|y' z b' c' (Ki & Kc) K']; subst; constructor.
  - split; [congruence|lia].
  - now apply IH.
Qed.

Lemma no_count_drop_trans (a b c : World) :
  no_count_drop a b -> no_count_drop b c -> no_count_drop a c.
Proof. apply count_kept_all_trans. Qed.

Lemma for_each_count_kept (body : ControlRequirement -> M ControlRequirement) :
  (forall c w, count_kept c (fst (body c w))) ->
  forall cs w, Forall2 count_kept cs (fst (for_each body cs w)).
Proof.
  intros Hb cs; induction cs as [|c cs IH]; intro w; simpl; [constructor|].
  specialize (Hb c w). destruct (body c w) as [c' w1]. specialize (IH w1).
  destruct (for_each body cs w1); simpl in *. now constructor.
Qed.

Lemma for_all_controls_count_kept (body : ControlRequirement -> M ControlRequirement)
    (w : World) :
  (forall c w, count_kept c (fst (body c w))) ->
  no_count_drop w (exec (for_all_controls body) w).
Proof.
  intro Hb. unfold no_count_drop. rewrite for_all_controls_registry.
  now apply for_each_count_kept.
Qed.

Lemma first_control_count_kept (p : ControlRequirement -> bool)
    (body : ControlRequirement -> M ControlRequirement) (w : World) :
  keeps_registry body ->
  (forall c w, count_kept c (fst (body c w))) ->
  no_count_drop w (exec (first_control p body) w).
Proof.
  intros Hk Hb. pose proof (first_control_run p body w Hk) as R.
  destruct (find_split p (all_controls (self w))) as [[[pre c] post]|] eqn:E.
  - cbv zeta in R. destruct R as (_ & Hreg & _).
    apply find_split_some in E as (Hall & _ & _).
    unfold no_count_drop. rewrite Hreg, Hall.
    apply Forall2_app; [apply count_kept_all_refl|].
    constructor; [apply Hb|apply count_kept_all_refl].
  - unfold exec. rewrite R. apply no_count_drop_refl.
Qed.

Lemma overdue_body_control (c : ControlRequirement) (w : World) :
  fst (overdue_body rt c w) = c.
Proof.
  unfold overdue_body. destruct (String.eqb _ _); [reflexivity|].
  destruct (strptime rt _); [|reflexivity].
  cbv [bind now ret]; cbv beta iota zeta.
  destruct (_ <? _); [|reflexivity].
  rewrite create_alert_run. reflexivity.
Qed.

Lemma raise_incident_run (prefix : string) (tpl : template) (w : World) :
  let '(code, ttl, affected, sev) := tpl in
  let incident :=
    mkIncident (code +++ "-" +++ str (rt.(time_time) w.(calls).(n_time))) ttl
      (prefix +++ ttl) affected sev (rt.(datetime_now) w.(calls).(n_now)) None 24 in
  raise_incident rt prefix tpl w =
  (incident,
   exec (_apply_incident_impact rt incident)
     (mkWorld (set_incidents (incidents w.(self) ++ [incident]) w.(self))
        (mkCalls (S w.(calls).(n_now)) (S w.(calls).(n_time))
           w.(calls).(n_random) w.(calls).(n_choice)))).
Proof.
  destruct tpl as [[[code ttl] affected] sev]. unfold raise_incident.
  cbv [bind unix_time now modify ret exec]; cbv beta iota zeta.
  cbn [self calls n_now n_time n_random n_choice].
  match goal with |- context [_apply_incident_impact rt ?i ?w1] =>
    destruct (_apply_incident_impact rt i w1) as [[] w2] end.
  reflexivity.
Qed.

Lemma impact_count_kept (incident : ComplianceIncident) (w : World) :
  no_count_drop w (exec (_apply_incident_impact rt incident) w).
Proof.
  apply for_all_controls_count_kept. intros c w0. rewrite impact_body_run.
  unfold impact_control, count_kept. cbn [fst].
  destruct (str_in _ _); [|split; [reflexivity|lia]].
  destruct (status_eqb _ _); simpl; split; try reflexivity; lia.
Qed.

Lemma raise_incident_count_kept (prefix : string) (tpl : template) (w : World) :
  no_count_drop w (snd (raise_incident rt prefix tpl w)).
Proof.
  pose proof (raise_incident_run prefix tpl w) as R.
  destruct tpl as [[[code ttl] affected] sev]. cbv zeta in R. rewrite R.
  cbn [snd].
  match goal with |- no_count_drop _ (exec _ ?w1) =>
    apply (no_count_drop_trans w w1) end.
  - now apply no_count_drop_same.
  - apply impact_count_kept.
Qed.

Lemma drift_count_kept (w : World) :
  no_count_drop w (exec (_check_compliance_drift rt) w).
Proof.
  apply for_all_controls_count_kept. intros c w0. rewrite drift_body_run.
  destruct (status_eqb _ _); [|apply count_kept_refl].
  destruct (last_assessment_date c); [|apply count_kept_refl].
  cbv zeta. destruct (PrimFloat.ltb _ _); [|apply count_kept_refl].
  split; [reflexivity|simpl; lia].
Qed.

Lemma overdue_count_kept (w : World) :
  no_count_drop w (exec (_check_overdue_reviews rt) w).
Proof.
  apply for_all_controls_count_kept. intros c w0.
  rewrite overdue_body_control. apply count_kept_refl.
Qed.

Lemma simulate_count_kept (w : World) :
  no_count_drop w (exec (_simulate_incidents rt) w).
Proof.
  unfold _simulate_incidents, exec.
  cbv [bind random choice ret]; cbv beta iota zeta.
  destruct (PrimFloat.ltb _ _); [|now apply no_count_drop_same].
  match goal with |- context [raise_incident rt ?p ?t ?w1] =>
    pose proof (raise_incident_count_kept p t w1) as K;
    destruct (raise_incident rt p t w1) as [i w2] end.
  cbn [snd] in *. eapply no_count_drop_trans; [|exact K].
  now apply no_count_drop_same.
Qed.

Lemma force_count_kept (w : World) :
  no_count_drop w (exec (force_incident rt) w).
Proof.
  unfold force_incident, exec.
  cbv [bind choice]; cbv beta iota zeta.
  match goal with |- context [raise_incident rt ?p ?t ?w1] =>
    pose proof (raise_incident_count_kept p t w1) as K end.
  eapply no_count_drop_trans; [|exact K].
  now apply no_count_drop_same.
Qed.

Lemma update_status_count_kept (cid : string) (st : ComplianceStatus)
    (nts : string) (w : World) :
  no_count_drop w (exec (update_control_status rt cid st nts) w).
Proof.
  unfold update_control_status. apply first_control_count_kept.
  - intros c w0. now split.
  - intros c w0. split; [reflexivity|simpl; lia].
Qed.

Lemma resolve_count_kept (iid : string) (w : World) :
  no_count_drop w (exec (resolve_incident rt iid) w).
Proof.
  unfold exec at 1. rewrite resolve_incident_run.
  destruct (find_split _ _) as [[[pre incident] post]|];
    [|apply no_count_drop_refl].
  cbn [snd]. apply (no_count_drop_trans w (stamped rt pre incident post w)).
  - now apply no_count_drop_same.
  - apply for_all_controls_count_kept. intros c w0. rewrite restore_body_run.
    destruct (restore_hit _ c); [|apply count_kept_refl].
    split; [reflexivity|simpl; lia].
Qed.

Lemma improve_count_kept (solution_type : string) (c : ControlRequirement) :
  count_kept c (improve solution_type c).
Proof.
  unfold improve.
  destruct (String.eqb solution_type "automation");
    [split; [reflexivity|simpl; lia]|].
  destruct (String.eqb solution_type "training");
    [split; [reflexivity|simpl; lia]|].
  destruct (String.eqb solution_type "technology");
    [split; [reflexivity|simpl; lia]|apply count_kept_refl].
Qed.

Lemma implement_count_kept (cid solution_type : string) (w : World) :
  no_count_drop w (exec (implement_solution rt cid solution_type) w).
Proof.
  unfold implement_solution. apply first_control_count_kept.
  - apply solution_body_keeps.
  - intros c w0. rewrite solution_body_run. unfold solved. cbn [fst].
    destruct (improve_count_kept solution_type
                (set_last_assessment_date
                   (Some (datetime_now rt (n_now (calls w0))))
                   (set_status COMPLIANT c))) as (Hi & Hc).
    split; simpl in *; assumption.
Qed.

Lemma acknowledge_count_kept (aid : string) (w : World) :
  no_count_drop w (exec (acknowledge_alert aid) w).
Proof.
  unfold exec. rewrite acknowledge_alert_run.
  destruct (find_split _ _) as [[[pre a] post]|];
    [now apply no_count_drop_same|apply no_count_drop_refl].
Qed.

Lemma monitor_tick_count_kept (w : World) :
  no_count_drop w (exec (monitor_tick rt) w).
Proof.
  unfold monitor_tick, exec. cbv [bind]; cbv beta iota zeta.
  pose proof (drift_count_kept w) as K1. unfold exec in K1.
  destruct (_check_compliance_drift rt w) as [[] w1]. cbn [snd] in K1.
  pose proof (simulate_count_kept w1) as K2. unfold exec in K2.
  destruct (_simulate_incidents rt w1) as [[] w2]. cbn [snd] in K2.
  pose proof (overdue_count_kept w2) as K3. unfold exec in K3.
  eauto using no_count_drop_trans.
Qed.

(** C8: no engine operation (drift check, incident simulation, incident
    impact, review check, status update, incident resolution, solution
    implementation, alert acknowledgment, forced incident, a whole monitoring
    tick) lowers the incident count of any control, and so no history of
    operations does: position by position the registry keeps its control ids
    and every incident count is at least what it was. *)
Theorem incident_count_never_decreases :
  (forall o w, no_count_drop w (perform rt o w)) /\
  (forall os w, no_count_drop w (perform_all rt os w)).
Proof.
  assert (H : forall o w, no_count_drop w (perform rt o w)).
  { intros [] w; simpl perform.
    - apply drift_count_kept.
    - apply simulate_count_kept.
    - apply impact_count_kept.
    - apply overdue_count_kept.
    - apply update_status_count_kept.
    - apply resolve_count_kept.
    - apply implement_count_kept.
    - apply acknowledge_count_kept.
    - apply force_count_kept.
    - apply monitor_tick_count_kept. }
  split; [exact H|].
  intro os; induction os as [|o os IH]; intro w; simpl.
  - apply no_count_drop_refl.
  - eapply no_count_drop_trans; [apply H|apply IH].
Qed.

(** ** Alert identifiers *)

Lemma str_inj (a b : Z) : str a = str b -> a = b.
Proof.
  unfold str. intro H.
  assert (K : forall z, NilZero.int_of_string (NilZero.string_of_int (Z.to_int z)) =
                        Some (Z.to_int z)).
  { intro z. apply NilZero.isi; destruct z; simpl; try discriminate;
      intro E; injection E; apply DecimalPos.Unsigned.to_uint_nonnil. }
  pose proof (K a) as Ka. rewrite H, K in Ka. injection Ka as Ka.
  now apply DecimalZ.to_int_inj.
Qed.

Lemma no_dash_digits (d : Decimal.uint) : no_dash (NilEmpty.string_of_uint d) = true.
Proof. induction d; simpl; auto. Qed.

Lemma no_dash_str (n : nat) : no_dash (str (Z.of_nat n)) = true.
Proof.
  unfold str. destruct (Z.of_nat n) eqn:E; try lia; simpl.
  - reflexivity.
  - destruct (Pos.to_uint p); try reflexivity; apply (no_dash_digits (_ _)).
Qed.

Lemma dash_suffix (a a' b b' : string) :
  no_dash b = true -> no_dash b' = true ->
  a +++ String "-" b = a' +++ String "-" b' -> b = b'.
Proof.
  intros Hb Hb'. revert a'. induction a as [|c a IH]; intros [|c' a'] H; simpl in H.
  - now injection H.
  - injection H as <- ->. clear - Hb. exfalso.
    induction a' as [|x a' IH]; simpl in Hb.
    + discriminate.
    + apply andb_prop in Hb as (_ & Hb). auto.
  - injection H as -> <-. clear - Hb'. exfalso.
    induction a as [|x a IH]; simpl in Hb'.
    + discriminate.
    + apply andb_prop in Hb' as (_ & Hb'). auto.
  - injection H as _ H. exact (IH _ H).
Qed.

Lemma alert_id_index (t t' : Z) (i j : nat) :
  "ALT-" +++ str t +++ "-" +++ str (Z.of_nat i) =
  "ALT-" +++ str t' +++ "-" +++ str (Z.of_nat j) -> i = j.
Proof.
  intro H. simpl in H. injection H as H.
  apply dash_suffix in H; try apply no_dash_str.
  apply str_inj in H. lia.
Qed.

Lemma indexed_ids_unique (als : list Alert) :
  indexed_ids als ->
  forall i j a b, nth_error als i = Some a -> nth_error als j = Some b ->
    a.(alert_id) = b.(alert_id) -> i = j.
Proof.
  intros H i j a b Ha Hb E.
  destruct (H i a Ha) as (t & Hi). destruct (H j b Hb) as (t' & Hj).
  rewrite Hi, Hj in E. now apply alert_id_index in E.
Qed.

Lemma keeps_alert_ids_refl (w : World) : keeps_alert_ids w w.
Proof. now intro. Qed.

Lemma keeps_alert_ids_trans (a b c : World) :
  keeps_alert_ids a b -> keeps_alert_ids b c -> keeps_alert_ids a c.
Proof. unfold keeps_alert_ids. auto. Qed.

Lemma keeps_alert_ids_same (w w' : World) :
  alerts w'.(self) = alerts w.(self) -> keeps_alert_ids w w'.
Proof. unfold keeps_alert_ids. now intros ->. Qed.

Lemma create_alert_keeps_ids (ttl message : string) (sev : RiskLevel) (w : World) :
  keeps_alert_ids w (snd (_create_alert rt ttl message sev w)).
Proof.
  rewrite create_alert_run. intros H i a Hi. simpl in Hi.
  destruct (Nat.lt_ge_cases i (List.length (alerts (self w)))) as [L|L].
  - rewrite nth_error_app1 in Hi by assumption. now apply H.
  - rewrite nth_error_app2 in Hi by assumption.
    destruct (i - List.length (alerts (self w)))%nat as [|k] eqn:E; simpl in Hi.
    + injection Hi as <-. simpl. eexists.
      replace i with (List.length (alerts (self w))) by lia. reflexivity.
    + destruct k; discriminate.
Qed.

Lemma for_all_controls_keeps_ids (body : ControlRequirement -> M ControlRequirement)
    (w : World) :
  (forall c w, keeps_alert_ids w (snd (body c w))) ->
  keeps_alert_ids w (exec (for_all_controls body) w).
Proof.
  intro Hb.
  destruct (for_all_controls_rest body w) as (_ & _ & Ha & _).
  apply (keeps_alert_ids_trans w (loop_end body w)).
  - apply (for_each_preserves body keeps_alert_ids keeps_alert_ids_refl
             keeps_alert_ids_trans Hb).
  - now apply keeps_alert_ids_same.
Qed.

Lemma first_control_keeps_ids (p : ControlRequirement -> bool)
    (body : ControlRequirement -> M ControlRequirement) (w : World) :
  keeps_registry body ->
  (forall c w, keeps_alert_ids w (snd (body c w))) ->
  keeps_alert_ids w (exec (first_control p body) w).
Proof.
  intros Hk Hb. pose proof (first_control_run p body w Hk) as R.
  destruct (find_split p (all_controls (self w))) as [[[pre c] post]|].
  - cbv zeta in R. destruct R as (_ & _ & _ & _ & Ha & _).
    apply (keeps_alert_ids_trans w (snd (body c w))); [apply Hb|].
    now apply keeps_alert_ids_same.
  - unfold exec. rewrite R. apply keeps_alert_ids_refl.
Qed.

Lemma drift_body_keeps_ids (c : ControlRequirement) (w : World) :
  keeps_alert_ids w (snd (drift_body rt c w)).
Proof.
  rewrite drift_body_run.
  destruct (status_eqb _ _); [|apply keeps_alert_ids_refl].
  destruct (last_assessment_date c); [|apply keeps_alert_ids_refl].
  cbv zeta. destruct (PrimFloat.ltb _ _).
  - apply (keeps_alert_ids_trans w (after_reading w)).
    + now apply keeps_alert_ids_same.
    + apply create_alert_keeps_ids.
  - now apply keeps_alert_ids_same.
Qed.

Lemma impact_body_keeps_ids (incident : ComplianceIncident)
    (c : ControlRequirement) (w : World) :
  keeps_alert_ids w (snd (impact_body rt incident c w)).
Proof.
  rewrite impact_body_run. cbn [snd].
  destruct (impact_hit incident c);
    [apply create_alert_keeps_ids|apply keeps_alert_ids_refl].
Qed.

Lemma restore_body_keeps_ids (incident : ComplianceIncident)
    (c : ControlRequirement) (w : World) :
  keeps_alert_ids w (snd (restore_body rt incident c w)).
Proof.
  rewrite restore_body_run. destruct (restore_hit incident c).
  - apply (keeps_alert_ids_trans w (after_clock w)).
    + now apply keeps_alert_ids_same.
    + apply create_alert_keeps_ids.
  - apply keeps_alert_ids_refl.
Qed.

Lemma overdue_body_keeps_ids (c : ControlRequirement) (w : World) :
  keeps_alert_ids w (snd (overdue_body rt c w)).
Proof.
  unfold overdue_body. destruct (String.eqb _ _); [apply keeps_alert_ids_refl|].
  destruct (strptime rt _); [|apply keeps_alert_ids_refl].
  cbv [bind now ret]; cbv beta iota zeta.
  destruct (_ <? _); [|now apply keeps_alert_ids_same].
  match goal with |- context [_create_alert rt ?a ?b ?s ?w1] =>
    pose proof (create_alert_keeps_ids a b s w1) as K;
    destruct (_create_alert rt a b s w1) as [[] w2] end.
  cbn [snd] in *. eapply keeps_alert_ids_trans; [|exact K].
  now apply keeps_alert_ids_same.
Qed.

Lemma raise_incident_keeps_ids (prefix : string) (tpl : template) (w : World) :
  keeps_alert_ids w (snd (raise_incident rt prefix tpl w)).
Proof.
  pose proof (raise_incident_run prefix tpl w) as R.
  destruct tpl as [[[code ttl] affected] sev]. cbv zeta in R. rewrite R.
  cbn [snd].
  match goal with |- keeps_alert_ids _ (exec _ ?w1) =>
    apply (keeps_alert_ids_trans w w1) end.
  - now apply keeps_alert_ids_same.
  - apply for_all_controls_keeps_ids. apply impact_body_keeps_ids.
Qed.

Lemma acknowledge_keeps_ids (aid : string) (w : World) :
  keeps_alert_ids w (exec (acknowledge_alert aid) w).
Proof.
  unfold exec. rewrite acknowledge_alert_run.
  destruct (find_split _ _) as [[[pre a] post]|] eqn:E;
    [|apply keeps_alert_ids_refl].
  apply find_split_some in E as (Hl & _ & _).
  intros H i x Hi. cbn [snd self alerts set_alerts] in Hi.
  rewrite Hl in H.
  destruct (Nat.lt_ge_cases i (List.length pre)) as [L|L].
  - rewrite nth_error_app1 in Hi by assumption.
    apply H. now rewrite nth_error_app1.
  - rewrite nth_error_app2 in Hi by assumption.
    destruct (i - List.length pre)%nat as [|k] eqn:Ek; simpl in Hi.
    + injection Hi as <-. simpl.
      apply (H i a). rewrite nth_error_app2 by assumption. now rewrite Ek.
    + apply H. rewrite nth_error_app2 by assumption. now rewrite Ek.
Qed.

Lemma simulate_keeps_ids (w : World) :
  keeps_alert_ids w (exec (_simulate_incidents rt) w).
Proof.
  unfold _simulate_incidents, exec.
  cbv [bind random choice ret]; cbv beta iota zeta.
  destruct (PrimFloat.ltb _ _); [|now apply keeps_alert_ids_same].
  match goal with |- context [raise_incident rt ?p ?t ?w1] =>
    pose proof (raise_incident_keeps_ids p t w1) as K;
    destruct (raise_incident rt p t w1) as [i w2] end.
  cbn [snd] in *. eapply keeps_alert_ids_trans; [|exact K].
  now apply keeps_alert_ids_same.
Qed.

Lemma force_keeps_ids (w : World) :
  keeps_alert_ids w (exec (force_incident rt) w).
Proof.
  unfold force_incident, exec. cbv [bind choice]; cbv beta iota zeta.
  match goal with |- context [raise_incident rt ?p ?t ?w1] =>
    pose proof (raise_incident_keeps_ids p t w1) as K end.
  eapply keeps_alert_ids_trans; [|exact K].
  now apply keeps_alert_ids_same.
Qed.

Lemma update_status_keeps_ids (cid : string) (st : ComplianceStatus)
    (nts : string) (w : World) :
  keeps_alert_ids w (exec (update_control_status rt cid st nts) w).
Proof.
  unfold update_control_status. apply first_control_keeps_ids.
  - intros c w0. now split.
  - intros c w0. now apply keeps_alert_ids_same.
Qed.

Lemma resolve_keeps_ids (iid : string) (w : World) :
  keeps_alert_ids w (exec (resolve_incident rt iid) w).
Proof.
  unfold exec at 1. rewrite resolve_incident_run.
  destruct (find_split _ _) as [[[pre incident] post]|];
    [|apply keeps_alert_ids_refl].
  cbn [snd]. apply (keeps_alert_ids_trans w (stamped rt pre incident post w)).
  - now apply keeps_alert_ids_same.
  - apply for_all_controls_keeps_ids, restore_body_keeps_ids.
Qed.

Lemma implement_keeps_ids (cid solution_type : string) (w : World) :
  keeps_alert_ids w (exec (implement_solution rt cid solution_type) w).
Proof.
  unfold implement_solution. apply first_control_keeps_ids.
  - apply solution_body_keeps.
  - intros c w0. rewrite solution_body_run. cbn [snd].
    apply (keeps_alert_ids_trans w0 (after_solution_audit rt cid solution_type w0)).
    + now apply keeps_alert_ids_same.
    + apply create_alert_keeps_ids.
Qed.

Lemma monitor_tick_keeps_ids (w : World) :
  keeps_alert_ids w (exec (monitor_tick rt) w).
Proof.
  unfold monitor_tick, exec. cbv [bind]; cbv beta iota zeta.
  pose proof (for_all_controls_keeps_ids (drift_body rt) w
                drift_body_keeps_ids) as K1.
  unfold exec in K1. fold (_check_compliance_drift rt) in K1.
  destruct (_check_compliance_drift rt w) as [[] w1]. cbn [snd] in K1.
  pose proof (simulate_keeps_ids w1) as K2. unfold exec in K2.
  destruct (_simulate_incidents rt w1) as [[] w2]. cbn [snd] in K2.
  pose proof (for_all_controls_keeps_ids (overdue_body rt) w2
                overdue_body_keeps_ids) as K3.
  unfold exec in K3. fold (_check_overdue_reviews rt) in K3.
  eauto using keeps_alert_ids_trans.
Qed.

Lemma perform_keeps_ids (o : operation) (w : World) :
  keeps_alert_ids w (perform rt o w).
Proof.
  destruct o; simpl perform.
  - apply for_all_controls_keeps_ids, drift_body_keeps_ids.
  - apply simulate_keeps_ids.
  - apply for_all_controls_keeps_ids, impact_body_keeps_ids.
  - apply for_all_controls_keeps_ids, overdue_body_keeps_ids.
  - apply update_status_keeps_ids.
  - apply resolve_keeps_ids.
  - apply implement_keeps_ids.
  - apply acknowledge_keeps_ids.
  - apply force_keeps_ids.
  - apply monitor_tick_keeps_ids.
Qed.

Lemma perform_all_keeps_ids (os : list operation) (w : World) :
  keeps_alert_ids w (perform_all rt os w).
Proof.
  revert w; induction os as [|o os IH]; intro w; simpl.
  - apply keeps_alert_ids_refl.
  - eapply keeps_alert_ids_trans; [apply perform_keeps_ids|apply IH].
Qed.

Lemma reachable_indexed_ids (os : list operation) :
  indexed_ids (alerts (self (perform_all rt os (startup rt)))).
Proof.
  apply perform_all_keeps_ids. intros i a H. destruct i; discriminate.
Qed.

(** ** Incident identifiers *)

Lemma no_dash_str_nonneg (t : Z) : 0 <= t -> no_dash (str t) = true.
Proof.
  intro H. rewrite <- (Z2Nat.id t H). apply no_dash_str.
Qed.

Lemma length_append (a b : string) :
  String.length (a +++ b) = (String.length a + String.length b)%nat.
Proof. induction a as [|c a IH]; simpl; [reflexivity|now rewrite IH]. Qed.

Lemma append_cancel_r (a b s : string) : a +++ s = b +++ s -> a = b.
Proof.
  revert b; induction a as [|c a IH]; intros [|c' b] H; simpl in H.
  - reflexivity.
  - exfalso. apply (f_equal String.length) in H. simpl in H.
    rewrite length_append in H. lia.
  - exfalso. apply (f_equal String.length) in H. simpl in H.
    rewrite length_append in H. lia.
  - injection H as -> H. f_equal. now apply IH.
Qed.

(** The id of an incident names its template code and the second of its
    creation, and nothing else. *)
Lemma incident_id_same_iff (code code' : string) (t t' : Z) :
  0 <= t -> 0 <= t' ->
  (code +++ "-" +++ str t = code' +++ "-" +++ str t' <-> code = code' /\ t = t').
Proof.
  intros Ht Ht'. split; [|now intros (-> & ->)].
  intro H. assert (E : str t = str t').
  { apply (dash_suffix code code'); auto using no_dash_str_nonneg. }
  split; [|now apply str_inj].
  rewrite E in H. now apply append_cancel_r in H.
Qed.

(** The incident a forced incident returns. *)
Lemma force_incident_id (w : World) :
  let tpl := nth (Nat.modulo (rt.(random_below) w.(calls).(n_choice) 6) 6)
               [sec_001; sec_002; sec_003; sec_004; sec_005; sec_006] sec_001 in
  incident_id (result (force_incident rt) w) =
  fst (fst (fst tpl)) +++ "-" +++ str (rt.(time_time) w.(calls).(n_time)).
Proof.
  intro tpl. unfold force_incident, result. cbv [bind choice]; cbv beta iota zeta.
  cbn [List.length self calls n_choice n_time n_now n_random]. fold tpl.
  match goal with |- context [raise_incident rt ?p tpl ?w1] =>
    pose proof (raise_incident_run p tpl w1) as R end.
  destruct tpl as [[[code ttl] affected] sev]. cbv zeta in R. rewrite R.
  reflexivity.
Qed.

(** C10: acknowledging an id whose alert (the first one in the sink carrying
    the id) is already acknowledged returns success and leaves the world as
    it is; for every alert in the sink a second acknowledgment of its id
    returns the same success and changes nothing more; and in every world
    reached from a fresh manager by the engine's operations, where alert ids
    are pairwise distinct, acknowledging the id of any acknowledged alert of
    the sink returns success and leaves the world as it is. *)
Theorem acknowledge_alert_idempotent :
  (forall w aid a,
     find (fun x => String.eqb x.(alert_id) aid) (alerts w.(self)) = Some a ->
     a.(acknowledged) = true ->
     acknowledge_alert aid w = (true, w)) /\
  (forall w a, In a (alerts w.(self)) ->
     let w1 := exec (acknowledge_alert a.(alert_id)) w in
     result (acknowledge_alert a.(alert_id)) w = true /\
     acknowledge_alert a.(alert_id) w1 = (true, w1)) /\
  (forall os a,
     let w := perform_all rt os (startup rt) in
     In a (alerts w.(self)) ->
     a.(acknowledged) = true ->
     acknowledge_alert a.(alert_id) w = (true, w)).
Proof.
  assert (First : forall w aid a,
     find (fun x => String.eqb x.(alert_id) aid) (alerts w.(self)) = Some a ->
     a.(acknowledged) = true ->
     acknowledge_alert aid w = (true, w)).
  { intros w aid a Hfind Hack. rewrite acknowledge_alert_run.
    rewrite find_split_find in Hfind.
    destruct (find_split _ _) as [[[pre x] post]|] eqn:E; [|discriminate].
    injection Hfind as ->. apply find_split_some in E as (Hl & _ & _).
    rewrite set_acknowledged_same by assumption. rewrite <- Hl.
    rewrite set_alerts_same. now destruct w. }
  split; [exact First|]. split.
  - intros w a Hin w1. subst w1. unfold exec, result.
    rewrite acknowledge_alert_run.
    destruct (find_split _ (alerts (self w))) as [[[pre x] post]|] eqn:E.
    + simpl. split; [reflexivity|].
      apply find_split_some in E as (Hl & Hx & Hpre).
      rewrite acknowledge_alert_run. simpl.
      assert (K : find_split (fun a0 => String.eqb (alert_id a0) (alert_id a))
                    (pre ++ set_acknowledged true x :: post) =
                  Some (pre, set_acknowledged true x, post)).
      { apply find_split_some. repeat split; assumption. }
      rewrite K. destruct w as [g cl], g; simpl. destruct x; reflexivity.
    + exfalso. apply (proj1 (find_split_none _ _)) with (x := a) in E; [|assumption].
      rewrite String.eqb_refl in E. discriminate.
  - intros os a w Hin Hack. apply (First w (alert_id a) a); [|assumption].
    rewrite find_split_find.
    destruct (find_split _ (alerts (self w))) as [[[pre x] post]|] eqn:E.
    + apply find_split_some in E as (Hl & Hx & _).
      apply String.eqb_eq in Hx.
      apply In_nth_error in Hin as (i & Hi).
      assert (Hp : nth_error (alerts (self w)) (List.length pre) = Some x).
      { rewrite Hl, nth_error_app2 by lia. now rewrite Nat.sub_diag. }
      pose proof (indexed_ids_unique _ (reachable_indexed_ids os) _ _ _ _
                    Hp Hi Hx) as Ei.
      fold w in Hp. rewrite Ei in Hp. congruence.
    + exfalso. apply (proj1 (find_split_none _ _)) with (x := a) in E; [|assumption].
      rewrite String.eqb_refl in E. discriminate.
Qed.

End Facts.

(** ** Compliance summary *)

(** The number model on the values Python prints: 1/3, 7/30 and -7/30 are
    the binary64 quotients, and [round(x, 2)] rounds the exact binary value
    (2.675 is below the tie, 0.125 is a tie and goes to the even 0.12). *)
Example int_truediv_values :
  int_truediv 1 3 = (1 / 3)%float /\
  int_truediv 7 30 = (7 / 30)%float /\
  int_truediv (-7) 30 = (-7 / 30)%float /\
  int_truediv 0 30 = 0%float.
Proof. repeat split. Qed.

Example round2_values :
  round2 (int_truediv 1 3 * 100)%float = 33.33%float /\
  round2 (int_truediv 2 3 * 100)%float = 66.67%float /\
  round2 2.675%float = 2.67%float /\
  round2 0.125%float = 0.12%float /\
  round2 100%float = 100%float.
Proof. repeat split. Qed.

(** The integer [round_half_even n d] is a nearest integer to [n / d]. *)
Lemma round_half_even_nearest (n d : Z) :
  0 < d -> 2 * Z.abs (round_half_even n d * d - n) <= d.
Proof.
  intro Hd. unfold round_half_even.
  assert (Hd0 : d <> 0) by lia.
  pose proof (Z.div_mod n d Hd0) as E.
  pose proof (Z.mod_pos_bound n d Hd) as B.
  revert E B. generalize (n / d) (n mod d). intros q r -> B.
  destruct (Z.compare_spec (2 * r) d); [destruct (Z.even q)| |].
  - replace (q * d - (d * q + r)) with (- r) by ring. lia.
  - replace ((q + 1) * d - (d * q + r)) with (d - r) by ring. lia.
  - replace (q * d - (d * q + r)) with (- r) by ring. lia.
  - replace ((q + 1) * d - (d * q + r)) with (d - r) by ring. lia.
Qed.

(** True division of a positive int by itself is exactly 1.0. *)
Lemma int_truediv_self (p : positive) : int_truediv (Zpos p) p = 1%float.
Proof.
  unfold int_truediv, SFdiv, SFdiv_core_binary.
  replace (Zdigits2 (Z.pos p) + 0 - (Zdigits2 (Z.pos p) + 0)) with 0 by lia.
  change (Z.min (fexp prec emax 0) (0 - 0)) with (-53).
  change (0 - 0 - -53) with 53.
  cbv beta iota zeta.
  replace (Z.div_eucl (Z.shiftl (Z.pos p) 53) (Z.pos p)) with (2 ^ 53, 0).
  - unfold new_location.
    destruct (Z.even (Z.pos p)); reflexivity.
  - rewrite Z.shiftl_mul_pow2 by lia.
    rewrite Z.mul_comm.
    pose proof (Z.div_mul (2 ^ 53) (Z.pos p) ltac:(discriminate)) as Hq.
    pose proof (Z.mod_mul (2 ^ 53) (Z.pos p) ltac:(discriminate)) as Hr.
    unfold Z.div, Z.modulo in Hq, Hr.
    destruct (Z.div_eucl (2 ^ 53 * Z.pos p) (Z.pos p)) as [q r].
    now subst.
Qed.

Lemma count_status_all (st : ComplianceStatus) (controls : list ControlRequirement) :
  (forall c, In c controls -> c.(status) = st) ->
  count_status st controls = List.length controls.
Proof.
  unfold count_status. induction controls as [|c cs IH]; intro H; simpl.
  - reflexivity.
  - rewrite (H c) by now left. rewrite status_eqb_refl. simpl.
    f_equal. apply IH. intros x Hx. apply H. now right.
Qed.

Lemma count_status_partition (controls : list ControlRequirement) :
  (count_status COMPLIANT controls + count_status NON_COMPLIANT controls +
   count_status IN_PROGRESS controls + count_status NOT_ASSESSED controls)%nat
  = List.length controls.
Proof.
  unfold count_status. induction controls as [|c cs IH]; simpl; [reflexivity|].
  destruct (status c); simpl; lia.
Qed.

(** C6: the summary of a control list counts the controls and the controls
    in each status (the four status counts add up to the total); its
    compliance percentage is the int 0, equal to 0.0, for the empty list and
    otherwise the float compliant / total * 100 rounded to two decimals; it
    is exactly 100.0 when the list is non-empty and all its controls are
    compliant. *)
Theorem standard_summary_figures (controls : list ControlRequirement) (std : string) :
  let s := _get_standard_summary controls std in
  s.(total_controls) = List.length controls /\
  s.(compliant) =
    List.length (filter (fun c => status_eqb c.(status) COMPLIANT) controls) /\
  s.(non_compliant) =
    List.length (filter (fun c => status_eqb c.(status) NON_COMPLIANT) controls) /\
  s.(in_progress) =
    List.length (filter (fun c => status_eqb c.(status) IN_PROGRESS) controls) /\
  s.(not_assessed) =
    List.length (filter (fun c => status_eqb c.(status) NOT_ASSESSED) controls) /\
  (s.(compliant) + s.(non_compliant) + s.(in_progress) + s.(not_assessed))%nat
    = s.(total_controls) /\
  (controls = [] ->
     s.(compliance_percentage) = PyInt 0 /\
     pynum_eqb s.(compliance_percentage) (PyFloat 0%float) = true) /\
  (controls <> [] ->
     s.(compliance_percentage) =
       PyFloat (round2 (int_truediv (Z.of_nat s.(compliant))
                          (Pos.of_nat s.(total_controls)) * 100)%float)) /\
  (controls <> [] ->
     (forall c, In c controls -> c.(status) = COMPLIANT) ->
     s.(compliance_percentage) = PyFloat 100%float).
Proof.
  intro s. subst s. unfold _get_standard_summary. cbn [total_controls compliant
    non_compliant in_progress not_assessed compliance_percentage].
  repeat (split; [reflexivity|]).
  split; [apply count_status_partition|].
  split; [intros ->; split; reflexivity|].
  split.
  - intro Hne. destruct controls as [|c cs]; [contradiction|].
    cbn [List.length py_round2]. now rewrite Pos.of_nat_succ.
  - intros Hne Hall. destruct controls as [|c cs]; [contradiction|].
    rewrite (count_status_all COMPLIANT (c :: cs) Hall).
    cbn [List.length py_round2].
    change (Z.of_nat (S (List.length cs)))
      with (Z.pos (Pos.of_succ_nat (List.length cs))).
    rewrite int_truediv_self. reflexivity.
Qed.

(** ** Incident identifiers within one second *)

(** C1: two incidents forced within the same wall-clock second from the same
    template are distinct entries of the ledger with the same identifier,
    and so are an incident of the simulator and a forced one. *)
Theorem incident_ids_collide_within_a_second :
  (let w := exec (force_incident demo_runtime)
              (exec (force_incident demo_runtime) (startup demo_runtime)) in
   exists i1 i2,
     incidents w.(self) = [i1; i2] /\
     i1.(occurrence_time) <> i2.(occurrence_time) /\
     i1.(incident_id) = "SEC-002-1700000000" /\
     i2.(incident_id) = "SEC-002-1700000000") /\
  (let w := exec (force_incident stormy_runtime)
              (exec (_simulate_incidents stormy_runtime) (startup stormy_runtime)) in
   exists i1 i2,
     incidents w.(self) = [i1; i2] /\
     i1.(inc_description) <> i2.(inc_description) /\
     i1.(incident_id) = i2.(incident_id)).
Proof.
  split.
  - vm_compute. do 2 eexists. split; [reflexivity|].
    split; [|split; reflexivity]. simpl. discriminate.
  - vm_compute. do 2 eexists. split; [reflexivity|].
    split; [|reflexivity]. simpl. discriminate.
Qed.

(** ** Resolution under a shared identifier *)

(** C2: in the world where a resolved incident shares its identifier with
    an open twin, resolving that identifier again returns success, stamps the
    twin, moves a control back to compliant and appends an alert. *)
Theorem resolve_incident_again_succeeds :
  let w := twin_world in
  let w' := exec (resolve_incident demo_runtime "SEC-002-1700000000") w in
  (exists i, nth_error (incidents w.(self)) 0 = Some i /\
     i.(incident_id) = "SEC-002-1700000000" /\
     i.(resolution_time) = Some 1700000000000008) /\
  result (resolve_incident demo_runtime "SEC-002-1700000000") w = true /\
  map resolution_time (incidents w.(self)) = [Some 1700000000000008; None] /\
  map resolution_time (incidents w'.(self)) =
    [Some 1700000000000008; Some 1700000000000013] /\
  map status (all_controls w.(self)) =
    [COMPLIANT; IN_PROGRESS; COMPLIANT; NON_COMPLIANT; NON_COMPLIANT; IN_PROGRESS] /\
  map status (all_controls w'.(self)) =
    [COMPLIANT; IN_PROGRESS; COMPLIANT; COMPLIANT; NON_COMPLIANT; IN_PROGRESS] /\
  List.length (alerts w.(self)) = 3%nat /\
  List.length (alerts w'.(self)) = 4%nat.
Proof.
  vm_compute. split; [eexists; repeat split|repeat split].
Qed.

(** C3: with two open incidents under one identifier, resolving the
    identifier returns success and stamps the first of them; the second,
    which is open and carries that identifier, is still open afterwards. *)
Theorem resolve_incident_leaves_twin_open :
  let w := exec (force_incident demo_runtime)
             (exec (force_incident demo_runtime) (startup demo_runtime)) in
  let w' := exec (resolve_incident demo_runtime "SEC-002-1700000000") w in
  (exists i, nth_error (incidents w.(self)) 1 = Some i /\
     i.(incident_id) = "SEC-002-1700000000" /\
     i.(resolution_time) = None) /\
  result (resolve_incident demo_runtime "SEC-002-1700000000") w = true /\
  (exists i', nth_error (incidents w'.(self)) 1 = Some i' /\
     i'.(incident_id) = "SEC-002-1700000000" /\
     i'.(resolution_time) = None) /\
  map resolution_time (incidents w'.(self)) = [Some 1700000000000009; None].
Proof.
  vm_compute. split; [eexists; repeat split|].
  split; [reflexivity|]. split; [eexists; repeat split|reflexivity].
Qed.

(** ** The theorems at concrete inputs *)

Lemma implement_solution_outcome_witness :
  implement_solution demo_runtime "X.9" "automation" lone_world = (false, lone_world) /\
  result (implement_solution demo_runtime "X.1" "automation") lone_world = true /\
  exists c',
    all_controls (self (exec (implement_solution demo_runtime "X.1" "automation")
                          lone_world)) = [c'] /\
    c'.(status) = COMPLIANT /\
    c'.(automation_level) = 0.8%float.
Proof.
  destruct (implement_solution_outcome demo_runtime "X.9" "automation" lone_world)
    as [Hfail _].
  destruct (implement_solution_outcome demo_runtime "X.1" "automation" lone_world)
    as [_ Hok].
  split.
  - apply Hfail. intros c [<-|[]] Hid. discriminate Hid.
  - specialize (Hok [] lone_control [] eq_refl
                  (fun y (H : In y []) => match H with end)
                  eq_refl (or_introl eq_refl)).
    destruct Hok as (Hres & c' & Hreg & Hid & Hst & Hlast & Hcnt & Hauto).
    split; [exact Hres|]. exists c'. split; [exact Hreg|]. split; [exact Hst|].
    destruct (Hauto eq_refl) as (_ & _ & H05). apply H05. reflexivity.
Defined.

Lemma apply_incident_impact_twice_witness :
  exists c2,
    nth_error (all_controls (startup demo_runtime).(self)) 3 = Some firewall_control /\
    nth_error
      (all_controls
         (self (exec (_apply_incident_impact demo_runtime firewall_incident)
                  (exec (_apply_incident_impact demo_runtime firewall_incident)
                     (startup demo_runtime))))) 3 = Some c2 /\
    c2.(incident_count) = 2 /\
    c2.(status) = NON_COMPLIANT.
Proof.
  destruct (apply_incident_impact_twice demo_runtime firewall_incident
              (startup demo_runtime)) as (H1 & _ & H).
  assert (Hc : nth_error (all_controls (startup demo_runtime).(self)) 3 =
               Some firewall_control) by (vm_compute; reflexivity).
  destruct (H1 3%nat firewall_control Hc) as (c1 & _ & _).
  destruct (H 3%nat firewall_control Hc eq_refl eq_refl) as (c2 & H2 & Hn & Hs).
  exists c2. repeat split; assumption.
Defined.

Lemma standard_summary_figures_witness :
  compliance_percentage
    (_get_standard_summary [policy_control; firewall_control] "ISO27001")
    = PyFloat 100%float /\
  compliance_percentage
    (_get_standard_summary [policy_control; lone_control; lone_control] "ISO27001")
    = PyFloat 33.33%float /\
  compliance_percentage (_get_standard_summary [] "ISO27001") = PyInt 0.
Proof.
  split; [|split].
  - apply (standard_summary_figures [policy_control; firewall_control] "ISO27001").
    + discriminate.
    + intros c [<-|[<-|[]]]; reflexivity.
  - destruct (standard_summary_figures
                [policy_control; lone_control; lone_control] "ISO27001")
      as (_ & _ & _ & _ & _ & _ & _ & H & _).
    rewrite H by discriminate. reflexivity.
  - apply (standard_summary_figures [] "ISO27001"). reflexivity.
Defined.

Lemma compliance_drift_check_witness :
  nth_error (all_controls (startup stormy_runtime).(self)) 0 = Some policy_control /\
  nth_error
    (all_controls (self (exec (_check_compliance_drift stormy_runtime)
                           (startup stormy_runtime)))) 0
    = Some (set_status IN_PROGRESS policy_control).
Proof.
  assert (Hc : nth_error (all_controls (startup stormy_runtime).(self)) 0 =
               Some policy_control) by (vm_compute; reflexivity).
  split; [exact Hc|].
  destruct (compliance_drift_check stormy_runtime (startup stormy_runtime))
    as (H & _).
  destruct (H 0%nat policy_control Hc) as (_ & K).
  exact (proj1 K).
Defined.

Lemma acknowledge_alert_idempotent_witness :
  acknowledge_alert "ALT-1700000000-0" acknowledged_world = (true, acknowledged_world) /\
  (exists a, In a (alerts acknowledged_world.(self)) /\
     a.(alert_id) = "ALT-1700000000-0" /\
     (let w1 := exec (acknowledge_alert a.(alert_id)) acknowledged_world in
      result (acknowledge_alert a.(alert_id)) acknowledged_world = true /\
      acknowledge_alert a.(alert_id) w1 = (true, w1)) /\
     acknowledge_alert a.(alert_id) acknowledged_world = (true, acknowledged_world)).
Proof.
  destruct (acknowledge_alert_idempotent demo_runtime) as (Ha & Hb & Hc).
  assert (Hf : exists a,
             find (fun x => String.eqb x.(alert_id) "ALT-1700000000-0")
               (alerts acknowledged_world.(self)) = Some a /\
             a.(acknowledged) = true /\ a.(alert_id) = "ALT-1700000000-0").
  { vm_compute. eexists. repeat split. }
  destruct Hf as (a & Hfind & Hack & Hid).
  split; [exact (Ha acknowledged_world _ a Hfind Hack)|].
  apply find_some in Hfind.
  exists a. split; [exact (proj1 Hfind)|]. split; [exact Hid|].
  split; [exact (Hb acknowledged_world a (proj1 Hfind))|].
  assert (E : perform_all demo_runtime
                [op_force_incident; op_acknowledge "ALT-1700000000-0"]
                (startup demo_runtime) = acknowledged_world)
    by (vm_compute; reflexivity).
  pose proof (Hc [op_force_incident; op_acknowledge "ALT-1700000000-0"] a) as K.
  cbv zeta in K. rewrite E in K. exact (K (proj1 Hfind) Hack).
Defined.

(** * Further properties *)

(** ** Nothing is lost *)

Lemma alert_kept_refl (a : Alert) : alert_kept a a.
Proof. unfold alert_kept; repeat split; auto. Qed.

Lemma incident_kept_refl (i : ComplianceIncident) : incident_kept i i.
Proof. unfold incident_kept; repeat split; auto. Qed.

Lemma control_static_refl (c : ControlRequirement) : control_static c c.
Proof. unfold control_static; repeat split. Qed.

Lemma Forall2_refl_of {A} (R : A -> A -> Prop) (l : list A) :
  (forall x, R x x) -> Forall2 R l l.
Proof. intro H; induction l; constructor; auto. Qed.

Lemma Forall2_trans_of {A} (R : A -> A -> Prop) :
  (forall x y z, R x y -> R y z -> R x z) ->
  forall a b c, Forall2 R a b -> Forall2 R b c -> Forall2 R a c.
Proof.
  intros HR a b c H; revert c; induction H as [|x y a b Hxy _ IH]; intros c K;
    inversion K; subst; constructor; eauto.
Qed.

Lemma alert_kept_trans (a b c : Alert) :
  alert_kept a b -> alert_kept b c -> alert_kept a c.
Proof.
  unfold alert_kept. intros (H1 & H2 & H3 & H4 & H5 & H6) (K1 & K2 & K3 & K4 & K5 & K6).
  repeat split; try congruence. auto.
Qed.

Lemma incident_kept_trans (a b c : ComplianceIncident) :
  incident_kept a b -> incident_kept b c -> incident_kept a c.
Proof.
  unfold incident_kept.
  intros (H1 & H2 & H3 & H4 & H5 & H6 & H7 & H8) (K1 & K2 & K3 & K4 & K5 & K6 & K7 & K8).
  repeat split; try congruence. auto.
Qed.

Lemma control_static_trans (a b c : ControlRequirement) :
  control_static a b -> control_static b c -> control_static a c.
Proof.
  unfold control_static.
  intros (H1 & H2 & H3 & H4 & H5 & H6 & H7 & H8 & H9 & H10)
         (K1 & K2 & K3 & K4 & K5 & K6 & K7 & K8 & K9 & K10).
  repeat split; congruence.
Qed.

Lemma sink_kept_trans (a b c : World) : sink_kept a b -> sink_kept b c -> sink_kept a c.
Proof.
  intros (k1 & n1 & E1 & F1) (k2 & n2 & E2 & F2). rewrite E1 in F2.
  apply Forall2_app_inv_l in F2 as (k2a & k2b & Fa & Fb & ->).
  exists k2a, (k2b ++ n2). split; [now rewrite E2, app_assoc|].
  eapply Forall2_trans_of; eauto using alert_kept_trans.
Qed.

Lemma ledger_kept_trans (a b c : World) :
  ledger_kept a b -> ledger_kept b c -> ledger_kept a c.
Proof.
  intros (k1 & n1 & E1 & F1) (k2 & n2 & E2 & F2). rewrite E1 in F2.
  apply Forall2_app_inv_l in F2 as (k2a & k2b & Fa & Fb & ->).
  exists k2a, (k2b ++ n2). split; [now rewrite E2, app_assoc|].
  eapply Forall2_trans_of; eauto using incident_kept_trans.
Qed.

Lemma audit_kept_trans (a b c : World) : audit_kept a b -> audit_kept b c -> audit_kept a c.
Proof.
  intros (n1 & E1) (n2 & E2). exists (n1 ++ n2). now rewrite E2, E1, app_assoc.
Qed.

Lemma registry_kept_trans (a b c : World) :
  registry_kept a b -> registry_kept b c -> registry_kept a c.
Proof.
  intros (H1 & H2) (K1 & K2).
  split; eapply Forall2_trans_of; eauto using control_static_trans.
Qed.

Lemma nothing_lost_trans (a b c : World) :
  nothing_lost a b -> nothing_lost b c -> nothing_lost a c.
Proof.
  intros (H1 & H2 & H3 & H4) (K1 & K2 & K3 & K4).
  split; [|split; [|split]];
    eauto using sink_kept_trans, ledger_kept_trans, audit_kept_trans,
      registry_kept_trans.
Qed.

Lemma sink_kept_same (w w' : World) :
  alerts w'.(self) = alerts w.(self) -> sink_kept w w'.
Proof.
  intro E. exists (alerts (self w)), []. rewrite E, app_nil_r.
  split; [reflexivity|]. apply Forall2_refl_of, alert_kept_refl.
Qed.

Lemma sink_kept_app (w w' : World) (new : list Alert) :
  alerts w'.(self) = alerts w.(self) ++ new -> sink_kept w w'.
Proof.
  intro E. exists (alerts (self w)), new.
  split; [assumption|]. apply Forall2_refl_of, alert_kept_refl.
Qed.

Lemma ledger_kept_same (w w' : World) :
  incidents w'.(self) = incidents w.(self) -> ledger_kept w w'.
Proof.
  intro E. exists (incidents (self w)), []. rewrite E, app_nil_r.
  split; [reflexivity|]. apply Forall2_refl_of, incident_kept_refl.
Qed.

Lemma audit_kept_same (w w' : World) :
  audit_log w'.(self) = audit_log w.(self) -> audit_kept w w'.
Proof. intro E. exists []. now rewrite E, app_nil_r. Qed.

Lemma registry_kept_same (w w' : World) :
  iso27001_controls w'.(self) = iso27001_controls w.(self) ->
  pci_dss_controls w'.(self) = pci_dss_controls w.(self) ->
  registry_kept w w'.
Proof.
  intros E1 E2. unfold registry_kept. rewrite E1, E2.
  split; apply Forall2_refl_of, control_static_refl.
Qed.

Lemma nothing_lost_same (w w' : World) :
  w'.(self) = w.(self) -> nothing_lost w w'.
Proof.
  intro E. split; [|split; [|split]].
  - apply sink_kept_same; now rewrite E.
  - apply ledger_kept_same; now rewrite E.
  - apply audit_kept_same; now rewrite E.
  - apply registry_kept_same; now rewrite E.
Qed.

Lemma nothing_lost_refl (w : World) : nothing_lost w w.
Proof. now apply nothing_lost_same. Qed.

Lemma emits_alerts_refl (w : World) : emits_alerts w w.
Proof.
  exists []. split; [|constructor]. rewrite app_nil_r. now destruct (self w).
Qed.

Lemma emits_alerts_trans (a b c : World) :
  emits_alerts a b -> emits_alerts b c -> emits_alerts a c.
Proof.
  intros (n1 & E1 & F1) (n2 & E2 & F2). exists (n1 ++ n2).
  split; [|now apply Forall_app]. rewrite E2, E1. simpl.
  now rewrite app_assoc.
Qed.

Lemma emits_alerts_same (w w' : World) : w'.(self) = w.(self) -> emits_alerts w w'.
Proof.
  intro E. exists []. split; [|constructor]. rewrite E, app_nil_r.
  now destruct (self w).
Qed.

Lemma emits_alerts_nothing_lost (w w' : World) :
  emits_alerts w w' -> nothing_lost w w'.
Proof.
  intros (new & E & _). split; [|split; [|split]].
  - apply (sink_kept_app w w' new). now rewrite E.
  - apply ledger_kept_same. now rewrite E.
  - apply audit_kept_same. now rewrite E.
  - apply registry_kept_same; now rewrite E.
Qed.

(** Closes a goal [control_static c c'] where [c'] is [c] with some of the
    assigned attributes set. *)
Ltac static := unfold control_static; simpl; repeat split.

Lemma for_each_static (body : ControlRequirement -> M ControlRequirement) :
  (forall c w, control_static c (fst (body c w))) ->
  forall cs w, Forall2 control_static cs (fst (for_each body cs w)).
Proof.
  intros Hb cs; induction cs as [|c cs IH]; intro w; simpl; [constructor|].
  specialize (Hb c w). destruct (body c w) as [c' w1]. specialize (IH w1).
  destruct (for_each body cs w1); simpl in *. now constructor.
Qed.

Lemma for_all_controls_self (body : ControlRequirement -> M ControlRequirement)
    (w : World) :
  self (exec (for_all_controls body) w) =
  set_pci_dss_controls
    (fst (for_each body (pci_dss_controls w.(self))
            (snd (for_each body (iso27001_controls w.(self)) w))))
    (set_iso27001_controls (fst (for_each body (iso27001_controls w.(self)) w))
       (self (loop_end body w))).
Proof.
  unfold loop_end, all_controls, for_all_controls. rewrite for_each_app. simpl.
  destruct (for_each body (iso27001_controls (self w)) w) as [a w1]; simpl.
  destruct (for_each body (pci_dss_controls (self w)) w1) as [b w2]; simpl.
  reflexivity.
Qed.

Lemma for_all_controls_nothing_lost
    (body : ControlRequirement -> M ControlRequirement) (w : World) :
  (forall c w, emits_alerts w (snd (body c w))) ->
  (forall c w, control_static c (fst (body c w))) ->
  nothing_lost w (exec (for_all_controls body) w).
Proof.
  intros He Hs.
  destruct (for_each_preserves body emits_alerts emits_alerts_refl
              emits_alerts_trans He (all_controls (self w)) w) as (new & E & _).
  fold (loop_end body w) in E.
  pose proof (for_all_controls_self body w) as S. rewrite E in S.
  split; [|split; [|split]].
  - apply (sink_kept_app _ _ new). now rewrite S.
  - apply ledger_kept_same. now rewrite S.
  - apply audit_kept_same. now rewrite S.
  - unfold registry_kept. rewrite S. simpl. split; now apply for_each_static.
Qed.

Lemma first_control_nothing_lost (p : ControlRequirement -> bool)
    (body : ControlRequirement -> M ControlRequirement) (w : World) :
  (forall c w, nothing_lost w (snd (body c w))) ->
  (forall c w,
     iso27001_controls (self (snd (body c w))) = iso27001_controls w.(self) /\
     pci_dss_controls (self (snd (body c w))) = pci_dss_controls w.(self)) ->
  (forall c w, control_static c (fst (body c w))) ->
  nothing_lost w (exec (first_control p body) w).
Proof.
  intros Hl Hk Hs. unfold first_control, exec.
  cbv [bind gets modify ret]; cbv beta iota zeta.
  destruct (find_split p (iso27001_controls (self w))) as [[[pre c] post]|] eqn:E1.
  - specialize (Hl c w). specialize (Hs c w). destruct (Hk c w) as (Ki & Kp).
    destruct (body c w) as [c' w1]; simpl in *.
    apply find_split_some in E1 as (Hiso & _ & _).
    eapply nothing_lost_trans; [exact Hl|].
    split; [|split; [|split]].
    + apply sink_kept_same; reflexivity.
    + apply ledger_kept_same; reflexivity.
    + apply audit_kept_same; reflexivity.
    + split; simpl.
      * rewrite Ki, Hiso. apply Forall2_app.
        -- apply Forall2_refl_of, control_static_refl.
        -- constructor; [assumption|apply Forall2_refl_of, control_static_refl].
      * apply Forall2_refl_of, control_static_refl.
  - destruct (find_split p (pci_dss_controls (self w))) as [[[pre c] post]|] eqn:E2.
    + specialize (Hl c w). specialize (Hs c w). destruct (Hk c w) as (Ki & Kp).
      destruct (body c w) as [c' w1]; simpl in *.
      apply find_split_some in E2 as (Hpci & _ & _).
      eapply nothing_lost_trans; [exact Hl|].
      split; [|split; [|split]].
      * apply sink_kept_same; reflexivity.
      * apply ledger_kept_same; reflexivity.
      * apply audit_kept_same; reflexivity.
      * split; simpl.
        -- apply Forall2_refl_of, control_static_refl.
        -- rewrite Kp, Hpci. apply Forall2_app.
           ++ apply Forall2_refl_of, control_static_refl.
           ++ constructor; [assumption|apply Forall2_refl_of, control_static_refl].
    + apply nothing_lost_refl.
Qed.

Section Kept.

Variable rt : Runtime.

Lemma create_alert_emits (ttl message : string) (sev : RiskLevel) (w : World) :
  emits_alerts w (snd (_create_alert rt ttl message sev w)).
Proof.
  rewrite create_alert_run. eexists. split; [reflexivity|].
  constructor; [reflexivity|constructor].
Qed.

Lemma drift_body_emits (c : ControlRequirement) (w : World) :
  emits_alerts w (snd (drift_body rt c w)).
Proof.
  rewrite drift_body_run.
  destruct (status_eqb _ _); [|apply emits_alerts_refl].
  destruct (last_assessment_date c); [|apply emits_alerts_refl].
  cbv zeta. destruct (PrimFloat.ltb _ _).
  - apply (emits_alerts_trans w (after_reading w)).
    + now apply emits_alerts_same.
    + apply create_alert_emits.
  - now apply emits_alerts_same.
Qed.

Lemma impact_body_emits (incident : ComplianceIncident) (c : ControlRequirement)
    (w : World) :
  emits_alerts w (snd (impact_body rt incident c w)).
Proof.
  rewrite impact_body_run. cbn [snd].
  destruct (impact_hit incident c);
    [apply create_alert_emits|apply emits_alerts_refl].
Qed.

Lemma restore_body_emits (incident : ComplianceIncident) (c : ControlRequirement)
    (w : World) :
  emits_alerts w (snd (restore_body rt incident c w)).
Proof.
  rewrite restore_body_run. destruct (restore_hit incident c).
  - apply (emits_alerts_trans w (after_clock w)).
    + now apply emits_alerts_same.
    + apply create_alert_emits.
  - apply emits_alerts_refl.
Qed.

(** What the review check does with one control. *)
Lemma overdue_body_run (c : ControlRequirement) (w : World) :
  overdue_body rt c w =
  if String.eqb c.(next_review_date) "" then (c, w)
  else
    match rt.(strptime) c.(next_review_date) with
    | Some review_date =>
        if review_date <? rt.(datetime_now) w.(calls).(n_now)
        then (c, snd (_create_alert rt
                        ("Overdue review: " +++ c.(control_id))
                        ("Control " +++ c.(control_id) +++
                           " is past its review date")
                        MEDIUM (after_clock w)))
        else (c, after_clock w)
    | None => (c, w)
    end.
Proof.
  unfold overdue_body. destruct (String.eqb _ _); [reflexivity|].
  destruct (strptime rt _); [|reflexivity].
  cbv [bind now ret after_clock]; cbv beta iota zeta.
  destruct (_ <? _); [|reflexivity].
  rewrite !create_alert_run. reflexivity.
Qed.

Lemma overdue_body_emits (c : ControlRequirement) (w : World) :
  emits_alerts w (snd (overdue_body rt c w)).
Proof.
  rewrite overdue_body_run. destruct (String.eqb _ _); [apply emits_alerts_refl|].
  destruct (strptime rt _); [|apply emits_alerts_refl].
  destruct (_ <? _).
  - apply (emits_alerts_trans w (after_clock w)).
    + now apply emits_alerts_same.
    + apply create_alert_emits.
  - now apply emits_alerts_same.
Qed.

Lemma drift_body_static (c : ControlRequirement) (w : World) :
  control_static c (fst (drift_body rt c w)).
Proof.
  rewrite drift_body_run.
  destruct (status_eqb _ _); [|apply control_static_refl].
  destruct (last_assessment_date c); [|apply control_static_refl].
  cbv zeta. destruct (PrimFloat.ltb _ _); static.
Qed.

Lemma impact_body_static (incident : ComplianceIncident) (c : ControlRequirement)
    (w : World) :
  control_static c (fst (impact_body rt incident c w)).
Proof.
  rewrite impact_body_run. unfold impact_control. cbn [fst].
  destruct (str_in _ _); [|apply control_static_refl].
  destruct (status_eqb _ _); static.
Qed.

Lemma restore_body_static (incident : ComplianceIncident) (c : ControlRequirement)
    (w : World) :
  control_static c (fst (restore_body rt incident c w)).
Proof.
  rewrite restore_body_run.
  destruct (restore_hit incident c); static.
Qed.

Lemma overdue_body_static (c : ControlRequirement) (w : World) :
  control_static c (fst (overdue_body rt c w)).
Proof. rewrite overdue_body_control. apply control_static_refl. Qed.

Lemma improve_static (solution_type : string) (c : ControlRequirement) :
  control_static c (improve solution_type c).
Proof.
  unfold improve.
  destruct (String.eqb solution_type "automation"); [static|].
  destruct (String.eqb solution_type "training"); [static|].
  destruct (String.eqb solution_type "technology"); static.
Qed.

Lemma impact_nothing_lost (incident : ComplianceIncident) (w : World) :
  nothing_lost w (exec (_apply_incident_impact rt incident) w).
Proof.
  apply for_all_controls_nothing_lost;
    [apply impact_body_emits|apply impact_body_static].
Qed.

Lemma raise_incident_nothing_lost (prefix : string) (tpl : template) (w : World) :
  nothing_lost w (snd (raise_incident rt prefix tpl w)).
Proof.
  pose proof (raise_incident_run rt prefix tpl w) as R.
  destruct tpl as [[[code ttl] affected] sev]. cbv zeta in R. rewrite R.
  cbn [snd].
  match goal with |- nothing_lost _ (exec _ ?w1) =>
    apply (nothing_lost_trans w w1) end; [|apply impact_nothing_lost].
  split; [|split; [|split]].
  - now apply sink_kept_same.
  - eexists _, _. split; [reflexivity|].
    apply Forall2_refl_of, incident_kept_refl.
  - now apply audit_kept_same.
  - now apply registry_kept_same.
Qed.

Lemma simulate_nothing_lost (w : World) :
  nothing_lost w (exec (_simulate_incidents rt) w).
Proof.
  unfold _simulate_incidents, exec.
  cbv [bind random choice ret]; cbv beta iota zeta.
  destruct (PrimFloat.ltb _ _); [|now apply nothing_lost_same].
  match goal with |- context [raise_incident rt ?p ?t ?w1] =>
    pose proof (raise_incident_nothing_lost p t w1) as K;
    destruct (raise_incident rt p t w1) as [i w2] end.
  cbn [snd] in *. eapply nothing_lost_trans; [|exact K].
  now apply nothing_lost_same.
Qed.

Lemma force_nothing_lost (w : World) :
  nothing_lost w (exec (force_incident rt) w).
Proof.
  unfold force_incident, exec. cbv [bind choice]; cbv beta iota zeta.
  match goal with |- context [raise_incident rt ?p ?t ?w1] =>
    pose proof (raise_incident_nothing_lost p t w1) as K end.
  eapply nothing_lost_trans; [|exact K].
  now apply nothing_lost_same.
Qed.

Lemma update_status_nothing_lost (cid : string) (st : ComplianceStatus)
    (nts : string) (w : World) :
  nothing_lost w (exec (update_control_status rt cid st nts) w).
Proof.
  unfold update_control_status. apply first_control_nothing_lost.
  - intros c w0. split; [|split; [|split]].
    + now apply sink_kept_same.
    + now apply ledger_kept_same.
    + eexists. reflexivity.
    + now apply registry_kept_same.
  - intros c w0. now split.
  - intros c w0. static.
Qed.

Lemma implement_nothing_lost (cid solution_type : string) (w : World) :
  nothing_lost w (exec (implement_solution rt cid solution_type) w).
Proof.
  unfold implement_solution. apply first_control_nothing_lost.
  - intros c w0. rewrite solution_body_run. cbn [snd].
    apply (nothing_lost_trans w0 (after_solution_audit rt cid solution_type w0)).
    + split; [|split; [|split]].
      * now apply sink_kept_same.
      * now apply ledger_kept_same.
      * eexists. reflexivity.
      * now apply registry_kept_same.
    + apply emits_alerts_nothing_lost, create_alert_emits.
  - apply solution_body_keeps.
  - intros c w0. rewrite solution_body_run. unfold solved. cbn [fst].
    apply (control_static_trans c
             (set_last_assessment_date (Some (datetime_now rt (n_now (calls w0))))
                (set_status COMPLIANT c))).
    + static.
    + apply (control_static_trans _ (improve solution_type
               (set_last_assessment_date
                  (Some (datetime_now rt (n_now (calls w0))))
                  (set_status COMPLIANT c)))).
      * apply improve_static.
      * static.
Qed.

Lemma resolve_nothing_lost (iid : string) (w : World) :
  nothing_lost w (exec (resolve_incident rt iid) w).
Proof.
  unfold exec at 1. rewrite resolve_incident_run.
  destruct (find_split _ _) as [[[pre incident] post]|] eqn:E;
    [|apply nothing_lost_refl].
  cbn [snd]. apply find_split_some in E as (Hl & Hopen & _).
  apply (nothing_lost_trans w (stamped rt pre incident post w)).
  - split; [|split; [|split]].
    + now apply sink_kept_same.
    + eexists _, []. rewrite app_nil_r. split; [reflexivity|].
      rewrite Hl. apply Forall2_app; [apply Forall2_refl_of, incident_kept_refl|].
      constructor; [|apply Forall2_refl_of, incident_kept_refl].
      unfold incident_kept; simpl. repeat split.
      unfold is_open_with_id in Hopen. apply andb_prop in Hopen as (_ & Hopen).
      intros t Ht. rewrite Ht in Hopen. discriminate.
    + now apply audit_kept_same.
    + now apply registry_kept_same.
  - apply for_all_controls_nothing_lost;
      [apply restore_body_emits|apply restore_body_static].
Qed.

Lemma acknowledge_nothing_lost (aid : string) (w : World) :
  nothing_lost w (exec (acknowledge_alert aid) w).
Proof.
  unfold exec. rewrite acknowledge_alert_run.
  destruct (find_split _ _) as [[[pre a] post]|] eqn:E;
    [|apply nothing_lost_refl].
  cbn [snd]. apply find_split_some in E as (Hl & _ & _).
  split; [|split; [|split]].
  - eexists _, []. rewrite app_nil_r. split; [reflexivity|].
    rewrite Hl. apply Forall2_app; [apply Forall2_refl_of, alert_kept_refl|].
    constructor; [|apply Forall2_refl_of, alert_kept_refl].
    unfold alert_kept; simpl. repeat split.
  - now apply ledger_kept_same.
  - now apply audit_kept_same.
  - now apply registry_kept_same.
Qed.

Lemma drift_nothing_lost (w : World) :
  nothing_lost w (exec (_check_compliance_drift rt) w).
Proof.
  apply for_all_controls_nothing_lost;
    [apply drift_body_emits|apply drift_body_static].
Qed.

Lemma overdue_nothing_lost (w : World) :
  nothing_lost w (exec (_check_overdue_reviews rt) w).
Proof.
  apply for_all_controls_nothing_lost;
    [apply overdue_body_emits|apply overdue_body_static].
Qed.

Lemma monitor_tick_nothing_lost (w : World) :
  nothing_lost w (exec (monitor_tick rt) w).
Proof.
  unfold monitor_tick, exec. cbv [bind]; cbv beta iota zeta.
  pose proof (drift_nothing_lost w) as K1. unfold exec in K1.
  destruct (_check_compliance_drift rt w) as [[] w1]. cbn [snd] in K1.
  pose proof (simulate_nothing_lost w1) as K2. unfold exec in K2.
  destruct (_simulate_incidents rt w1) as [[] w2]. cbn [snd] in K2.
  pose proof (overdue_nothing_lost w2) as K3. unfold exec in K3.
  eauto using nothing_lost_trans.
Qed.

Lemma perform_nothing_lost (o : operation) (w : World) :
  nothing_lost w (perform rt o w).
Proof.
  destruct o; simpl perform.
  - apply drift_nothing_lost.
  - apply simulate_nothing_lost.
  - apply impact_nothing_lost.
  - apply overdue_nothing_lost.
  - apply update_status_nothing_lost.
  - apply resolve_nothing_lost.
  - apply implement_nothing_lost.
  - apply acknowledge_nothing_lost.
  - apply force_nothing_lost.
  - apply monitor_tick_nothing_lost.
Qed.

Lemma perform_all_nothing_lost (os : list operation) (w : World) :
  nothing_lost w (perform_all rt os w).
Proof.
  revert w; induction os as [|o os IH]; intro w; simpl.
  - apply nothing_lost_refl.
  - eapply nothing_lost_trans; [apply perform_nothing_lost|apply IH].
Qed.

End Kept.

Lemma kept_prefix_nth {A} (R : A -> A -> Prop) (l l' kept new : list A) :
  l' = kept ++ new -> Forall2 R l kept ->
  forall i a, nth_error l i = Some a ->
    exists a', nth_error l' i = Some a' /\ R a a'.
Proof.
  intros -> F. induction F as [|x y l kept Hxy F IH]; intros i a Hi.
  - destruct i; discriminate.
  - destruct i as [|i]; simpl in *.
    + injection Hi as <-. eauto.
    + now apply IH.
Qed.

Lemma static_attributes_kept (cs cs' : list ControlRequirement) :
  Forall2 control_static cs cs' ->
  map static_attributes cs' = map static_attributes cs.
Proof.
  induction 1 as [|c c' cs cs' H _ IH]; simpl; [reflexivity|].
  rewrite IH. f_equal. unfold static_attributes.
  destruct H as (H1 & H2 & H3 & H4 & H5 & H6 & H7 & H8 & H9 & H10).
  now rewrite H1, H2, H3, H4, H5, H6, H7, H8, H9, H10.
Qed.

Section Invariants.

Variable rt : Runtime.

(** A whole-registry loop whose body only emits alerts leaves the ledger and
    the audit log alone and appends unacknowledged alerts. *)
Lemma for_all_controls_logs (body : ControlRequirement -> M ControlRequirement)
    (w : World) :
  (forall c w, emits_alerts w (snd (body c w))) ->
  let w' := exec (for_all_controls body) w in
  audit_log w'.(self) = audit_log w.(self) /\
  incidents w'.(self) = incidents w.(self) /\
  exists new, alerts w'.(self) = alerts w.(self) ++ new /\
    Forall (fun a => a.(acknowledged) = false) new.
Proof.
  intros He w'.
  destruct (for_each_preserves body emits_alerts emits_alerts_refl
              emits_alerts_trans He (all_controls (self w)) w) as (new & E & F).
  fold (loop_end body w) in E.
  pose proof (for_all_controls_self body w) as S. rewrite E in S.
  subst w'. rewrite S. simpl. repeat split. now exists new.
Qed.

Lemma raise_incident_audit (prefix : string) (tpl : template) (w : World) :
  audit_log (self (snd (raise_incident rt prefix tpl w))) = audit_log w.(self).
Proof.
  pose proof (raise_incident_run rt prefix tpl w) as R.
  destruct tpl as [[[code ttl] affected] sev]. cbv zeta in R. rewrite R.
  cbn [snd]. unfold _apply_incident_impact.
  match goal with |- context [exec (for_all_controls ?b) ?w1] =>
    destruct (for_all_controls_logs b w1 (impact_body_emits rt _)) as (Ha & _) end.
  rewrite Ha. reflexivity.
Qed.

Lemma simulate_audit (w : World) :
  audit_log (self (exec (_simulate_incidents rt) w)) = audit_log w.(self).
Proof.
  unfold _simulate_incidents, exec.
  cbv [bind random choice ret]; cbv beta iota zeta.
  destruct (PrimFloat.ltb _ _); [|reflexivity].
  match goal with |- context [raise_incident rt ?p ?t ?w1] =>
    pose proof (raise_incident_audit p t w1) as K;
    destruct (raise_incident rt p t w1) as [i w2] end.
  cbn [snd] in *. rewrite K. reflexivity.
Qed.

Lemma resolve_audit (iid : string) (w : World) :
  audit_log (self (exec (resolve_incident rt iid) w)) = audit_log w.(self).
Proof.
  unfold exec at 1. rewrite resolve_incident_run.
  destruct (find_split _ _) as [[[pre incident] post]|]; [|reflexivity].
  cbn [snd].
  match goal with |- context [exec (for_all_controls ?b) ?w1] =>
    destruct (for_all_controls_logs b w1 (restore_body_emits rt _)) as (Ha & _) end.
  rewrite Ha. reflexivity.
Qed.

Lemma acknowledge_audit (aid : string) (w : World) :
  audit_log (self (exec (acknowledge_alert aid) w)) = audit_log w.(self).
Proof.
  unfold exec. rewrite acknowledge_alert_run.
  destruct (find_split _ _) as [[[pre a] post]|]; reflexivity.
Qed.

Lemma force_audit (w : World) :
  audit_log (self (exec (force_incident rt) w)) = audit_log w.(self).
Proof.
  unfold force_incident, exec. cbv [bind choice]; cbv beta iota zeta.
  match goal with |- context [raise_incident rt ?p ?t ?w1] =>
    pose proof (raise_incident_audit p t w1) as K end.
  rewrite K. reflexivity.
Qed.

Lemma monitor_tick_audit (w : World) :
  audit_log (self (exec (monitor_tick rt) w)) = audit_log w.(self).
Proof.
  unfold monitor_tick, exec. cbv [bind]; cbv beta iota zeta.
  destruct (for_all_controls_logs (drift_body rt) w (drift_body_emits rt))
    as (K1 & _).
  unfold exec in K1. fold (_check_compliance_drift rt) in K1.
  destruct (_check_compliance_drift rt w) as [[] w1]. cbn [snd] in K1.
  pose proof (simulate_audit w1) as K2. unfold exec in K2.
  destruct (_simulate_incidents rt w1) as [[] w2]. cbn [snd] in K2.
  destruct (for_all_controls_logs (overdue_body rt) w2 (overdue_body_emits rt))
    as (K3 & _).
  unfold exec in K3. fold (_check_overdue_reviews rt) in K3.
  congruence.
Qed.

Lemma quiet_operation_audit (o : operation) (w : World) :
  writes_audit o = false ->
  audit_log (self (perform rt o w)) = audit_log w.(self).
Proof.
  destruct o; simpl writes_audit; try discriminate; intros _; simpl perform.
  - apply (for_all_controls_logs (drift_body rt) w (drift_body_emits rt)).
  - apply simulate_audit.
  - apply (for_all_controls_logs (impact_body rt incident) w
             (impact_body_emits rt incident)).
  - apply (for_all_controls_logs (overdue_body rt) w (overdue_body_emits rt)).
  - apply resolve_audit.
  - apply acknowledge_audit.
  - apply force_audit.
  - apply monitor_tick_audit.
Qed.

Lemma first_control_audit (p : ControlRequirement -> bool)
    (body : ControlRequirement -> M ControlRequirement) (w : World) :
  (forall c w, exists e,
     audit_log (self (snd (body c w))) = audit_log w.(self) ++ [e]) ->
  let w' := exec (first_control p body) w in
  if result (first_control p body) w
  then exists e, audit_log w'.(self) = audit_log w.(self) ++ [e]
  else w' = w.
Proof.
  intros Hb. unfold first_control, exec, result.
  cbv [bind gets modify ret]; cbv beta iota zeta.
  destruct (find_split p (iso27001_controls (self w))) as [[[pre c] post]|].
  - destruct (Hb c w) as (e & He). destruct (body c w) as [c' w1]; simpl in *.
    now exists e.
  - destruct (find_split p (pci_dss_controls (self w))) as [[[pre c] post]|].
    + destruct (Hb c w) as (e & He). destruct (body c w) as [c' w1]; simpl in *.
      now exists e.
    + reflexivity.
Qed.

(** X1: through any history of operations the alert sink only grows: the
    alert at a position stays at that position with the same id, title,
    message, severity and timestamp, and an acknowledged alert stays
    acknowledged. *)
Theorem alerts_are_never_lost (os : list operation) (w : World) :
  let w' := perform_all rt os w in
  (List.length (alerts w.(self)) <= List.length (alerts w'.(self)))%nat /\
  forall i a, nth_error (alerts w.(self)) i = Some a ->
    exists a', nth_error (alerts w'.(self)) i = Some a' /\
      a'.(alert_id) = a.(alert_id) /\
      a'.(alert_title) = a.(alert_title) /\
      a'.(alert_message) = a.(alert_message) /\
      a'.(alert_severity) = a.(alert_severity) /\
      a'.(alert_timestamp) = a.(alert_timestamp) /\
      (a.(acknowledged) = true -> a'.(acknowledged) = true).
Proof.
  intro w'. destruct (perform_all_nothing_lost rt os w) as ((kept & new & E & F) & _).
  fold w' in E. split.
  - rewrite E, length_app, <- (Forall2_length F). lia.
  - intros i a Hi.
    destruct (kept_prefix_nth alert_kept _ _ _ _ E F i a Hi) as (a' & Ha' & K).
    exists a'. split; [exact Ha'|exact K].
Qed.

(** X2: through any history of operations the incident ledger only grows:
    the incident at a position stays at that position with the same id,
    title, description, affected controls, severity, occurrence time and
    duration, and a resolution timestamp, once set, is never cleared or
    changed. *)
Theorem incidents_are_never_lost (os : list operation) (w : World) :
  let w' := perform_all rt os w in
  (List.length (incidents w.(self)) <= List.length (incidents w'.(self)))%nat /\
  forall i inc, nth_error (incidents w.(self)) i = Some inc ->
    exists inc', nth_error (incidents w'.(self)) i = Some inc' /\
      inc'.(incident_id) = inc.(incident_id) /\
      inc'.(inc_title) = inc.(inc_title) /\
      inc'.(inc_description) = inc.(inc_description) /\
      inc'.(affected_controls) = inc.(affected_controls) /\
      inc'.(severity) = inc.(severity) /\
      inc'.(occurrence_time) = inc.(occurrence_time) /\
      inc'.(impact_duration_hours) = inc.(impact_duration_hours) /\
      (forall t, inc.(resolution_time) = Some t -> inc'.(resolution_time) = Some t).
Proof.
  intro w'.
  destruct (perform_all_nothing_lost rt os w) as (_ & (kept & new & E & F) & _).
  fold w' in E. split.
  - rewrite E, length_app, <- (Forall2_length F). lia.
  - intros i inc Hi.
    destruct (kept_prefix_nth incident_kept _ _ _ _ E F i inc Hi) as (inc' & H' & K).
    exists inc'. split; [exact H'|exact K].
Qed.

(** X3: the audit log is append-only through any history; only a status
    update and a solution implementation write to it, exactly one entry
    when they succeed and nothing (the world is unchanged) when they fail. *)
Theorem audit_log_only_grows :
  (forall os w, exists new,
     audit_log (self (perform_all rt os w)) = audit_log w.(self) ++ new) /\
  (forall o w, writes_audit o = false ->
     audit_log (self (perform rt o w)) = audit_log w.(self)) /\
  (forall cid st nts w,
     let w' := exec (update_control_status rt cid st nts) w in
     if result (update_control_status rt cid st nts) w
     then exists e, audit_log w'.(self) = audit_log w.(self) ++ [e]
     else w' = w) /\
  (forall cid solution_type w,
     let w' := exec (implement_solution rt cid solution_type) w in
     if result (implement_solution rt cid solution_type) w
     then exists e, audit_log w'.(self) = audit_log w.(self) ++ [e]
     else w' = w).
Proof.
  split; [|split; [|split]].
  - intros os w. now destruct (perform_all_nothing_lost rt os w) as (_ & _ & H & _).
  - apply quiet_operation_audit.
  - intros cid st nts w. unfold update_control_status.
    apply first_control_audit. intros c w0. eexists. reflexivity.
  - intros cid solution_type w. unfold implement_solution.
    apply first_control_audit. intros c w0.
    rewrite solution_body_run, create_alert_run. eexists. reflexivity.
Qed.

(** X4: no history of operations adds, removes, reorders or renames a
    control: each standard's list keeps, position by position, the id,
    title, description, standard, risk level, dates, team, evidence and
    dependencies of its controls; so a manager always holds the six controls
    of the seed catalog, three per standard. *)
Theorem registry_keeps_its_controls (os : list operation) :
  (forall w,
     let w' := perform_all rt os w in
     map static_attributes (iso27001_controls w'.(self)) =
       map static_attributes (iso27001_controls w.(self)) /\
     map static_attributes (pci_dss_controls w'.(self)) =
       map static_attributes (pci_dss_controls w.(self))) /\
  (let w' := perform_all rt os (startup rt) in
   map control_id (iso27001_controls w'.(self)) = ["A.5.1.1"; "A.6.1.1"; "A.8.1.1"] /\
   map control_id (pci_dss_controls w'.(self)) = ["PCI.1.1"; "PCI.2.1"; "PCI.3.4"]).
Proof.
  assert (H : forall w,
     map static_attributes (iso27001_controls (self (perform_all rt os w))) =
       map static_attributes (iso27001_controls w.(self)) /\
     map static_attributes (pci_dss_controls (self (perform_all rt os w))) =
       map static_attributes (pci_dss_controls w.(self))).
  { intro w. destruct (perform_all_nothing_lost rt os w) as (_ & _ & _ & Hi & Hp).
    split; now apply static_attributes_kept. }
  split; [exact H|].
  destruct (H (startup rt)) as (Hi & Hp). cbv zeta.
  assert (Ids : forall cs, map control_id cs =
                  map (fun t => fst (fst (fst (fst (fst (fst (fst (fst (fst t)))))))))
                    (map static_attributes cs)).
  { intro cs. rewrite map_map. reflexivity. }
  rewrite (Ids (iso27001_controls _)), (Ids (pci_dss_controls _)), Hi, Hp.
  split; reflexivity.
Qed.

End Invariants.


(** ** Status update and acknowledgment *)

Section Outcomes.

Variable rt : Runtime.

(** X5: [update_control_status] fails and changes nothing when no control
    carries the id; otherwise it succeeds on the first control carrying it,
    whatever its current status: that control gets the new status and the
    new notes, every other control is as it was, one audit entry records the
    old and the new status, and alerts and incidents are untouched. *)
Theorem update_control_status_outcome (cid : string) (st : ComplianceStatus)
    (nts : string) (w : World) :
  ((forall c, In c (all_controls w.(self)) -> c.(control_id) <> cid) ->
   update_control_status rt cid st nts w = (false, w)) /\
  (forall pre c post,
     all_controls w.(self) = pre ++ c :: post ->
     (forall y, In y pre -> y.(control_id) <> cid) ->
     c.(control_id) = cid ->
     let w' := exec (update_control_status rt cid st nts) w in
     result (update_control_status rt cid st nts) w = true /\
     all_controls w'.(self) = pre ++ set_notes nts (set_status st c) :: post /\
     audit_log w'.(self) =
       audit_log w.(self) ++
         [status_update (rt.(isoformat) (rt.(datetime_now) w.(calls).(n_now)))
            cid (ComplianceStatus_value c.(status)) (ComplianceStatus_value st) nts] /\
     alerts w'.(self) = alerts w.(self) /\
     incidents w'.(self) = incidents w.(self)).
Proof.
  set (found := fun c : ControlRequirement => String.eqb c.(control_id) cid).
  assert (Hk : keeps_registry
                 (fun c => ts <- now rt ;;
                    modify (fun g => set_audit_log
                      (g.(audit_log) ++
                         [status_update (rt.(isoformat) ts) cid
                            (ComplianceStatus_value c.(status))
                            (ComplianceStatus_value st) nts]) g) ;;;
                    ret (set_notes nts (set_status st c))))
    by (intros c w0; now split).
  pose proof (first_control_run found _ w Hk) as R.
  split.
  - intro H.
    replace (find_split found (all_controls (self w)))
      with (@None (list ControlRequirement * ControlRequirement *
                   list ControlRequirement)) in R; [exact R|].
    symmetry. apply find_split_none. intros x Hx. unfold found.
    apply String.eqb_neq. now apply H.
  - intros pre c post Hall Hpre Hid w'.
    replace (find_split found (all_controls (self w)))
      with (Some (pre, c, post)) in R.
    2:{ symmetry. apply find_split_some. repeat split; [assumption| |].
        - unfold found. now apply String.eqb_eq.
        - intros y Hy. unfold found. apply String.eqb_neq. now apply Hpre. }
    cbv zeta in R. destruct R as (Hres & Hreg & Haud & Hinc & Hal & _).
    subst w'. unfold update_control_status. fold found.
    repeat split; assumption.
Qed.

(** X6: [acknowledge_alert] fails and changes nothing when no alert carries
    the id; otherwise it succeeds and sets the flag of the first alert
    carrying it, so that the active alerts afterwards are the active alerts
    before and after that alert, in order, and nothing else changes. *)
Theorem acknowledge_alert_outcome (aid : string) (w : World) :
  ((forall a, In a (alerts w.(self)) -> a.(alert_id) <> aid) ->
   acknowledge_alert aid w = (false, w)) /\
  (forall pre a post,
     alerts w.(self) = pre ++ a :: post ->
     (forall y, In y pre -> y.(alert_id) <> aid) ->
     a.(alert_id) = aid ->
     let w' := exec (acknowledge_alert aid) w in
     result (acknowledge_alert aid) w = true /\
     alerts w'.(self) = pre ++ set_acknowledged true a :: post /\
     result get_active_alerts w' =
       filter (fun x => negb x.(acknowledged)) pre ++
       filter (fun x => negb x.(acknowledged)) post /\
     all_controls w'.(self) = all_controls w.(self) /\
     incidents w'.(self) = incidents w.(self) /\
     audit_log w'.(self) = audit_log w.(self) /\
     calls w' = calls w).
Proof.
  split.
  - intro H. rewrite acknowledge_alert_run.
    replace (find_split _ (alerts (self w)))
      with (@None (list Alert * Alert * list Alert)); [reflexivity|].
    symmetry. apply find_split_none. intros x Hx.
    apply String.eqb_neq. now apply H.
  - intros pre a post Hal Hpre Hid w'. subst w'. unfold exec, result.
    rewrite acknowledge_alert_run.
    replace (find_split _ (alerts (self w))) with (Some (pre, a, post)).
    2:{ symmetry. apply find_split_some. repeat split; [assumption| |].
        - now apply String.eqb_eq.
        - intros y Hy. apply String.eqb_neq. now apply Hpre. }
    simpl. repeat split. rewrite filter_app. reflexivity.
Qed.

End Outcomes.


(** ** Incident creation and the review check *)

Section Creation.

Variable rt : Runtime.

Lemma raise_incident_effect (prefix : string) (tpl : template) (w : World) :
  let incident := incident_of prefix tpl (rt.(time_time) w.(calls).(n_time))
                    (rt.(datetime_now) w.(calls).(n_now)) in
  let w' := snd (raise_incident rt prefix tpl w) in
  fst (raise_incident rt prefix tpl w) = incident /\
  incidents w'.(self) = incidents w.(self) ++ [incident] /\
  all_controls w'.(self) = map (impact_control incident) (all_controls w.(self)) /\
  audit_log w'.(self) = audit_log w.(self) /\
  exists new, alerts w'.(self) = alerts w.(self) ++ new /\
    Forall (fun a => a.(acknowledged) = false) new.
Proof.
  pose proof (raise_incident_run rt prefix tpl w) as R.
  destruct tpl as [[[code ttl] affected] sev]. cbv zeta in R.
  unfold incident_of. cbv zeta. rewrite R. cbn [fst snd].
  split; [reflexivity|].
  match goal with |- context [exec (_apply_incident_impact rt ?i) ?w1] =>
    destruct (for_all_controls_logs (impact_body rt i) w1 (impact_body_emits rt i))
      as (Ha & Hi & new & Hn & Hf);
    fold (_apply_incident_impact rt i) in Ha, Hi, Hn end.
  rewrite impact_registry, Ha, Hi, Hn. repeat split. now exists new.
Qed.

Lemma incident_of_open (prefix : string) (tpl : template) (t : Z) (o : datetime) :
  resolution_time (incident_of prefix tpl t o) = None.
Proof. destruct tpl as [[[code ttl] affected] sev]. reflexivity. Qed.

Lemma simulate_incidents_effect (w : World) :
  let w' := exec (_simulate_incidents rt) w in
  if PrimFloat.ltb (rt.(random_random) w.(calls).(n_random)) 0.15%float
  then exists tpl incident, In tpl simulated_templates /\
         incident = incident_of "Automated incident simulation: " tpl
                      (rt.(time_time) w.(calls).(n_time))
                      (rt.(datetime_now) w.(calls).(n_now)) /\
         incident.(resolution_time) = None /\
         incidents w'.(self) = incidents w.(self) ++ [incident] /\
         all_controls w'.(self) =
           map (impact_control incident) (all_controls w.(self))
  else w'.(self) = w.(self).
Proof.
  unfold _simulate_incidents, exec.
  cbv [bind random choice ret]; cbv beta iota zeta.
  destruct (PrimFloat.ltb _ _); [|reflexivity].
  match goal with |- context [raise_incident rt ?p ?t ?w1] =>
    remember t as tpl eqn:Et;
    destruct (raise_incident_effect p tpl w1) as (Hf & Hi & Hr & _);
    destruct (raise_incident rt p tpl w1) as [i w2] end.
  cbn [fst snd self calls n_now n_time] in *.
  exists tpl, i. subst i.
  split; [|split; [reflexivity|split; [apply incident_of_open|split; assumption]]].
  subst tpl. apply nth_In. apply Nat.mod_upper_bound. discriminate.
Qed.

(** X7: every incident of the simulator or of [force_incident] enters the
    ledger open, as its last entry, built from one template of the catalog
    with the second of [time.time()] as id suffix, and its impact is applied
    to the registry; the simulator does so only when its draw is below 0.15
    and otherwise leaves the manager untouched; [force_incident] always does
    and returns that incident. *)
Theorem incidents_enter_the_ledger_open (w : World) :
  (let w' := exec (force_incident rt) w in
   let incident := result (force_incident rt) w in
   (exists tpl, In tpl forced_templates /\
      incident = incident_of "Manually triggered incident: " tpl
                   (rt.(time_time) w.(calls).(n_time))
                   (rt.(datetime_now) w.(calls).(n_now))) /\
   incident.(resolution_time) = None /\
   incidents w'.(self) = incidents w.(self) ++ [incident] /\
   all_controls w'.(self) = map (impact_control incident) (all_controls w.(self))) /\
  (let w' := exec (_simulate_incidents rt) w in
   if PrimFloat.ltb (rt.(random_random) w.(calls).(n_random)) 0.15%float
   then exists tpl incident, In tpl simulated_templates /\
          incident = incident_of "Automated incident simulation: " tpl
                       (rt.(time_time) w.(calls).(n_time))
                       (rt.(datetime_now) w.(calls).(n_now)) /\
          incident.(resolution_time) = None /\
          incidents w'.(self) = incidents w.(self) ++ [incident] /\
          all_controls w'.(self) =
            map (impact_control incident) (all_controls w.(self))
   else w'.(self) = w.(self)).
Proof.
  split; [|apply simulate_incidents_effect].
  unfold force_incident, exec, result. cbv [bind choice]; cbv beta iota zeta.
  match goal with |- context [raise_incident rt ?p ?t ?w1] =>
    remember t as tpl eqn:Et;
    destruct (raise_incident_effect p tpl w1) as (Hf & Hi & Hr & _) end.
  cbn [self calls n_now n_time] in *. rewrite Hf.
  split; [|split; [apply incident_of_open|split; assumption]].
  exists tpl. split; [|reflexivity]. subst tpl.
  apply nth_In. apply Nat.mod_upper_bound. discriminate.
Qed.

(** X8: a monitoring tick (and so the dashboard's [trigger_simulation])
    adds at most one incident to the ledger and changes none of the earlier
    ones; [trigger_simulation] leaves the world of a tick and answers with
    the numbers of active alerts and of incidents in it. *)
Theorem tick_adds_at_most_one_incident (w : World) :
  let w' := exec (monitor_tick rt) w in
  (incidents w'.(self) = incidents w.(self) \/
   exists incident,
     incidents w'.(self) = incidents w.(self) ++ [incident] /\
     incident.(resolution_time) = None) /\
  Dashboard.trigger_simulation rt w =
    (List.length (filter (fun a => negb a.(acknowledged)) (alerts w'.(self))),
     List.length (incidents w'.(self)), w').
Proof.
  cbv zeta. unfold Dashboard.trigger_simulation, monitor_tick, exec.
  cbv [bind get_active_alerts gets ret]; cbv beta iota zeta.
  destruct (for_all_controls_logs (drift_body rt) w (drift_body_emits rt))
    as (_ & K1 & _).
  unfold exec in K1. fold (_check_compliance_drift rt) in K1.
  destruct (_check_compliance_drift rt w) as [[] w1]. cbn [snd] in K1.
  assert (K2 : incidents (self (snd (_simulate_incidents rt w1))) =
                 incidents (self w1) \/
               exists incident,
                 incidents (self (snd (_simulate_incidents rt w1))) =
                   incidents (self w1) ++ [incident] /\
                 incident.(resolution_time) = None).
  { pose proof (simulate_incidents_effect w1) as E. cbv zeta in E.
    unfold exec in E. destruct (PrimFloat.ltb _ _).
    - destruct E as (tpl & i & _ & _ & Ho & Hi & _). right. now exists i.
    - left. now rewrite E. }
  destruct (_simulate_incidents rt w1) as [[] w2]. cbn [snd] in K2.
  destruct (for_all_controls_logs (overdue_body rt) w2 (overdue_body_emits rt))
    as (_ & K3 & _).
  unfold exec in K3. fold (_check_overdue_reviews rt) in K3.
  destruct (_check_overdue_reviews rt w2) as [[] w3]. cbn [snd fst] in *.
  split; [|reflexivity].
  rewrite K3, <- K1. exact K2.
Qed.

End Creation.


(** ** The review check and incident resolution *)

Lemma emits_only_refl (P : Alert -> Prop) (w : World) : emits_only P w w.
Proof.
  exists []. split; [|constructor]. rewrite app_nil_r. now destruct (self w).
Qed.

Lemma emits_only_trans (P : Alert -> Prop) (a b c : World) :
  emits_only P a b -> emits_only P b c -> emits_only P a c.
Proof.
  intros (n1 & E1 & F1) (n2 & E2 & F2). exists (n1 ++ n2).
  split; [|now apply Forall_app]. rewrite E2, E1. simpl.
  now rewrite app_assoc.
Qed.

Section Reviews.

Variable rt : Runtime.

Lemma overdue_body_emits_medium (c : ControlRequirement) (w : World) :
  emits_only (fun a => a.(alert_severity) = "medium" /\ a.(acknowledged) = false)
    w (snd (overdue_body rt c w)).
Proof.
  rewrite overdue_body_run. destruct (String.eqb _ _); [apply emits_only_refl|].
  destruct (strptime rt _); [|apply emits_only_refl].
  destruct (_ <? _).
  - rewrite create_alert_run. cbn [snd self]. eexists. split; [reflexivity|].
    constructor; [split; reflexivity|constructor].
  - cbn [snd]. exists []. split; [|constructor].
    rewrite app_nil_r. simpl. now destruct (self w).
Qed.

(** X9: the review check never changes a control, an incident or the audit
    log, and every alert it appends is an unacknowledged medium-severity
    alert.  A control whose review date is empty or does not parse is passed
    over without even reading the clock; for a control whose date parses the
    clock is read and, exactly when the date is strictly before that reading,
    one alert naming the control is appended. *)
Theorem overdue_review_check (w : World) :
  let cs := all_controls w.(self) in
  let w' := exec (_check_overdue_reviews rt) w in
  all_controls w'.(self) = cs /\
  incidents w'.(self) = incidents w.(self) /\
  audit_log w'.(self) = audit_log w.(self) /\
  (exists new, alerts w'.(self) = alerts w.(self) ++ new /\
     Forall (fun a => a.(alert_severity) = "medium" /\ a.(acknowledged) = false) new) /\
  (forall i c, nth_error cs i = Some c ->
     let wi := reached (overdue_body rt) cs i w in
     let wi' := reached (overdue_body rt) cs (S i) w in
     match review_date rt c with
     | Some date =>
         if date <? rt.(datetime_now) wi.(calls).(n_now)
         then exists a, alerts wi'.(self) = alerts wi.(self) ++ [a] /\
                a.(alert_title) = "Overdue review: " +++ c.(control_id) /\
                a.(alert_severity) = "medium" /\
                a.(acknowledged) = false
         else wi' = after_clock wi
     | None => wi' = wi
     end).
Proof.
  intros cs w'. subst w'. unfold _check_overdue_reviews.
  pose proof (for_all_controls_self (overdue_body rt) w) as Hself.
  destruct (for_each_preserves (overdue_body rt) _
              (emits_only_refl _) (emits_only_trans _)
              overdue_body_emits_medium (all_controls (self w)) w)
    as (new & E & F).
  fold (loop_end (overdue_body rt) w) in E. rewrite E in Hself.
  split; [|split; [|split; [|split]]].
  - rewrite for_all_controls_registry.
    rewrite (for_each_map (overdue_body rt) (fun c => c)
               (overdue_body_control rt)).
    apply map_id.
  - now rewrite Hself.
  - now rewrite Hself.
  - exists new. split; [now rewrite Hself|exact F].
  - intros i c Hc.
    rewrite (reached_next (overdue_body rt) cs i c w Hc).
    rewrite overdue_body_run. unfold review_date.
    destruct (String.eqb _ _); [reflexivity|].
    destruct (strptime rt _); [|reflexivity].
    destruct (_ <? _); [|reflexivity].
    rewrite create_alert_run. cbn [snd self alerts set_alerts].
    eexists. split; [reflexivity|]. repeat split.
Qed.

(** The clock only moves forward through the restoring loop. *)
Lemma restore_loop_clock (incident : ComplianceIncident)
    (cs : list ControlRequirement) (w : World) :
  (n_now (calls w) <=
   n_now (calls (snd (for_each (restore_body rt incident) cs w))))%nat.
Proof.
  apply (for_each_preserves (restore_body rt incident)
           (fun a b => (n_now (calls a) <= n_now (calls b))%nat)).
  - intro a. lia.
  - intros a b c Hab Hbc. lia.
  - intros c a. rewrite restore_body_run.
    destruct (restore_hit incident c); [|cbn [snd]; lia].
    rewrite create_alert_run. cbn [snd calls n_now after_clock]. lia.
Qed.

(** X10: [resolve_incident] fails and changes nothing when the ledger holds
    no open incident under the id (the id is unknown, or every incident
    carrying it is resolved).  Otherwise it succeeds on the first open
    incident carrying the id: that incident is stamped with the clock
    reading and nothing else in the ledger changes, the audit log is
    untouched, every control that incident affects and that is non-compliant
    becomes compliant with the clock reading of its own turn in the loop, a
    reading taken after the stamp of the incident, as last-assessment
    timestamp, and every other control is as it was. *)
Theorem resolve_incident_outcome (iid : string) (w : World) :
  ((forall x, In x (incidents w.(self)) -> x.(incident_id) = iid ->
      x.(resolution_time) <> None) ->
   resolve_incident rt iid w = (false, w)) /\
  (forall pre incident post,
     incidents w.(self) = pre ++ incident :: post ->
     (forall y, In y pre -> y.(incident_id) = iid -> y.(resolution_time) <> None) ->
     incident.(incident_id) = iid ->
     incident.(resolution_time) = None ->
     let w' := exec (resolve_incident rt iid) w in
     let stamp := rt.(datetime_now) w.(calls).(n_now) in
     result (resolve_incident rt iid) w = true /\
     incidents w'.(self) = pre ++ set_resolution_time (Some stamp) incident :: post /\
     audit_log w'.(self) = audit_log w.(self) /\
     forall i c, nth_error (all_controls w.(self)) i = Some c ->
       let wi := reached (restore_body rt (set_resolution_time (Some stamp) incident))
                   (all_controls w.(self)) i (stamped rt pre incident post w) in
       (n_now (calls w) < n_now (calls wi))%nat /\
       nth_error (all_controls w'.(self)) i =
         Some (if str_in c.(control_id) incident.(affected_controls) &&
                  status_eqb c.(status) NON_COMPLIANT
               then set_last_assessment_date
                      (Some (rt.(datetime_now) wi.(calls).(n_now)))
                      (set_status COMPLIANT c)
               else c)).
Proof.
  split; [apply resolve_incident_none_open|].
  intros pre incident post Hl Hpre Hid Hopen w' stamp.
  destruct (resolve_incident_first_open rt iid w pre post incident Hl Hpre Hid Hopen)
    as (Hres & Hinc & Haud & Hreg).
  split; [exact Hres|]. split; [exact Hinc|]. split; [exact Haud|].
  intros i c Hc wi. split.
  - subst wi. unfold reached.
    pose proof (restore_loop_clock (set_resolution_time (Some stamp) incident)
                  (firstn i (all_controls (self w)))
                  (stamped rt pre incident post w)) as K.
    unfold stamped at 1 in K. cbn [calls n_now after_clock] in K. lia.
  - specialize (Hreg i c Hc). cbv zeta in Hreg. fold stamp in Hreg. fold wi in Hreg.
    destruct (str_in _ _ && status_eqb _ _); exact (proj1 Hreg).
Qed.

End Reviews.


(** ** Operations in sequence *)

Section Sequences.

Variable rt : Runtime.

Lemma restore_registry (incident : ComplianceIncident) (w : World) :
  forall i c, nth_error (all_controls w.(self)) i = Some c ->
    exists c', nth_error
                 (all_controls (self (exec (for_all_controls (restore_body rt incident)) w)))
                 i = Some c' /\
      c'.(control_id) = c.(control_id) /\
      c'.(incident_count) = c.(incident_count) /\
      c'.(status) = (if restore_hit incident c then COMPLIANT else c.(status)) /\
      (restore_hit incident c = false -> c' = c).
Proof.
  intros i c Hc. rewrite for_all_controls_registry.
  rewrite (for_each_nth _ _ _ _ _ Hc), restore_body_run.
  destruct (restore_hit incident c); eexists; (split; [reflexivity|]);
    repeat split; discriminate.
Qed.

(** X11: forcing an incident and then resolving its id, in a ledger where
    no open incident already carries that id, resolves that very incident
    and leaves every control it affects with one more incident counted and
    back in compliance if it was compliant or non-compliant before, in its
    old status if it was in progress or not assessed; every other control is
    as it was. *)
Theorem forced_incident_resolves (w : World) :
  let incident := result (force_incident rt) w in
  let w1 := exec (force_incident rt) w in
  let w2 := exec (resolve_incident rt incident.(incident_id)) w1 in
  (forall x, In x (incidents w.(self)) ->
     x.(incident_id) = incident.(incident_id) -> x.(resolution_time) <> None) ->
  result (resolve_incident rt incident.(incident_id)) w1 = true /\
  incidents w2.(self) =
    incidents w.(self) ++
      [set_resolution_time (Some (rt.(datetime_now) w1.(calls).(n_now))) incident] /\
  forall i c, nth_error (all_controls w.(self)) i = Some c ->
    exists c2, nth_error (all_controls w2.(self)) i = Some c2 /\
      if str_in c.(control_id) incident.(affected_controls)
      then c2.(incident_count) = c.(incident_count) + 1 /\
           c2.(status) = match c.(status) with
                         | COMPLIANT | NON_COMPLIANT => COMPLIANT
                         | other => other
                         end
      else c2 = c.
Proof.
  intros incident w1 w2 Hfree.
  assert (Hforce : incident.(resolution_time) = None /\
                   incidents w1.(self) = incidents w.(self) ++ [incident] /\
                   all_controls w1.(self) =
                     map (impact_control incident) (all_controls w.(self))).
  { subst incident w1. unfold force_incident, exec, result.
    cbv [bind choice]; cbv beta iota zeta.
    match goal with |- context [raise_incident rt ?p ?t ?w0] =>
      remember t as tpl eqn:Et;
      destruct (raise_incident_effect rt p tpl w0) as (Hf & Hi & Hr & _) end.
    cbn [self calls n_now n_time] in *. rewrite Hf.
    split; [apply incident_of_open|split; assumption]. }
  destruct Hforce as (Hopen & Hled & Hreg).
  assert (Hfind : find_split (is_open_with_id incident.(incident_id))
                    (incidents (self w1)) = Some (incidents (self w), incident, [])).
  { apply find_split_some. repeat split; [assumption| |].
    - unfold is_open_with_id. now rewrite String.eqb_refl, Hopen.
    - intros y Hy. unfold is_open_with_id.
      destruct (String.eqb_spec (incident_id y) (incident_id incident)) as [E|E];
        [|reflexivity].
      specialize (Hfree y Hy E). destruct (resolution_time y); [reflexivity|congruence]. }
  pose proof (resolve_incident_run rt incident.(incident_id) w1) as R.
  rewrite Hfind in R.
  split; [unfold result; now rewrite R|].
  assert (Hw2 : w2 = snd (resolve_incident rt incident.(incident_id) w1))
    by reflexivity.
  rewrite R in Hw2. cbn [snd] in Hw2.
  split.
  - rewrite Hw2.
    match goal with |- context [exec (for_all_controls ?b) ?w0] =>
      destruct (for_all_controls_logs b w0 (restore_body_emits rt _))
        as (_ & Hi & _) end.
    rewrite Hi. reflexivity.
  - intros i c Hc.
    assert (Hc1 : nth_error (all_controls (self w1)) i =
                  Some (impact_control incident c))
      by (rewrite Hreg, nth_error_map, Hc; reflexivity).
    rewrite Hw2.
    match goal with |- context [exec (for_all_controls (restore_body rt ?inc')) ?w0] =>
      destruct (restore_registry inc' w0 i (impact_control incident c) Hc1)
        as (c2 & H2 & Hid & Hcnt & Hst & Hsame) end.
    exists c2. split; [exact H2|].
    unfold restore_hit in Hst, Hsame. simpl affected_controls in Hst, Hsame.
    unfold impact_control in *.
    destruct (str_in (control_id c) (affected_controls incident)) eqn:Haff.
    + split; [rewrite Hcnt; destruct (status_eqb (status c) COMPLIANT); reflexivity|].
      rewrite Hst.
      destruct (status c) eqn:Es; simpl; rewrite ?Haff; simpl; rewrite ?Es; reflexivity.
    + apply Hsame. simpl. now rewrite Haff.
Qed.

End Sequences.


(** ** Solutions *)

Section Solutions.

Variable rt : Runtime.

(** X12: a successful [implement_solution] of any type, listed in the
    table of solutions or not, writes the note of the type (the generic one
    for a type not listed), appends one audit entry and one unacknowledged
    low-severity alert naming the control, and leaves the ledger alone;
    "training" multiplies the drift factor by 0.8 and keeps the automation
    level, "technology" sets the level to min(1.0, level + 0.4) and
    multiplies the drift factor by 0.6, and every type other than these and
    "automation" keeps both. *)
Theorem implement_solution_records (cid solution_type : string) (w : World)
    (pre post : list ControlRequirement) (c : ControlRequirement) :
  all_controls w.(self) = pre ++ c :: post ->
  (forall y, In y pre -> y.(control_id) = cid ->
     y.(status) <> NON_COMPLIANT /\ y.(status) <> IN_PROGRESS) ->
  c.(control_id) = cid ->
  c.(status) = NON_COMPLIANT \/ c.(status) = IN_PROGRESS ->
  let w' := exec (implement_solution rt cid solution_type) w in
  let desc := dict_get solutions solution_type "Generic solution implemented" in
  (exists c',
     all_controls w'.(self) = pre ++ c' :: post /\
     c'.(status) = COMPLIANT /\
     c'.(notes) = "Solution: " +++ desc /\
     (solution_type = "training" ->
        c'.(automation_level) = c.(automation_level) /\
        c'.(compliance_drift_factor) = (c.(compliance_drift_factor) * 0.8)%float) /\
     (solution_type = "technology" ->
        c'.(automation_level) = min_1 (c.(automation_level) + 0.4)%float /\
        c'.(compliance_drift_factor) = (c.(compliance_drift_factor) * 0.6)%float) /\
     (solution_type <> "automation" -> solution_type <> "training" ->
      solution_type <> "technology" ->
        c'.(automation_level) = c.(automation_level) /\
        c'.(compliance_drift_factor) = c.(compliance_drift_factor))) /\
  (~ In solution_type (map fst solutions) -> desc = "Generic solution implemented") /\
  audit_log w'.(self) =
    audit_log w.(self) ++
      [solution_implemented
         (rt.(isoformat) (rt.(datetime_now) (S w.(calls).(n_now))))
         cid solution_type desc] /\
  (exists a, alerts w'.(self) = alerts w.(self) ++ [a] /\
     a.(alert_title) = "Solution implemented: " +++ cid /\
     a.(alert_severity) = "low" /\
     a.(acknowledged) = false) /\
  incidents w'.(self) = incidents w.(self).
Proof.
  intros Hall Hpre Hid Hst w' desc. subst w'. unfold implement_solution.
  pose proof (first_control_run (needs_solution cid)
                (solution_body rt cid solution_type) w
                (solution_body_keeps rt cid solution_type)) as R.
  replace (find_split (needs_solution cid) (all_controls (self w)))
    with (Some (pre, c, post)) in R.
  2:{ symmetry. apply find_split_some. repeat split; [assumption| |].
      - now apply needs_solution_true.
      - intros y Hy. apply needs_solution_false. now apply Hpre. }
  cbv zeta in R. destruct R as (_ & Hreg & Haud & Hinc & Hal & _).
  rewrite solution_body_run in Hreg, Haud, Hinc, Hal.
  rewrite create_alert_run in Haud, Hinc, Hal. cbn [fst snd] in *.
  split; [|split; [|split; [|split]]].
  - eexists. split; [exact Hreg|]. unfold solved, improve.
    destruct (String.eqb_spec solution_type "automation") as [E1|E1].
    { subst solution_type. simpl. repeat split; try discriminate; congruence. }
    destruct (String.eqb_spec solution_type "training") as [E2|E2].
    { subst solution_type. simpl. repeat split; try discriminate; congruence. }
    destruct (String.eqb_spec solution_type "technology") as [E3|E3].
    { subst solution_type. simpl. repeat split; try discriminate; congruence. }
    simpl. repeat split; congruence.
  - subst desc. unfold solutions. cbn [dict_get map fst]. intro Hn.
    repeat match goal with
    | |- context [String.eqb ?k solution_type] =>
        let E := fresh "E" in
        destruct (String.eqb_spec k solution_type) as [E|E];
        [exfalso; apply Hn; rewrite <- E; simpl; tauto|]
    end.
    reflexivity.
  - rewrite Haud. reflexivity.
  - rewrite Hal. simpl. eexists. split; [reflexivity|].
    rewrite Hid. repeat split.
  - rewrite Hinc. reflexivity.
Qed.

(** X13: in a registry whose control ids are pairwise distinct, as they are
    in every manager, a control on which [implement_solution] has just
    succeeded is compliant, so a second call on the same id, with any
    solution type, fails and changes nothing. *)
Theorem implement_solution_once (cid solution_type again : string) (w : World) :
  NoDup (map control_id (all_controls w.(self))) ->
  result (implement_solution rt cid solution_type) w = true ->
  let w' := exec (implement_solution rt cid solution_type) w in
  implement_solution rt cid again w' = (false, w').
Proof.
  intros Hnd Hres w'. subst w'.
  pose proof (first_control_run (needs_solution cid)
                (solution_body rt cid solution_type) w
                (solution_body_keeps rt cid solution_type)) as R.
  fold (implement_solution rt cid solution_type) in R.
  destruct (find_split (needs_solution cid) (all_controls (self w)))
    as [[[pre c] post]|] eqn:E.
  2:{ unfold result in Hres. rewrite R in Hres. discriminate. }
  cbv zeta in R. destruct R as (_ & Hreg & _).
  apply find_split_some in E as (Hall & Hc & _).
  apply needs_solution_true in Hc as (Hid & _).
  rewrite solution_body_run in Hreg. cbn [fst] in Hreg.
  set (w' := exec (implement_solution rt cid solution_type) w) in *.
  pose proof (first_control_run (needs_solution cid)
                (solution_body rt cid again) w'
                (solution_body_keeps rt cid again)) as R'.
  fold (implement_solution rt cid again) in R'.
  replace (find_split (needs_solution cid) (all_controls (self w')))
    with (@None (list ControlRequirement * ControlRequirement *
                 list ControlRequirement)) in R'; [exact R'|].
  symmetry. apply find_split_none. intros x Hx.
  apply needs_solution_false. intro Hxid.
  rewrite Hreg in Hx. rewrite Hall, map_app in Hnd. simpl in Hnd.
  apply NoDup_remove_2 in Hnd.
  apply in_app_or in Hx as [Hx|[Hx|Hx]].
  - exfalso. apply Hnd, in_or_app. left.
    rewrite Hid, <- Hxid. now apply in_map.
  - subst x. unfold solved, improve.
    destruct (String.eqb solution_type "automation");
      [|destruct (String.eqb solution_type "training");
        [|destruct (String.eqb solution_type "technology")]];
      simpl; split; discriminate.
  - exfalso. apply Hnd, in_or_app. right.
    rewrite Hid, <- Hxid. now apply in_map.
Qed.

End Solutions.


(** ** Drift and automation *)

Lemma mul_zero_or_nan_l (x y : float) : zero_or_nan x -> zero_or_nan (x * y).
Proof.
  unfold zero_or_nan. rewrite mul_spec.
  destruct (Prim2SF x), (Prim2SF y); simpl; auto; contradiction.
Qed.

Lemma mul_zero_or_nan_r (x y : float) : zero_or_nan y -> zero_or_nan (x * y).
Proof.
  unfold zero_or_nan. rewrite mul_spec.
  destruct (Prim2SF x), (Prim2SF y); simpl; auto; contradiction.
Qed.

(** A draw that is not negative is not below a zero or a NaN. *)
Lemma ltb_zero_or_nan (r x : float) :
  zero_or_nan x -> PrimFloat.ltb r 0 = false -> PrimFloat.ltb r x = false.
Proof.
  unfold zero_or_nan. rewrite !ltb_spec.
  change (Prim2SF 0) with (S754_zero false).
  destruct (Prim2SF x), (Prim2SF r); simpl; auto; try contradiction.
Qed.

Lemma min_1_le_1 (x : float) : PrimFloat.leb (min_1 x) 1 = true.
Proof.
  unfold min_1. destruct (PrimFloat.ltb x 1) eqn:E; [|reflexivity].
  rewrite ltb_spec in E. rewrite leb_spec. unfold SFltb in E. unfold SFleb.
  destruct (SFcompare (Prim2SF x) (Prim2SF 1)) as [[]|]; try discriminate.
  reflexivity.
Qed.

Section Drift.

Variable rt : Runtime.

(** X14: with a random source that never draws a negative value, a drift
    check leaves a control exactly as it is, and appends no alert for it,
    whenever the control is fully automated (automation level 1.0), or has
    drift factor 0.0, or was last assessed less than a day before the clock
    reading of its turn. *)
Theorem never_drifts (w : World) (i : nat) (c : ControlRequirement) :
  (forall k, PrimFloat.ltb (rt.(random_random) k) 0 = false) ->
  let cs := all_controls w.(self) in
  let wi := reached (drift_body rt) cs i w in
  let wi' := reached (drift_body rt) cs (S i) w in
  nth_error cs i = Some c ->
  c.(automation_level) = 1%float \/
  c.(compliance_drift_factor) = 0%float \/
  (exists last, c.(last_assessment_date) = Some last /\
     0 <= rt.(datetime_now) wi.(calls).(n_now) - last < 86400000000) ->
  nth_error (all_controls (self (exec (_check_compliance_drift rt) w))) i = Some c /\
  alerts wi'.(self) = alerts wi.(self).
Proof.
  intros Hr cs wi wi' Hc Hcase.
  assert (Hreg : nth_error (all_controls (self (exec (_check_compliance_drift rt) w))) i =
                 Some (fst (drift_body rt c wi))).
  { subst wi. unfold _check_compliance_drift.
    rewrite for_all_controls_registry. now apply for_each_nth. }
  assert (Hnext : wi' = snd (drift_body rt c wi))
    by (subst wi wi'; now apply reached_next).
  rewrite Hreg, Hnext, drift_body_run.
  destruct (status_eqb _ _); [|split; reflexivity].
  destruct (last_assessment_date c) as [last|] eqn:El; [|split; reflexivity].
  cbv zeta.
  assert (Hdead : zero_or_nan
            (drift_probability c
               (timedelta_days (datetime_now rt (n_now (calls wi))) last) * 0.3)).
  { apply mul_zero_or_nan_l. unfold drift_probability.
    destruct Hcase as [Ha|[Hd|(last' & Hl & Hday)]].
    - apply mul_zero_or_nan_r. rewrite Ha. exact I.
    - apply mul_zero_or_nan_l, mul_zero_or_nan_l. rewrite Hd. exact I.
    - apply mul_zero_or_nan_l, mul_zero_or_nan_r.
      injection Hl as <-.
      replace (timedelta_days (datetime_now rt (n_now (calls wi))) last) with 0.
      + exact I.
      + unfold timedelta_days, microseconds_per_day. symmetry.
        apply Z.div_small. exact Hday. }
  rewrite (ltb_zero_or_nan _ _ Hdead (Hr _)). split; reflexivity.
Qed.

(** X15: whatever its value before, even above 1.0 or not a number, the
    automation level of a control is at most 1.0 after a successful
    "automation" or "technology" solution. *)
Theorem automation_level_capped (cid solution_type : string) (w : World)
    (pre post : list ControlRequirement) (c : ControlRequirement) :
  all_controls w.(self) = pre ++ c :: post ->
  (forall y, In y pre -> y.(control_id) = cid ->
     y.(status) <> NON_COMPLIANT /\ y.(status) <> IN_PROGRESS) ->
  c.(control_id) = cid ->
  c.(status) = NON_COMPLIANT \/ c.(status) = IN_PROGRESS ->
  solution_type = "automation" \/ solution_type = "technology" ->
  exists c',
    all_controls (self (exec (implement_solution rt cid solution_type) w)) =
      pre ++ c' :: post /\
    PrimFloat.leb c'.(automation_level) 1 = true.
Proof.
  intros Hall Hpre Hid Hst Htype. unfold implement_solution.
  pose proof (first_control_run (needs_solution cid)
                (solution_body rt cid solution_type) w
                (solution_body_keeps rt cid solution_type)) as R.
  replace (find_split (needs_solution cid) (all_controls (self w)))
    with (Some (pre, c, post)) in R.
  2:{ symmetry. apply find_split_some. repeat split; [assumption| |].
      - now apply needs_solution_true.
      - intros y Hy. apply needs_solution_false. now apply Hpre. }
  cbv zeta in R. destruct R as (_ & Hreg & _).
  eexists. split; [exact Hreg|].
  rewrite solution_body_run. unfold solved, improve. cbn [fst].
  destruct Htype as [->| ->]; simpl; apply min_1_le_1.
Qed.

End Drift.


(** ** Who adjusts the parameters of a control *)

Lemma for_each_tuning (body : ControlRequirement -> M ControlRequirement) :
  (forall c w, tuning (fst (body c w)) = tuning c) ->
  forall cs w, map tuning (fst (for_each body cs w)) = map tuning cs.
Proof.
  intros Hb cs; induction cs as [|c cs IH]; intro w; simpl; [reflexivity|].
  specialize (Hb c w). destruct (body c w) as [c' w1]. specialize (IH w1).
  destruct (for_each body cs w1); simpl in *. congruence.
Qed.

Lemma for_all_controls_tuning (body : ControlRequirement -> M ControlRequirement)
    (w : World) :
  (forall c w, tuning (fst (body c w)) = tuning c) ->
  map tuning (all_controls (self (exec (for_all_controls body) w))) =
  map tuning (all_controls w.(self)).
Proof.
  intro Hb. rewrite for_all_controls_registry. now apply for_each_tuning.
Qed.

Section Tuning.

Variable rt : Runtime.

Lemma impact_tuning (incident : ComplianceIncident) (w : World) :
  map tuning (all_controls (self (exec (_apply_incident_impact rt incident) w))) =
  map tuning (all_controls w.(self)).
Proof.
  apply for_all_controls_tuning. intros c w0. rewrite impact_body_run.
  unfold impact_control. cbn [fst].
  destruct (str_in _ _); [|reflexivity].
  destruct (status_eqb _ _); reflexivity.
Qed.

Lemma raise_incident_tuning (prefix : string) (tpl : template) (w : World) :
  map tuning (all_controls (self (snd (raise_incident rt prefix tpl w)))) =
  map tuning (all_controls w.(self)).
Proof.
  pose proof (raise_incident_run rt prefix tpl w) as R.
  destruct tpl as [[[code ttl] affected] sev]. cbv zeta in R. rewrite R.
  cbn [snd]. rewrite impact_tuning. reflexivity.
Qed.

Lemma drift_tuning (w : World) :
  map tuning (all_controls (self (exec (_check_compliance_drift rt) w))) =
  map tuning (all_controls w.(self)).
Proof.
  apply for_all_controls_tuning. intros c w0. rewrite drift_body_run.
  destruct (status_eqb _ _); [|reflexivity].
  destruct (last_assessment_date c); [|reflexivity].
  cbv zeta. destruct (PrimFloat.ltb _ _); reflexivity.
Qed.

Lemma overdue_tuning (w : World) :
  map tuning (all_controls (self (exec (_check_overdue_reviews rt) w))) =
  map tuning (all_controls w.(self)).
Proof.
  apply for_all_controls_tuning. intros c w0.
  now rewrite overdue_body_control.
Qed.

Lemma simulate_tuning (w : World) :
  map tuning (all_controls (self (exec (_simulate_incidents rt) w))) =
  map tuning (all_controls w.(self)).
Proof.
  unfold _simulate_incidents, exec.
  cbv [bind random choice ret]; cbv beta iota zeta.
  destruct (PrimFloat.ltb _ _); [|reflexivity].
  match goal with |- context [raise_incident rt ?p ?t ?w1] =>
    pose proof (raise_incident_tuning p t w1) as K;
    destruct (raise_incident rt p t w1) as [i w2] end.
  cbn [snd] in *. exact K.
Qed.

Lemma force_tuning (w : World) :
  map tuning (all_controls (self (exec (force_incident rt) w))) =
  map tuning (all_controls w.(self)).
Proof.
  unfold force_incident, exec. cbv [bind choice]; cbv beta iota zeta.
  match goal with |- context [raise_incident rt ?p ?t ?w1] =>
    pose proof (raise_incident_tuning p t w1) as K end.
  exact K.
Qed.

Lemma update_status_tuning (cid : string) (st : ComplianceStatus) (nts : string)
    (w : World) :
  map tuning (all_controls (self (exec (update_control_status rt cid st nts) w))) =
  map tuning (all_controls w.(self)).
Proof.
  unfold update_control_status.
  match goal with |- context [first_control ?p ?body] =>
    assert (Hk : keeps_registry body) by (intros c w0; now split);
    pose proof (first_control_run p body w Hk) as R;
    destruct (find_split p (all_controls (self w))) as [[[pre c] post]|] eqn:E
  end.
  - cbv zeta in R. destruct R as (_ & Hreg & _).
    apply find_split_some in E as (Hall & _ & _).
    rewrite Hreg, Hall, !map_app. reflexivity.
  - unfold exec. now rewrite R.
Qed.

Lemma resolve_tuning (iid : string) (w : World) :
  map tuning (all_controls (self (exec (resolve_incident rt iid) w))) =
  map tuning (all_controls w.(self)).
Proof.
  unfold exec at 1. rewrite resolve_incident_run.
  destruct (find_split _ _) as [[[pre incident] post]|]; [|reflexivity].
  cbn [snd]. rewrite for_all_controls_tuning; [reflexivity|].
  intros c w0. rewrite restore_body_run.
  destruct (restore_hit _ c); reflexivity.
Qed.

Lemma acknowledge_tuning (aid : string) (w : World) :
  map tuning (all_controls (self (exec (acknowledge_alert aid) w))) =
  map tuning (all_controls w.(self)).
Proof.
  unfold exec. rewrite acknowledge_alert_run.
  destruct (find_split _ _) as [[[pre a] post]|]; reflexivity.
Qed.

Lemma monitor_tick_tuning (w : World) :
  map tuning (all_controls (self (exec (monitor_tick rt) w))) =
  map tuning (all_controls w.(self)).
Proof.
  unfold monitor_tick, exec. cbv [bind]; cbv beta iota zeta.
  pose proof (drift_tuning w) as K1. unfold exec in K1.
  destruct (_check_compliance_drift rt w) as [[] w1].
  pose proof (simulate_tuning w1) as K2. unfold exec in K2.
  destruct (_simulate_incidents rt w1) as [[] w2].
  pose proof (overdue_tuning w2) as K3. unfold exec in K3.
  cbn [snd] in *. congruence.
Qed.

(** X16: only [implement_solution] adjusts the automation level and the
    drift factor of a control: every other operation, and every history
    without a solution implementation, leaves both as they were on every
    control of the registry. *)
Theorem only_solutions_tune :
  (forall o w, tunes o = false ->
     map tuning (all_controls (self (perform rt o w))) =
     map tuning (all_controls w.(self))) /\
  (forall os w, forallb (fun o => negb (tunes o)) os = true ->
     map tuning (all_controls (self (perform_all rt os w))) =
     map tuning (all_controls w.(self))).
Proof.
  assert (H : forall o w, tunes o = false ->
     map tuning (all_controls (self (perform rt o w))) =
     map tuning (all_controls w.(self))).
  { intros o w Ho. destruct o; try discriminate; simpl.
    - apply drift_tuning.
    - apply simulate_tuning.
    - apply impact_tuning.
    - apply overdue_tuning.
    - apply update_status_tuning.
    - apply resolve_tuning.
    - apply acknowledge_tuning.
    - apply force_tuning.
    - apply monitor_tick_tuning. }
  split; [exact H|].
  intro os; induction os as [|o os IH]; intros w Hos; simpl in *; [reflexivity|].
  apply andb_prop in Hos as (Ho & Hos).
  rewrite IH by assumption. apply H.
  now destruct (tunes o).
Qed.

End Tuning.


(** ** The compliance summary *)

Lemma count_status_app (st : ComplianceStatus) (a b : list ControlRequirement) :
  count_status st (a ++ b) = (count_status st a + count_status st b)%nat.
Proof. unfold count_status. now rewrite filter_app, length_app. Qed.

Lemma filter_and_length {A} (p q : A -> bool) (l : list A) :
  (List.length (filter (fun x => p x && q x) l) <= List.length (filter p l))%nat.
Proof.
  induction l as [|x l IH]; simpl; [lia|].
  destruct (p x); simpl; [|exact IH].
  destruct (q x); simpl; lia.
Qed.

Section Summary.

Variable rt : Runtime.

Lemma get_compliance_summary_run (w : World) :
  get_compliance_summary rt w =
  (mkReport (rt.(isoformat) (rt.(datetime_now) w.(calls).(n_now)))
     (List.length (all_controls w.(self)))
     (_get_standard_summary (iso27001_controls w.(self)) "ISO27001")
     (_get_standard_summary (pci_dss_controls w.(self)) "PCI_DSS")
     (_get_high_risk_issues w.(self)),
   after_clock w).
Proof. reflexivity. Qed.

Lemma report_count_registry (st : ComplianceStatus) (w : World) :
  report_count st (result (get_compliance_summary rt) w) =
  count_status st (all_controls w.(self)).
Proof.
  unfold result. rewrite get_compliance_summary_run. cbn [fst].
  unfold all_controls. rewrite count_status_app. now destruct st.
Qed.

(** X17: the compliance summary leaves the manager as it is and reads the
    clock once, for the report date.  Its total is the sum of the totals of
    the two standards; its high-risk list holds, in registry order, exactly
    the non-compliant controls of risk level high or critical, and is never
    longer than the non-compliant counts of the two standards together. *)
Theorem compliance_summary_report (w : World) :
  let r := result (get_compliance_summary rt) w in
  let w' := exec (get_compliance_summary rt) w in
  w'.(self) = w.(self) /\
  w'.(calls) = calls (after_clock w) /\
  r.(report_date) = rt.(isoformat) (rt.(datetime_now) w.(calls).(n_now)) /\
  r.(report_total_controls) =
    (r.(iso27001).(total_controls) + r.(pci_dss).(total_controls))%nat /\
  r.(high_risk_non_compliant) =
    map issue_of
      (filter (fun c => status_eqb c.(status) NON_COMPLIANT &&
                        (risk_eqb c.(risk_level) HIGH ||
                         risk_eqb c.(risk_level) CRITICAL))
         (all_controls w.(self))) /\
  (List.length r.(high_risk_non_compliant) <= report_count NON_COMPLIANT r)%nat /\
  (forall c, In (issue_of c) r.(high_risk_non_compliant) <->
     exists c', In c' (all_controls w.(self)) /\ issue_of c' = issue_of c /\
       c'.(status) = NON_COMPLIANT /\
       (c'.(risk_level) = HIGH \/ c'.(risk_level) = CRITICAL)).
Proof.
  intros r w'.
  assert (Hlist : r.(high_risk_non_compliant) =
    map issue_of
      (filter (fun c => status_eqb c.(status) NON_COMPLIANT &&
                        (risk_eqb c.(risk_level) HIGH ||
                         risk_eqb c.(risk_level) CRITICAL))
         (all_controls w.(self)))).
  { reflexivity. }
  split; [reflexivity|]. split; [reflexivity|]. split; [reflexivity|].
  split.
  { subst r. unfold result. rewrite get_compliance_summary_run.
    cbn [fst report_total_controls iso27001 pci_dss]. unfold all_controls.
    rewrite length_app. reflexivity. }
  split; [exact Hlist|].
  split.
  { rewrite Hlist, length_map. subst r. rewrite report_count_registry.
    apply filter_and_length. }
  intro c. rewrite Hlist, in_map_iff. split.
  - intros (c' & Hc' & Hin). apply filter_In in Hin as (Hin & Hp).
    apply andb_prop in Hp as (Hst & Hrisk).
    exists c'. repeat split; try assumption.
    + now apply status_eqb_eq.
    + destruct (risk_level c'); simpl in Hrisk; try discriminate; auto.
  - intros (c' & Hin & Hc' & Hst & Hrisk). exists c'. split; [assumption|].
    apply filter_In. split; [assumption|].
    rewrite Hst. destruct Hrisk as [-> | ->]; reflexivity.
Qed.

(** X18: a successful solution moves exactly one control in the next
    compliance summary: over the two standards together, the compliant count
    goes up by one, the non-compliant and in-progress counts together go down
    by one, the not-assessed count and the total stay. *)
Theorem solution_moves_one_control (cid solution_type : string) (w : World) :
  result (implement_solution rt cid solution_type) w = true ->
  let r := result (get_compliance_summary rt) w in
  let r' := result (get_compliance_summary rt)
              (exec (implement_solution rt cid solution_type) w) in
  report_count COMPLIANT r' = S (report_count COMPLIANT r) /\
  S (report_count NON_COMPLIANT r' + report_count IN_PROGRESS r') =
    (report_count NON_COMPLIANT r + report_count IN_PROGRESS r)%nat /\
  report_count NOT_ASSESSED r' = report_count NOT_ASSESSED r /\
  r'.(report_total_controls) = r.(report_total_controls).
Proof.
  intros Hok r r'. subst r r'.
  rewrite !report_count_registry.
  unfold result at 1 2. rewrite !get_compliance_summary_run.
  cbn [fst report_total_controls].
  unfold implement_solution in *.
  pose proof (first_control_run (needs_solution cid)
                (solution_body rt cid solution_type) w
                (solution_body_keeps rt cid solution_type)) as R.
  destruct (find_split (needs_solution cid) (all_controls (self w)))
    as [[[pre c] post]|] eqn:E.
  2:{ unfold result in Hok. rewrite R in Hok. discriminate. }
  cbv zeta in R. destruct R as (_ & Hreg & _).
  apply find_split_some in E as (Hall & Hneeds & _).
  rewrite Hreg, Hall, solution_body_run. cbn [fst].
  rewrite !count_status_app, !length_app.
  assert (Hs : status (solved solution_type
                         (datetime_now rt (n_now (calls w))) c) = COMPLIANT).
  { unfold solved, improve.
    destruct (String.eqb solution_type "automation"); [reflexivity|].
    destruct (String.eqb solution_type "training"); [reflexivity|].
    destruct (String.eqb solution_type "technology"); reflexivity. }
  unfold needs_solution in Hneeds. apply andb_prop in Hneeds as (_ & Hneeds).
  unfold count_status. cbn [filter List.length]. rewrite Hs.
  destruct (status c); simpl in Hneeds; try discriminate; simpl; lia.
Qed.

End Summary.


(** ** The endpoints of the dashboard *)

Lemma count_by_risk_run (controls : list ControlRequirement) :
  forall a b c d a' b' c' d' : nat,
  Dashboard.count_by_risk controls
    [("critical", a); ("high", b); ("medium", c); ("low", d)]
    [("critical", a'); ("high", b'); ("medium", c'); ("low", d')] =
  Some ([("critical", (a + risk_count CRITICAL controls)%nat);
         ("high", (b + risk_count HIGH controls)%nat);
         ("medium", (c + risk_count MEDIUM controls)%nat);
         ("low", (d + risk_count LOW controls)%nat)],
        [("critical", (a' + risk_count_non_compliant CRITICAL controls)%nat);
         ("high", (b' + risk_count_non_compliant HIGH controls)%nat);
         ("medium", (c' + risk_count_non_compliant MEDIUM controls)%nat);
         ("low", (d' + risk_count_non_compliant LOW controls)%nat)]).
Proof.
  unfold risk_count, risk_count_non_compliant.
  induction controls as [|x cs IH]; intros a b c d a' b' c' d'.
  - simpl. now rewrite !Nat.add_0_r.
  - cbn [Dashboard.count_by_risk filter].
    destruct (risk_level x); cbn [RiskLevel_value]; simpl dict_incr;
      destruct (status_eqb (status x) NON_COMPLIANT); simpl dict_incr;
      rewrite IH; cbn [risk_eqb andb List.length];
      rewrite ?Nat.add_succ_r; reflexivity.
Qed.

Lemma risk_count_total (controls : list ControlRequirement) :
  (risk_count CRITICAL controls + (risk_count HIGH controls +
     (risk_count MEDIUM controls + risk_count LOW controls)))%nat =
  List.length controls.
Proof.
  unfold risk_count. induction controls as [|c cs IH]; [reflexivity|].
  cbn [filter]. destruct (risk_level c); simpl; lia.
Qed.

(** X19: the risk assessment never fails on a key: it answers with two
    dictionaries over the four risk levels, in which each level maps to the
    number of controls of that level, and to the number of non-compliant
    controls of that level, so that no level has more non-compliant controls
    than controls and the totals add up to the size of the registry. *)
Theorem risk_assessment_counts (g : GovernanceManager) :
  exists total_by_risk non_compliant_by_risk,
    Dashboard.get_risk_assessment g = Some (total_by_risk, non_compliant_by_risk) /\
    map fst total_by_risk = ["critical"; "high"; "medium"; "low"] /\
    map fst non_compliant_by_risk = ["critical"; "high"; "medium"; "low"] /\
    (forall r,
       dict_lookup total_by_risk (RiskLevel_value r) =
         Some (risk_count r (all_controls g)) /\
       dict_lookup non_compliant_by_risk (RiskLevel_value r) =
         Some (risk_count_non_compliant r (all_controls g)) /\
       (risk_count_non_compliant r (all_controls g) <=
          risk_count r (all_controls g))%nat) /\
    list_sum (map snd total_by_risk) = List.length (all_controls g).
Proof.
  unfold Dashboard.get_risk_assessment, Dashboard.zero_by_risk.
  rewrite count_by_risk_run. eexists _, _. split; [reflexivity|].
  split; [reflexivity|]. split; [reflexivity|]. split.
  - intro r. split; [now destruct r|]. split; [now destruct r|].
    apply filter_and_length.
  - simpl. rewrite !Nat.add_0_r. apply risk_count_total.
Qed.

Section Listing.

Variable rt : Runtime.

(** X20: the controls that the dashboard lists as needing a solution are
    exactly those [implement_solution] accepts: a solution for a control id
    succeeds if and only if the list has an entry with that id. *)
Theorem listed_controls_accept_solutions (cid solution_type : string) (w : World) :
  result (implement_solution rt cid solution_type) w = true <->
  exists ttl st risk automation count,
    In (cid, ttl, st, risk, automation, count)
       (Dashboard.get_non_compliant_controls w.(self)).
Proof.
  unfold implement_solution, Dashboard.get_non_compliant_controls.
  pose proof (first_control_run (needs_solution cid)
                (solution_body rt cid solution_type) w
                (solution_body_keeps rt cid solution_type)) as R.
  split.
  - intro Hok.
    destruct (find_split (needs_solution cid) (all_controls (self w)))
      as [[[pre c] post]|] eqn:E.
    2:{ unfold result in Hok. rewrite R in Hok. discriminate. }
    apply find_split_some in E as (Hall & Hneeds & _).
    unfold needs_solution in Hneeds. apply andb_prop in Hneeds as (Hid & Hst).
    apply String.eqb_eq in Hid. subst cid.
    eexists _, _, _, _, _. apply in_map_iff. exists c. split; [reflexivity|].
    apply filter_In. split; [|exact Hst].
    rewrite Hall. apply in_or_app. right. now left.
  - intros (ttl & st & risk & automation & count & Hin).
    apply in_map_iff in Hin as (c & Hc & Hin).
    apply filter_In in Hin as (Hin & Hst). injection Hc as Hid _ _ _ _ _.
    destruct (find_split (needs_solution cid) (all_controls (self w)))
      as [[[pre x] post]|] eqn:E.
    + cbv zeta in R. now destruct R as (Hres & _).
    + pose proof (proj1 (find_split_none _ _) E c Hin) as K.
      unfold needs_solution in K. rewrite Hst, Hid, String.eqb_refl in K.
      discriminate.
Qed.

Lemma force_incident_effect (w : World) :
  let incident := result (force_incident rt) w in
  incident.(resolution_time) = None /\
  incidents (self (exec (force_incident rt) w)) = incidents w.(self) ++ [incident].
Proof.
  cbv zeta. unfold force_incident, exec, result.
  cbv [bind choice]; cbv beta iota zeta.
  match goal with |- context [raise_incident rt ?p ?t ?w1] =>
    remember t as tpl eqn:Et;
    destruct (raise_incident_effect rt p tpl w1) as (Hf & Hi & _) end.
  cbn [self calls n_now n_time] in *. rewrite Hf.
  split; [apply incident_of_open|assumption].
Qed.

Lemma last_n_app_one {A} (n : nat) (l : list A) (x : A) :
  last_n (S n) (l ++ [x]) = last_n n l ++ [x].
Proof.
  unfold last_n. rewrite length_app. cbn [List.length].
  replace (List.length l + 1 - S n)%nat with (List.length l - n)%nat by lia.
  rewrite skipn_app.
  replace (List.length l - n - List.length l)%nat with 0%nat by lia.
  reflexivity.
Qed.

(** X21: the incident list of the dashboard shows the last 20 incidents of
    the ledger, oldest first, and all of them when the ledger holds at most
    20; an incident just forced is its last entry, marked unresolved. *)
Theorem recent_incidents_window (w : World) :
  Dashboard.get_recent_incidents rt w.(self) =
    map (incident_entry rt) (last_n 20 (incidents w.(self))) /\
  List.length (Dashboard.get_recent_incidents rt w.(self)) =
    Nat.min 20 (List.length (incidents w.(self))) /\
  (exists older,
     incidents w.(self) = older ++ last_n 20 (incidents w.(self)) /\
     List.length older = (List.length (incidents w.(self)) - 20)%nat) /\
  ((List.length (incidents w.(self)) <= 20)%nat ->
   last_n 20 (incidents w.(self)) = incidents w.(self)) /\
  (let incident := fst (result (Dashboard.force_incident rt) w) in
   let w' := exec (Dashboard.force_incident rt) w in
   Dashboard.get_recent_incidents rt w'.(self) =
     map (incident_entry rt) (last_n 19 (incidents w.(self))) ++
     [(incident.(incident_id), incident.(inc_title), incident.(inc_description),
       RiskLevel_value incident.(severity),
       rt.(isoformat) incident.(occurrence_time),
       incident.(affected_controls), false)]).
Proof.
  split; [reflexivity|]. split.
  { unfold Dashboard.get_recent_incidents, last_n.
    rewrite length_map, length_skipn. lia. }
  split.
  { exists (firstn (List.length (incidents (self w)) - 20) (incidents (self w))).
    unfold last_n. rewrite firstn_skipn. split; [reflexivity|].
    rewrite length_firstn. lia. }
  split.
  { intro Hle. unfold last_n.
    replace (List.length (incidents (self w)) - 20)%nat with 0%nat by lia.
    reflexivity. }
  cbv zeta. unfold Dashboard.force_incident, result, exec.
  cbv [bind get_active_alerts gets ret]; cbv beta iota zeta.
  pose proof (force_incident_effect w) as E. cbv zeta in E.
  unfold result, exec in E.
  destruct (force_incident rt w) as [incident w1]. cbn [fst snd] in *.
  destruct E as (Hopen & Hledger).
  unfold Dashboard.get_recent_incidents.
  rewrite Hledger, last_n_app_one, map_app. cbn [map].
  now rewrite Hopen.
Qed.

(** X22: the lookup of a status by its value inverts the values of the
    enumeration and fails on every other string, and [update_control]
    rejects a payload whose status is missing or is no such value before it
    touches the manager; with a valid status it is [update_control_status]
    on the payload's id, with empty notes when the payload has none, and a
    payload without an id is answered with a failure and changes nothing. *)
Theorem update_control_validates :
  (forall s, ComplianceStatus_of_value (ComplianceStatus_value s) = Some s) /\
  (forall v s, ComplianceStatus_of_value v = Some s -> v = ComplianceStatus_value s) /\
  (forall cid status notes w,
     (forall s, status <> Some (ComplianceStatus_value s)) ->
     Dashboard.update_control rt cid status notes w = (None, w)) /\
  (forall cid s notes w,
     Dashboard.update_control rt (Some cid) (Some (ComplianceStatus_value s)) notes w =
     (Some (result (update_control_status rt cid s
                      (match notes with Some n => n | None => "" end)) w),
      exec (update_control_status rt cid s
              (match notes with Some n => n | None => "" end)) w)) /\
  (forall s notes w,
     Dashboard.update_control rt None (Some (ComplianceStatus_value s)) notes w =
     (Some false, w)).
Proof.
  assert (Hinv : forall s,
            ComplianceStatus_of_value (ComplianceStatus_value s) = Some s)
    by (intros []; reflexivity).
  assert (Hval : forall v s,
            ComplianceStatus_of_value v = Some s -> v = ComplianceStatus_value s).
  { intros v s. unfold ComplianceStatus_of_value.
    repeat match goal with
    | |- context [String.eqb v ?k] =>
        let E := fresh "E" in
        destruct (String.eqb v k) eqn:E;
        [apply String.eqb_eq in E; intro H; injection H as <-; exact E|]
    end.
    discriminate. }
  split; [exact Hinv|]. split; [exact Hval|]. split; [|split].
  - intros cid status notes w Hbad. unfold Dashboard.update_control.
    destruct status as [v|]; [|reflexivity].
    destruct (ComplianceStatus_of_value v) as [s|] eqn:E; [|reflexivity].
    apply Hval in E. subst v. now destruct (Hbad s).
  - intros cid s notes w. unfold Dashboard.update_control. rewrite Hinv.
    unfold result, exec. cbv [bind ret]; cbv beta iota zeta.
    now destruct (update_control_status rt cid s _ w).
  - intros s notes w. unfold Dashboard.update_control. now rewrite Hinv.
Qed.

End Listing.


(** ** Concrete runs of the further properties *)

(** The acknowledged alert of the forced incident is still first in the sink,
    and still acknowledged, after another incident is forced. *)
Lemma alerts_are_never_lost_witness :
  exists a',
    nth_error
      (alerts (self (perform_all demo_runtime [op_force_incident; op_monitor_tick]
                       acknowledged_world))) 0 = Some a' /\
    a'.(alert_id) = "ALT-1700000000-0" /\
    a'.(acknowledged) = true.
Proof.
  assert (Ha : exists a,
             nth_error (alerts (self acknowledged_world)) 0 = Some a /\
             a.(alert_id) = "ALT-1700000000-0" /\ a.(acknowledged) = true).
  { vm_compute. eexists. repeat split. }
  destruct Ha as (a & Hn & Hid & Hack).
  destruct (alerts_are_never_lost demo_runtime [op_force_incident; op_monitor_tick]
              acknowledged_world) as (_ & H).
  destruct (H 0%nat a Hn) as (a' & Hn' & Hid' & _ & _ & _ & _ & Hack').
  exists a'. split; [exact Hn'|]. split; [now rewrite Hid'|now apply Hack'].
Defined.

(** The resolved incident of the twin world keeps its place and its
    resolution through a second resolution and a monitoring pass. *)
Lemma incidents_are_never_lost_witness :
  exists inc' t,
    nth_error
      (incidents (self (perform_all demo_runtime
                          [op_resolve "SEC-002-1700000000"; op_monitor_tick]
                          twin_world))) 0 = Some inc' /\
    inc'.(incident_id) = "SEC-002-1700000000" /\
    inc'.(resolution_time) = Some t.
Proof.
  assert (Hi : exists inc t,
             nth_error (incidents (self twin_world)) 0 = Some inc /\
             inc.(incident_id) = "SEC-002-1700000000" /\
             inc.(resolution_time) = Some t).
  { vm_compute. eexists. eexists. repeat split. }
  destruct Hi as (inc & t & Hn & Hid & Hres).
  destruct (incidents_are_never_lost demo_runtime
              [op_resolve "SEC-002-1700000000"; op_monitor_tick] twin_world)
    as (_ & H).
  destruct (H 0%nat inc Hn) as (inc' & Hn' & Hid' & _ & _ & _ & _ & _ & _ & Hres').
  exists inc', t. split; [exact Hn'|]. split; [now rewrite Hid'|now apply Hres'].
Defined.

(** Forcing an incident writes nothing to the audit log. *)
Lemma audit_log_only_grows_witness :
  audit_log (self (perform demo_runtime op_force_incident (startup demo_runtime))) =
  audit_log (self (startup demo_runtime)).
Proof.
  destruct (audit_log_only_grows demo_runtime) as (_ & H & _).
  apply H. reflexivity.
Defined.

(** A status update of an unknown control fails; one of the lone control
    succeeds. *)
Lemma update_control_status_outcome_witness :
  update_control_status demo_runtime "X.9" COMPLIANT "none" lone_world =
    (false, lone_world) /\
  result (update_control_status demo_runtime "X.1" NOT_ASSESSED "reopened")
    lone_world = true.
Proof.
  destruct (update_control_status_outcome demo_runtime "X.9" COMPLIANT "none"
              lone_world) as [Hfail _].
  destruct (update_control_status_outcome demo_runtime "X.1" NOT_ASSESSED
              "reopened" lone_world) as [_ Hok].
  split.
  - apply Hfail. intros c [<-|[]] Hid. discriminate Hid.
  - specialize (Hok [] lone_control [] eq_refl
                  (fun y (H : In y []) => match H with end) eq_refl).
    exact (proj1 Hok).
Defined.

(** Acknowledging an unknown alert fails; acknowledging the alert of the
    forced incident succeeds. *)
Lemma acknowledge_alert_outcome_witness :
  acknowledge_alert "ALT-0-0" lone_world = (false, lone_world) /\
  result (acknowledge_alert "ALT-1700000000-0") forced_world = true.
Proof.
  destruct (acknowledge_alert_outcome "ALT-0-0" lone_world) as [Hfail _].
  destruct (acknowledge_alert_outcome "ALT-1700000000-0" forced_world)
    as [_ Hok].
  split.
  - apply Hfail. intros a [].
  - assert (Ha : exists a post,
               alerts (self forced_world) = [] ++ a :: post /\
               a.(alert_id) = "ALT-1700000000-0").
    { vm_compute. eexists. eexists. split; reflexivity. }
    destruct Ha as (a & post & Hl & Hid).
    specialize (Hok [] a post Hl (fun y (H : In y []) => match H with end) Hid).
    exact (proj1 Hok).
Defined.

(** Three years on, the review of the policy control is overdue: the review
    check raises its alert at the first control. *)
Lemma overdue_review_check_witness :
  exists a,
    alerts (self (reached (overdue_body late_runtime)
                    (all_controls (self (startup late_runtime))) 1
                    (startup late_runtime))) =
    alerts (self (reached (overdue_body late_runtime)
                    (all_controls (self (startup late_runtime))) 0
                    (startup late_runtime))) ++ [a] /\
    a.(alert_title) = "Overdue review: A.5.1.1" /\
    a.(alert_severity) = "medium".
Proof.
  assert (Hc : exists c,
             nth_error (all_controls (self (startup late_runtime))) 0 = Some c /\
             c.(control_id) = "A.5.1.1" /\
             review_date late_runtime c = Some 1736899200000000).
  { vm_compute. eexists. repeat split. }
  destruct Hc as (c & Hn & Hid & Hdate).
  destruct (overdue_review_check late_runtime (startup late_runtime))
    as (_ & _ & _ & _ & H).
  specialize (H 0%nat c Hn). cbv zeta in H. rewrite Hdate in H.
  assert (Hlate : (1736899200000000 <?
                   datetime_now late_runtime
                     (n_now (calls (reached (overdue_body late_runtime)
                                      (all_controls (self (startup late_runtime))) 0
                                      (startup late_runtime))))) = true)
    by (vm_compute; reflexivity).
  rewrite Hlate in H. destruct H as (a & Ha & Httl & Hsev & _).
  exists a. split; [exact Ha|]. split; [now rewrite Httl, Hid|exact Hsev].
Defined.

(** Resolving an unknown incident fails; resolving the forced incident
    succeeds and stamps the firewall control, fourth in the registry, with
    the clock reading that follows the stamp of the incident. *)
Lemma resolve_incident_outcome_witness :
  resolve_incident demo_runtime "SEC-000-0" lone_world = (false, lone_world) /\
  result (resolve_incident demo_runtime "SEC-002-1700000000") forced_world = true /\
  incidents (self forced_world) = [firewall_incident] /\
  option_map (fun c => (c.(control_id), c.(status), c.(last_assessment_date)))
    (nth_error
       (all_controls
          (self (exec (resolve_incident demo_runtime "SEC-002-1700000000")
                   forced_world))) 3) =
    Some ("PCI.1.1", COMPLIANT, Some 1700000000000009).
Proof.
  destruct (resolve_incident_outcome demo_runtime "SEC-000-0" lone_world)
    as [Hfail _].
  destruct (resolve_incident_outcome demo_runtime "SEC-002-1700000000" forced_world)
    as [_ Hok].
  split; [apply Hfail; intros x []|].
  assert (Hi : incidents (self forced_world) = [] ++ firewall_incident :: [])
    by (vm_compute; reflexivity).
  specialize (Hok [] firewall_incident [] Hi
                (fun y (H : In y []) => match H with end) eq_refl eq_refl).
  cbv zeta in Hok. destruct Hok as (Hres & _ & _ & Hreg).
  split; [exact Hres|]. split; [exact Hi|].
  assert (Hc : nth_error (all_controls (self forced_world)) 3 =
               Some (set_incident_count 1 (set_status NON_COMPLIANT firewall_control)))
    by (vm_compute; reflexivity).
  destruct (Hreg 3%nat _ Hc) as (_ & Hn). rewrite Hn.
  vm_compute. reflexivity.
Defined.

(** On a fresh manager the incident just forced can be resolved. *)
Lemma forced_incident_resolves_witness :
  result
    (resolve_incident demo_runtime
       (incident_id (result (force_incident demo_runtime) (startup demo_runtime))))
    (exec (force_incident demo_runtime) (startup demo_runtime)) = true.
Proof.
  refine (proj1 (forced_incident_resolves demo_runtime (startup demo_runtime) _)).
  intros x Hx. vm_compute in Hx. destruct Hx.
Defined.

(** A training solution for the lone control raises its LOW alert. *)
Lemma implement_solution_records_witness :
  exists a,
    alerts (self (exec (implement_solution demo_runtime "X.1" "training") lone_world)) =
      alerts (self lone_world) ++ [a] /\
    a.(alert_title) = "Solution implemented: X.1" /\
    a.(alert_severity) = "low".
Proof.
  destruct (implement_solution_records demo_runtime "X.1" "training" lone_world
              [] [] lone_control eq_refl
              (fun y (H : In y []) => match H with end)
              eq_refl (or_introl eq_refl))
    as (_ & _ & _ & (a & Ha & Httl & Hsev & _) & _).
  exists a. split; [exact Ha|]. split; [exact Httl|exact Hsev].
Defined.

(** Once the lone control is solved, a second solution for it fails. *)
Lemma implement_solution_once_witness :
  implement_solution demo_runtime "X.1" "technology"
    (exec (implement_solution demo_runtime "X.1" "training") lone_world) =
  (false, exec (implement_solution demo_runtime "X.1" "training") lone_world).
Proof.
  apply (implement_solution_once demo_runtime "X.1" "training" "technology"
           lone_world).
  - simpl. constructor; [intros []|constructor].
  - vm_compute. reflexivity.
Defined.

(** The control solved a moment ago does not drift. *)
Lemma never_drifts_witness :
  exists c,
    nth_error (all_controls (self solved_world)) 0 = Some c /\
    nth_error
      (all_controls (self (exec (_check_compliance_drift demo_runtime) solved_world)))
      0 = Some c.
Proof.
  assert (Hc : exists c,
             nth_error (all_controls (self solved_world)) 0 = Some c /\
             c.(last_assessment_date) = Some 1700000000000000).
  { vm_compute. eexists. split; reflexivity. }
  destruct Hc as (c & Hn & Hlast).
  assert (Hnow : datetime_now demo_runtime
                   (n_now (calls (reached (drift_body demo_runtime)
                                    (all_controls (self solved_world)) 0
                                    solved_world))) = 1700000000000003)
    by (vm_compute; reflexivity).
  exists c. split; [exact Hn|].
  refine (proj1 (never_drifts demo_runtime solved_world 0 c
                   (fun k => eq_refl) Hn _)).
  right; right. exists 1700000000000000. split; [exact Hlast|].
  rewrite Hnow. lia.
Defined.

(** A technology solution for the lone control leaves its automation level
    at most 1.0. *)
Lemma automation_level_capped_witness :
  exists c',
    all_controls (self (exec (implement_solution demo_runtime "X.1" "technology")
                          lone_world)) = [c'] /\
    PrimFloat.leb c'.(automation_level) 1 = true.
Proof.
  exact (automation_level_capped demo_runtime "X.1" "technology" lone_world
           [] [] lone_control eq_refl
           (fun y (H : In y []) => match H with end)
           eq_refl (or_introl eq_refl) (or_intror eq_refl)).
Defined.

(** Forcing an incident adjusts no automation level and no drift factor. *)
Lemma only_solutions_tune_witness :
  map tuning
    (all_controls (self (perform demo_runtime op_force_incident
                           (startup demo_runtime)))) =
  map tuning (all_controls (self (startup demo_runtime))).
Proof.
  destruct (only_solutions_tune demo_runtime) as (H & _).
  apply H. reflexivity.
Defined.

(** Solving the lone control raises the compliant count of the summary from
    0 to 1. *)
Lemma solution_moves_one_control_witness :
  report_count COMPLIANT
    (result (get_compliance_summary demo_runtime)
       (exec (implement_solution demo_runtime "X.1" "automation") lone_world)) =
  S (report_count COMPLIANT (result (get_compliance_summary demo_runtime) lone_world)).
Proof.
  refine (proj1 (solution_moves_one_control demo_runtime "X.1" "automation"
                   lone_world _)).
  vm_compute. reflexivity.
Defined.

(** With two incidents in the ledger the dashboard lists both. *)
Lemma recent_incidents_window_witness :
  last_n 20 (incidents (self twin_world)) = incidents (self twin_world).
Proof.
  destruct (recent_incidents_window demo_runtime twin_world) as (_ & _ & _ & H & _).
  apply H. vm_compute. repeat constructor.
Defined.

(** A status that is no value of the enumeration is rejected. *)
Lemma update_control_validates_witness :
  Dashboard.update_control demo_runtime (Some "X.1") (Some "done") (Some "")
    lone_world = (None, lone_world).
Proof.
  destruct (update_control_validates demo_runtime) as (_ & _ & H & _).
  apply H. intros s Hs. injection Hs as Hs. destruct s; discriminate Hs.
Defined.


(** ** The summary among threads *)





